(** * index-provider: CAR supplier, pull-to-push adapter, ingest verifier
      and extended-provider advertisements

    A shallow embedding of

    - [internal/suppliers/car_supplier.go] (the registration records of the
      CAR supplier and their keys),
    - [ToCidCallback] and [toChan] of package [suppliers] (the adapter from a
      pull iterator to a pair of channels),
    - [cmd/provider/verify_ingest.go] (sampling, batched lookup, tally and
      verdict of the ingest verifier),
    - the extended-provider advertisement builder exercised by
      [engine/xproviders/xproviders_test.go].

    Conventions.  A Go result [(T, error)] whose value is the zero value
    whenever the error is set is a sum [error + T]; where the code goes on
    to use the value next to an error (the iterator's [Next] in [toChan]) the
    pair is kept.  A mutable object (the datastore, the package-level flags
    of the verifier, the channels) is a state that is passed explicitly.
    Go's [int] is a 64-bit two's complement integer, written here as a [Z]
    with its wrap-around.  Byte slices are [list byte], Go strings are
    [string]. *)

From Stdlib Require Import ZArith List String Ascii Bool Lia PrimFloat.
From Stdlib.Strings Require Import Byte.
From stdpp Require Import gmap strings list.

Open Scope string_scope.
Open Scope Z_scope.

(** ** Go errors

    Errors are compared by identity against the sentinels the code names;
    every other error is an opaque message. *)
Inductive error : Type :=
  | io_EOF                  (* io.EOF *)
  | datastore_ErrNotFound   (* datastore.ErrNotFound *)
  | suppliers_ErrNotFound   (* suppliers.ErrNotFound *)
  | errors_New (msg : string).

Definition error_eqb (a b : error) : bool :=
  match a, b with
  | io_EOF, io_EOF => true
  | datastore_ErrNotFound, datastore_ErrNotFound => true
  | suppliers_ErrNotFound, suppliers_ErrNotFound => true
  | errors_New x, errors_New y => String.eqb x y
  | _, _ => false
  end.

Lemma error_eqb_eq (a b : error) : error_eqb a b = true <-> a = b.
Proof.
  destruct a, b; simpl; split; intros H; try congruence; try reflexivity.
  - apply String.eqb_eq in H. now subst.
  - injection H as ->. apply String.eqb_refl.
Qed.

(** ** Bytes and strings *)

(** [[]byte(s)] and [string(b)]. *)
Definition bytes_of_string (s : string) : list byte := list_byte_of_string s.
Definition string_of_bytes (b : list byte) : string := string_of_list_byte b.

Definition byte_to_Z (b : byte) : Z := Z.of_N (Byte.to_N b).

Definition byte_of_Z (z : Z) : byte :=
  match Byte.of_N (Z.to_N (z mod 256)) with
  | Some b => b
  | None => x00
  end.

Lemma string_of_bytes_of_string (s : string) :
  string_of_bytes (bytes_of_string s) = s.
Proof. apply string_of_list_byte_of_string. Qed.

Lemma bytes_of_string_length (s : string) :
  List.length (bytes_of_string s) = String.length s.
Proof.
  unfold bytes_of_string, list_byte_of_string.
  rewrite List.length_map.
  induction s as [|c s IH]; simpl; [reflexivity | now rewrite IH].
Qed.

(** ** Go's [path.Clean]

    [filepath.Clean] on a platform whose separator is the slash, and
    [path.Clean] as [datastore.NewKey] uses it.  The documented rules:
    multiple slashes become one, [.] elements go away, an inner [..] goes
    away with the element before it, a [..] at the start of a rooted path
    goes away, and the empty result is [.]. *)
Module GoPath.

(** The elements of a path: the substrings between slashes. *)
Fixpoint elements_from (cur : string) (s : string) : list string :=
  match s with
  | EmptyString => [cur]
  | String c s' =>
      if Ascii.eqb c "/" then cur :: elements_from "" s'
      else elements_from (cur ++ String c EmptyString) s'
  end.

Definition elements (s : string) : list string := elements_from "" s.

(** One element against the output written so far ([out] holds the kept
    elements, last one first). *)
Definition clean_element (rooted : bool) (out : list string) (e : string) : list string :=
  if String.eqb e "" then out
  else if String.eqb e "." then out
  else if String.eqb e ".." then
    match out with
    | top :: rest => if String.eqb top ".." then e :: out else rest
    | [] => if rooted then [] else [e]
    end
  else e :: out.

Definition join_slash (l : list string) : string := String.concat "/" l.

Definition is_rooted (path : string) : bool :=
  match path with
  | String c _ => Ascii.eqb c "/"
  | EmptyString => false
  end.

Definition Clean (path : string) : string :=
  if String.eqb path "" then "."
  else
    let rooted := is_rooted path in
    let out := List.rev (List.fold_left (clean_element rooted) (elements path) []) in
    if rooted then "/" ++ join_slash out
    else match out with
         | [] => "."
         | _ => join_slash out
         end.

End GoPath.

(** The table of Go's own test of [Clean]. *)
Example Clean_table :
  List.map GoPath.Clean
    [""; "abc"; "abc/def"; "a/b/c"; "."; ".."; "../.."; "../../abc"; "/abc"; "/";
     "abc/"; "abc/def/"; "a/b/c/"; "./"; "../"; "../../"; "/abc/";
     "abc//def//ghi"; "//abc"; "///abc"; "//abc//"; "abc//";
     "abc/./def"; "/./abc/def"; "abc/.";
     "abc/def/ghi/../jkl"; "abc/def/../ghi/../jkl"; "abc/def/.."; "abc/def/../..";
     "/abc/def/../.."; "abc/def/../../.."; "/abc/def/../../..";
     "abc/def/../../../ghi/jkl/../../../mno";
     "abc/./../def"; "abc//./../def"; "abc/../../././../def"]
  = ["."; "abc"; "abc/def"; "a/b/c"; "."; ".."; "../.."; "../../abc"; "/abc"; "/";
     "abc"; "abc/def"; "a/b/c"; "."; ".."; "../.."; "/abc";
     "abc/def/ghi"; "/abc"; "/abc"; "/abc"; "abc";
     "abc/def"; "/abc/def"; "abc";
     "abc/def/jkl"; "abc/jkl"; "abc"; ".";
     "/"; ".."; "/";
     "../../mno";
     "def"; "def"; "../../def"].
Proof. vm_compute. reflexivity. Qed.

(** ** [crypto/sha256]

    The digest function itself (FIPS 180-4) and the part of Go's [hash.Hash]
    interface the supplier uses: [New], [Write] and [Sum].  [Sum(b)] appends
    the digest of what was WRITTEN so far to [b]; it does not hash [b]. *)
Module sha256.

Definition hex_digit (c : ascii) : Z :=
  let n := Z.of_N (N_of_ascii c) in
  if (48 <=? n) && (n <=? 57) then n - 48
  else if (97 <=? n) && (n <=? 102) then n - 87
  else 0.

(** Words written as runs of eight hex digits. *)
Fixpoint words_of_hex (acc : Z) (k : nat) (s : string) : list Z :=
  match s with
  | EmptyString => []
  | String c s' =>
      let acc' := acc * 16 + hex_digit c in
      match k with
      | O => acc' :: words_of_hex 0 7 s'
      | S k' => words_of_hex acc' k' s'
      end
  end.

Definition initial_hash : list Z :=
  words_of_hex 0 7 "6a09e667bb67ae853c6ef372a54ff53a510e527f9b05688c1f83d9ab5be0cd19".

Definition round_constants : list Z :=
  words_of_hex 0 7
    ("428a2f9871374491b5c0fbcfe9b5dba53956c25b59f111f1923f82a4ab1c5ed5" ++
     "d807aa9812835b01243185be550c7dc372be5d7480deb1fe9bdc06a7c19bf174" ++
     "e49b69c1efbe47860fc19dc6240ca1cc2de92c6f4a7484aa5cb0a9dc76f988da" ++
     "983e5152a831c66db00327c8bf597fc7c6e00bf3d5a7914706ca635114292967" ++
     "27b70a852e1b21384d2c6dfc53380d13650a7354766a0abb81c2c92e92722c85" ++
     "a2bfe8a1a81a664bc24b8b70c76c51a3d192e819d6990624f40e3585106aa070" ++
     "19a4c1161e376c082748774c34b0bcb5391c0cb34ed8aa4a5b9cca4f682e6ff3" ++
     "748f82ee78a5636f84c878148cc7020890befffaa4506cebbef9a3f7c67178f2").

Definition u32 (x : Z) : Z := x mod 2 ^ 32.
Definition rotr (n x : Z) : Z := Z.lor (Z.shiftr x n) (u32 (Z.shiftl x (32 - n))).
Definition bnot (x : Z) : Z := Z.lxor x (2 ^ 32 - 1).
Definition xor3 (a b c : Z) : Z := Z.lxor (Z.lxor a b) c.

Definition choose (e f g : Z) : Z := Z.lxor (Z.land e f) (Z.land (bnot e) g).
Definition majority (a b c : Z) : Z := xor3 (Z.land a b) (Z.land a c) (Z.land b c).
Definition big_s0 (a : Z) : Z := xor3 (rotr 2 a) (rotr 13 a) (rotr 22 a).
Definition big_s1 (e : Z) : Z := xor3 (rotr 6 e) (rotr 11 e) (rotr 25 e).
Definition small_s0 (x : Z) : Z := xor3 (rotr 7 x) (rotr 18 x) (Z.shiftr x 3).
Definition small_s1 (x : Z) : Z := xor3 (rotr 17 x) (rotr 19 x) (Z.shiftr x 10).

(** Padding: a one bit, zeros up to 56 modulo 64, the bit length on eight
    bytes, most significant first. *)
Definition be_bytes (n : nat) (x : Z) : list Z :=
  List.map (fun i => Z.shiftr x (8 * Z.of_nat i) mod 256) (List.rev (List.seq 0 n)).

Definition pad (msg : list Z) : list Z :=
  let len := Z.of_nat (List.length msg) in
  let zeros := Z.to_nat ((55 - len) mod 64) in
  msg ++ [128] ++ List.repeat 0 zeros ++ be_bytes 8 (8 * len).

Fixpoint be_words (fuel : nat) (bs : list Z) : list Z :=
  match fuel, bs with
  | S fuel', a :: b :: c :: d :: rest =>
      (((a * 256 + b) * 256 + c) * 256 + d) :: be_words fuel' rest
  | _, _ => []
  end.

(** The message schedule, newest word first: [w] holds W(t-1), W(t-2), ... *)
Fixpoint extend (n : nat) (w : list Z) : list Z :=
  match n with
  | O => w
  | S n' =>
      let at_ i := List.nth i w 0 in
      extend n' (u32 (small_s1 (at_ 1%nat) + at_ 6%nat + small_s0 (at_ 14%nat) + at_ 15%nat) :: w)
  end.

Definition schedule (block : list Z) : list Z :=
  List.rev (extend 48 (List.rev block)).

Record regs : Type := Regs { ra : Z; rb : Z; rc : Z; rd : Z; re : Z; rf : Z; rg : Z; rh : Z }.

Definition round (r : regs) (kw : Z * Z) : regs :=
  let t1 := rh r + big_s1 (re r) + choose (re r) (rf r) (rg r) + fst kw + snd kw in
  let t2 := big_s0 (ra r) + majority (ra r) (rb r) (rc r) in
  Regs (u32 (t1 + t2)) (ra r) (rb r) (rc r) (u32 (rd r + t1)) (re r) (rf r) (rg r).

Definition regs_of (h : list Z) : regs :=
  let at_ i := List.nth i h 0 in
  Regs (at_ 0%nat) (at_ 1%nat) (at_ 2%nat) (at_ 3%nat) (at_ 4%nat) (at_ 5%nat) (at_ 6%nat) (at_ 7%nat).

Definition regs_list (r : regs) : list Z :=
  [ra r; rb r; rc r; rd r; re r; rf r; rg r; rh r].

Definition compress (h : list Z) (block : list Z) : list Z :=
  let r := List.fold_left round (List.combine round_constants (schedule block)) (regs_of h) in
  List.map (fun p => u32 (fst p + snd p)) (List.combine h (regs_list r)).

Fixpoint blocks (fuel : nat) (h : list Z) (ws : list Z) : list Z :=
  match fuel with
  | O => h
  | S fuel' =>
      match ws with
      | [] => h
      | _ => blocks fuel' (compress h (List.firstn 16 ws)) (List.skipn 16 ws)
      end
  end.

(** [sha256.Sum256]. *)
Definition Sum256 (data : list byte) : list byte :=
  let padded := pad (List.map byte_to_Z data) in
  let ws := be_words (List.length padded) padded in
  let h := blocks (List.length ws) initial_hash ws in
  List.map byte_of_Z (List.concat (List.map (be_bytes 4) h)).

Definition Size : nat := 32.

(** The [hash.Hash] object: what has been written to it. *)
Record digest : Type := { written : list byte }.

Definition New : digest := {| written := [] |}.
Definition Write (d : digest) (p : list byte) : digest := {| written := written d ++ p |}.
Definition Sum (d : digest) (b : list byte) : list byte := b ++ Sum256 (written d).

End sha256.

(** ** [encoding/hex] and [encoding/base64] *)
Module hex.

Definition digit (n : Z) : ascii :=
  ascii_of_N (Z.to_N (if n <? 10 then 48 + n else 87 + n)).

Definition EncodeToString (b : list byte) : string :=
  List.fold_right
    (fun x acc => String (digit (byte_to_Z x / 16)) (String (digit (byte_to_Z x mod 16)) acc))
    EmptyString b.

End hex.

Module base64.

(** The alphabet of [base64.StdEncoding]. *)
Definition encodeStd : string :=
  "ABCDEFGHIJKLMNOPQRSTUVWXYZabcdefghijklmnopqrstuvwxyz0123456789+/".

Definition sextet (n : Z) : ascii :=
  match String.get (Z.to_nat (n mod 64)) encodeStd with
  | Some c => c
  | None => "="%char
  end.

(** Three bytes give four characters; a last group of one or two bytes is
    padded with the equals sign. *)
Fixpoint encode (b : list Z) : string :=
  match b with
  | [] => EmptyString
  | [x] =>
      String (sextet (x / 4)) (String (sextet (x mod 4 * 16)) "==")
  | [x; y] =>
      String (sextet (x / 4)) (String (sextet (x mod 4 * 16 + y / 16))
        (String (sextet (y mod 16 * 4)) "="))
  | x :: y :: z :: rest =>
      String (sextet (x / 4)) (String (sextet (x mod 4 * 16 + y / 16))
        (String (sextet (y mod 16 * 4 + z / 64)) (String (sextet (z mod 64)) (encode rest))))
  end.

Definition EncodeToString (b : list byte) : string := encode (List.map byte_to_Z b).

End base64.

(** The digests of the empty input and of the standard test vector. *)
Example Sum256_empty :
  hex.EncodeToString (sha256.Sum256 []) =
  "e3b0c44298fc1c149afbf4c8996fb92427ae41e4649b934ca495991b7852b855".
Proof. vm_compute. reflexivity. Qed.

Example Sum256_abc :
  hex.EncodeToString (sha256.Sum256 (bytes_of_string "abc")) =
  "ba7816bf8f01cfea414140de5dae2223b00361a396177a9cb410ff61f20015ad".
Proof. vm_compute. reflexivity. Qed.

Example base64_vectors :
  List.map (fun s => base64.EncodeToString (bytes_of_string s))
    [""; "f"; "fo"; "foo"; "foob"; "fooba"; "foobar"]
  = [""; "Zg=="; "Zm8="; "Zm9v"; "Zm9vYg=="; "Zm9vYmE="; "Zm9vYmFy"].
Proof. vm_compute. reflexivity. Qed.

(** A message of 56 bytes needs a second block for its padding. *)
Example Sum256_two_blocks :
  hex.EncodeToString (sha256.Sum256 (List.repeat "a"%byte 56)) =
  "b35439a4ac6f0948b6d6f9e3c6af0f5f590ce20f1bde7090ef7970686ec6738a".
Proof. vm_compute. reflexivity. Qed.

(** ** [go-datastore]

    Keys, and the interface of a datastore.  The store is an object the
    supplier mutates: every operation takes the store and gives the store
    back, next to its error. *)
Module datastore.

(** A key is its string. *)
Definition Key : Type := string.

(** [NewKey]: the string is cleaned as a rooted path. *)
Definition NewKey (s : string) : Key :=
  match s with
  | EmptyString => "/"
  | String c _ =>
      if Ascii.eqb c "/" then GoPath.Clean s else GoPath.Clean ("/" ++ s)
  end.

Class Datastore : Type := {
  store : Type;
  Get : store -> Key -> error + list byte;
  Put : store -> Key -> list byte -> option error * store;
  Delete : store -> Key -> option error * store;
}.

(** What the supplier relies on: a value that was put is read back, a key
    that was deleted is reported with [ErrNotFound], and a delete leaves
    the other keys alone.  Nothing is asked of an operation that fails. *)
Class DatastoreLaws (D : Datastore) : Prop := {
  Get_Put : forall s k v s', Put s k v = (None, s') -> Get s' k = inr v;
  Get_Delete : forall s k s', Delete s k = (None, s') -> Get s' k = inl datastore_ErrNotFound;
  Get_Delete_ne : forall s k k' s', Delete s k = (None, s') -> k' <> k -> Get s' k' = Get s k';
}.

(** [MapDatastore]: a Go map from key to value; [Put] and [Delete] never
    fail. *)
#[export] Instance MapDatastore : Datastore := {|
  store := gmap string (list byte);
  Get := fun (s : gmap string (list byte)) k =>
    match s !! k with
    | Some v => inr v
    | None => inl datastore_ErrNotFound
    end;
  Put := fun (s : gmap string (list byte)) k v => (None, <[k := v]> s);
  Delete := fun (s : gmap string (list byte)) k => (None, delete k s);
|}.

Definition NewMapDatastore : @store MapDatastore := (∅ : gmap string (list byte)).

End datastore.

#[export] Instance MapDatastore_laws : datastore.DatastoreLaws datastore.MapDatastore.
Proof.
  split; simpl.
  - intros s k v s' [= <-]. now rewrite lookup_insert_eq.
  - intros s k s' [= <-]. now rewrite lookup_delete_eq.
  - intros s k k' s' [= <-] Hne. rewrite lookup_delete_ne; [reflexivity | congruence].
Qed.

Example NewKey_examples :
  List.map datastore.NewKey [""; "a"; "/a/"; "car://AbC/"; "a//b/./c"]
  = ["/"; "/a"; "/a"; "/car:/AbC"; "/a/b/c"].
Proof. vm_compute. reflexivity. Qed.

(** ** [go-cid], [go-multihash], [go-multicodec]

    The operations of a CID the supplier calls.  The encoding of a CID is
    the library's business; the supplier only moves CIDs through it. *)
Class Cids : Type := {
  Cid : Type;
  cid_Undef : Cid;                                       (* cid.Undef *)
  cid_NewCidV1 : Z -> list byte -> Cid;                  (* cid.NewCidV1(codec, mh) *)
  cid_Hash : Cid -> list byte;                           (* c.Hash() *)
  cid_Bytes : Cid -> list byte;                          (* c.Bytes() *)
  cid_String : Cid -> string;                            (* c.String() *)
  cid_CidFromBytes : list byte -> error + (nat * Cid);   (* cid.CidFromBytes(b) *)
}.

Module multicodec.
Definition DagCbor : Z := 0x71.
End multicodec.

Module multihash.

Definition SHA2_256 : Z := 0x12.

(** [binary.PutUvarint]: seven bits a byte, least significant group first,
    the top bit set on every byte but the last.  The fuel is the number of
    groups at most. *)
Fixpoint uvarint (fuel : nat) (x : Z) : list byte :=
  match fuel with
  | O => []
  | S fuel' =>
      if x <? 128 then [byte_of_Z x]
      else byte_of_Z (Z.lor (x mod 128) 128) :: uvarint fuel' (x / 128)
  end.

(** [multihash.Encode]: the code, the digest's length, the digest. *)
Definition Encode (digest : list byte) (code : Z) : list byte :=
  uvarint 10 code ++ uvarint 10 (Z.of_nat (List.length digest)) ++ digest.

(** [multihash.SumStream(r, SHA2_256, -1)] over the bytes the reader gives;
    a reader that fails gives its error. *)
Definition SumStream (r : error + list byte) : error + list byte :=
  match r with
  | inl err => inl err
  | inr data => inr (Encode (sha256.Sum256 data) SHA2_256)
  end.

End multihash.

Example multihash_of_empty :
  hex.EncodeToString (multihash.Encode (sha256.Sum256 []) multihash.SHA2_256) =
  "1220e3b0c44298fc1c149afbf4c8996fb92427ae41e4649b934ca495991b7852b855".
Proof. vm_compute. reflexivity. Qed.

Example uvarint_300 : hex.EncodeToString (multihash.uvarint 10 300) = "ac02".
Proof. vm_compute. reflexivity. Qed.

(** ** Channels

    A buffered channel: its capacity, the values waiting in it, and whether
    it was closed.  A nil channel is [None]. *)
Module channel.

Record chan (A : Type) : Type := Chan { cap : nat; buf : list A; closed : bool }.
Arguments Chan {A} _ _ _.
Arguments cap {A} _.
Arguments buf {A} _.
Arguments closed {A} _.

(** [make(chan A, n)]. *)
Definition make (A : Type) (n : nat) : chan A := Chan n [] false.

Inductive send_result (A : Type) : Type :=
  | Sent (c : chan A)
  | SendBlocks
  | SendPanics.
Arguments Sent {A} _.
Arguments SendBlocks {A}.
Arguments SendPanics {A}.

(** [c <- v]: a send on a closed channel panics, a send on a full one
    waits. *)
Definition send {A : Type} (c : chan A) (v : A) : send_result A :=
  if closed c then SendPanics
  else if (List.length (buf c) <? cap c)%nat then Sent (Chan (cap c) (buf c ++ [v]) false)
  else SendBlocks.

(** [close(c)]: closing twice panics. *)
Definition close {A : Type} (c : chan A) : option (chan A) :=
  if closed c then None else Some (Chan (cap c) (buf c) true).

Inductive recv_result (A : Type) : Type :=
  | Received (v : A) (c : chan A)   (* a value, and the channel without it *)
  | RecvClosed                      (* the zero value, ok = false *)
  | RecvBlocks.
Arguments Received {A} _ _.
Arguments RecvClosed {A}.
Arguments RecvBlocks {A}.

(** [<-c]: the values still waiting are received also after the close; a
    receive on a nil channel waits forever. *)
Definition recv {A : Type} (c : option (chan A)) : recv_result A :=
  match c with
  | None => RecvBlocks
  | Some c =>
      match buf c with
      | v :: rest => Received v (Chan (cap c) rest (closed c))
      | [] => if closed c then RecvClosed else RecvBlocks
      end
  end.

End channel.

(** ** Package [suppliers] *)
Module suppliers.

Import channel.

(** A CID iterator: what its successive calls of [Next] return.  Once the
    script is used up, [Next] reports [io.EOF]. *)
Definition CidIterator `{Cids} : Type := list (Cid * option error).

Definition Next `{Cids} (ci : CidIterator) : (Cid * option error) * CidIterator :=
  match ci with
  | r :: rest => (r, rest)
  | [] => ((cid_Undef, Some io_EOF), [])
  end.

(** *** [car_supplier.go] *)

Definition carPathKeyPrefix : string := "car://".

Definition toPathKey (path : string) : datastore.Key :=
  (* Hash the path to get a fixed length string as key, regardless of how long the path is. *)
  let pathHash := sha256.Sum sha256.New (bytes_of_string path) in
  let encPathHash := base64.EncodeToString pathHash in
  (* Prefix the hash with some constant for namespacing and debug readability. *)
  datastore.NewKey (carPathKeyPrefix ++ encPathHash).

Section CarSupplier.

Context {C : Cids} {D : datastore.Datastore}.

(** The CAR reader's options, and the opening of the CAR at a path as an
    iterator over its CIDs: the file system and the CAR format are not
    part of the supplier. *)
Variable ReadOption : Type.
Variable newCarCidIterator : string -> list ReadOption -> error + CidIterator.

Record CarSupplier : Type := NewCarSupplier {
  ds : datastore.store;
  opts : list ReadOption;
}.

Definition with_ds (cs : CarSupplier) (s : datastore.store) : CarSupplier :=
  NewCarSupplier s (opts cs).

Definition toCarIdKey (id : Cid) : datastore.Key :=
  datastore.NewKey (cid_String id).

(** Modelled from the spec: [NewCidIteratorReadCloser] is declared in a file
    of the package that is not among the sources.  The reader gives, in
    order, what the marshaller makes of every sub-identifier of the
    iterator; it ends at the iterator's end and fails where the iterator
    fails.  This is the reader read to its end. *)
Fixpoint NewCidIteratorReadCloser (fuel : nat) (ci : CidIterator)
    (marshal : Cid -> error + list byte) : error + list byte :=
  match fuel with
  | O => inr []
  | S fuel' =>
      match Next ci with
      | ((_, Some err), _) =>
          if error_eqb err io_EOF then inr [] else inl err
      | ((c, None), ci') =>
          match marshal c with
          | inl err => inl err
          | inr b =>
              match NewCidIteratorReadCloser fuel' ci' marshal with
              | inl err => inl err
              | inr rest => inr (b ++ rest)%list
              end
          end
      end
  end.

Definition generateID (path : string) (opts : list ReadOption) : error + Cid :=
  (* Instantiate iterator over CAR CIDs. *)
  match newCarCidIterator path opts with
  | inl err => inl err
  | inr cri =>
      (* Note we use the multihash of CIDs instead of the entire CID. *)
      let reader :=
        NewCidIteratorReadCloser (S (List.length cri)) cri (fun c => inr (cid_Hash c)) in
      (* Generate multihash of CAR's CIDs. *)
      match multihash.SumStream reader with
      | inl err => inl err
      | inr mh => inr (cid_NewCidV1 multicodec.DagCbor mh)
      end
  end.

Definition PutWithID (cs : CarSupplier) (id : Cid) (path : string)
    : (error + Cid) * CarSupplier :=
  (* Clean path to CAR. *)
  let path := GoPath.Clean path in
  (* Store mapping of CAR ID to path, used to instantiate CID iterator. *)
  let carIdKey := toCarIdKey id in
  match datastore.Put (ds cs) carIdKey (bytes_of_string path) with
  | (Some err, s) => (inl err, with_ds cs s)
  | (None, s) =>
      (* Store mapping of path to CAR ID, used to lookup the CAR by path when it is removed. *)
      match datastore.Put s (toPathKey path) (cid_Bytes id) with
      | (Some err, s') => (inl err, with_ds cs s')
      | (None, s') => (inr id, with_ds cs s')
      end
  end.

Definition Put (cs : CarSupplier) (path : string) : (error + Cid) * CarSupplier :=
  (* Clean path to CAR. *)
  let path := GoPath.Clean path in
  (* Generate a CID for the CAR at given path. *)
  match generateID path [] with
  | inl err => (inl err, cs)
  | inr id => PutWithID cs id path
  end.

Definition getCarIDFromPathKey (cs : CarSupplier) (pathKey : datastore.Key) : error + Cid :=
  match datastore.Get (ds cs) pathKey with
  | inl err => inl err
  | inr carIdBytes =>
      match cid_CidFromBytes carIdBytes with
      | inl err => inl err
      | inr (_, c) => inr c
      end
  end.

Definition Remove (cs : CarSupplier) (path : string) : (error + Cid) * CarSupplier :=
  (* Clean path. *)
  let path := GoPath.Clean path in
  (* Find the CAR ID that corresponds to the given path *)
  let pathKey := toPathKey path in
  match getCarIDFromPathKey cs pathKey with
  | inl err =>
      (if error_eqb err datastore_ErrNotFound then inl suppliers_ErrNotFound else inl err, cs)
  | inr id =>
      (* Delete mapping of CAR ID to path. *)
      let carIdKey := toCarIdKey id in
      match datastore.Delete (ds cs) carIdKey with
      | (Some err, s) => (inl err, with_ds cs s)
      | (None, s) =>
          (* Delete mapping of path to CAR ID. *)
          match datastore.Delete s pathKey with
          | (Some err, s') => (inl err, with_ds cs s')
          | (None, s') => (inr id, with_ds cs s')
          end
      end
  end.

Definition Supply (cs : CarSupplier) (key : Cid) : error + CidIterator :=
  match datastore.Get (ds cs) (toCarIdKey key) with
  | inl err =>
      if error_eqb err datastore_ErrNotFound then inl suppliers_ErrNotFound else inl err
  | inr b =>
      let path := string_of_bytes b in
      newCarCidIterator path (opts cs)
  end.

End CarSupplier.

Arguments CarSupplier {D} ReadOption.
Arguments NewCarSupplier {D ReadOption} _ _.
Arguments ds {D ReadOption} _.
Arguments opts {D ReadOption} _.

(** *** The adapter from a pull iterator to a pair of channels

    [toChan] makes two channels of capacity one and starts one goroutine.
    The goroutine is a program counter next to its iterator; the channels
    are shared between the goroutine and whoever holds what [toChan]
    returned, so they are fields of one state. *)
Section Adapter.

Context {C : Cids}.

Inductive pc : Type :=
  | AtNext                               (* c, err := ci.Next() *)
  | AtSendErr (c : Cid) (err : error)    (* errChan <- err *)
  | AtSendCid (c : Cid)                  (* cidChan <- c *)
  | AtDefer                              (* close(cidChan); close(errChan) *)
  | Exited
  | Panicked.

Record goroutine : Type := Goroutine { ci : CidIterator; at_ : pc }.

Record stream : Type := Stream {
  cidChan : option (chan Cid);
  errChan : option (chan error);
  worker : option goroutine;             (* the goroutine, when one was started *)
}.

Definition toChan (ci : CidIterator) : stream :=
  Stream (Some (make Cid 1)) (Some (make error 1)) (Some (Goroutine ci AtNext)).

(** What can be seen of a run. *)
Inductive event : Type :=
  | CalledNext
  | SentErr (err : error)
  | SentCid (c : Cid)
  | ClosedBoth
  | GotCid (c : Cid)
  | GotErr (err : error)
  | SawCidClosed
  | SawErrClosed
  | Waits
  | Panics.

(** One step of the goroutine: the loop of [toChan], statement by
    statement.  [None] when it cannot move (it waits on a full channel, or
    it is over).  The two closings of the deferred function are one step:
    the state between them, the value channel closed and the error channel
    still open, is not a state here, and no statement below is about the
    order of the two closings. *)
Definition worker_step (s : stream) : option (stream * event) :=
  match worker s with
  | None => None
  | Some g =>
      match at_ g with
      | AtNext =>
          let '((c, err), ci') := Next (ci g) in
          let goto p := Some (Stream (cidChan s) (errChan s) (Some (Goroutine ci' p)), CalledNext) in
          match err with
          | Some e =>
              if error_eqb e io_EOF then goto AtDefer   (* break *)
              else goto (AtSendErr c e)                (* err != nil *)
          | None => goto (AtSendCid c)
          end
      | AtSendErr c e =>
          match errChan s with
          | None => None
          | Some ch =>
              match send ch e with
              | Sent ch' =>
                  Some (Stream (cidChan s) (Some ch') (Some (Goroutine (ci g) (AtSendCid c))), SentErr e)
              | SendBlocks => None
              | SendPanics =>
                  Some (Stream (cidChan s) (errChan s) (Some (Goroutine (ci g) Panicked)), Panics)
              end
          end
      | AtSendCid c =>
          match cidChan s with
          | None => None
          | Some ch =>
              match send ch c with
              | Sent ch' =>
                  Some (Stream (Some ch') (errChan s) (Some (Goroutine (ci g) AtNext)), SentCid c)
              | SendBlocks => None
              | SendPanics =>
                  Some (Stream (cidChan s) (errChan s) (Some (Goroutine (ci g) Panicked)), Panics)
              end
          end
      | AtDefer =>
          match cidChan s, errChan s with
          | Some cc, Some ec =>
              match close cc, close ec with
              | Some cc', Some ec' =>
                  Some (Stream (Some cc') (Some ec') (Some (Goroutine (ci g) Exited)), ClosedBoth)
              | _, _ =>
                  Some (Stream (cidChan s) (errChan s) (Some (Goroutine (ci g) Panicked)), Panics)
              end
          | _, _ => Some (Stream (cidChan s) (errChan s) (Some (Goroutine (ci g) Panicked)), Panics)
          end
      | Exited | Panicked => None
      end
  end.

(** The moves of a run: the goroutine moves, or the holder of the channels
    receives from one of them.  A move that cannot be made is recorded as
    [Waits] and changes nothing. *)
Inductive action : Type := Work | RecvCid | RecvErr.

Definition act (s : stream) (a : action) : stream * event :=
  match a with
  | Work =>
      match worker_step s with
      | Some r => r
      | None => (s, Waits)
      end
  | RecvCid =>
      match recv (cidChan s) with
      | Received v ch => (Stream (Some ch) (errChan s) (worker s), GotCid v)
      | RecvClosed => (s, SawCidClosed)
      | RecvBlocks => (s, Waits)
      end
  | RecvErr =>
      match recv (errChan s) with
      | Received v ch => (Stream (cidChan s) (Some ch) (worker s), GotErr v)
      | RecvClosed => (s, SawErrClosed)
      | RecvBlocks => (s, Waits)
      end
  end.

Fixpoint run (s : stream) (acts : list action) : stream * list event :=
  match acts with
  | [] => (s, [])
  | a :: rest =>
      let '(s', e) := act s a in
      let '(s'', es) := run s' rest in
      (s'', e :: es)
  end.

(** [ToCidCallback]: the supplier is its [Supply]; the callback is a
    function of the key.  [None] would be a call that does not return. *)
Definition ToCidCallback {LookupKey : Type} (cidIterSup : LookupKey -> error + CidIterator)
    (key : LookupKey) : option stream :=
  match cidIterSup key with
  | inl err =>
      let errChan := make error 1 in
      match send errChan err with            (* errChan <- err *)
      | Sent errChan =>
          match close errChan with           (* defer close(errChan) *)
          | Some errChan => Some (Stream None (Some errChan) None)   (* return nil, errChan *)
          | None => None
          end
      | _ => None
      end
  | inr ci => Some (toChan ci)
  end.

End Adapter.

End suppliers.

(** ** [cmd/provider/verify_ingest.go] *)
Module verify_ingest.

(** [math/rand]: a generator made from a seed, and its [Float64], which
    gives a number in the half-open unit interval and moves the generator
    on.  The generator itself is the library's. *)
Class Rand : Type := {
  rng : Type;
  rand_New : Z -> rng;                 (* rand.New(rand.NewSource(seed)) *)
  Float64 : rng -> float * rng;        (* rng.Float64() *)
}.

(** Go's [int] and [int64]: 64 bits, two's complement. *)
Definition wrap64 (x : Z) : Z := (x + 2 ^ 63) mod 2 ^ 64 - 2 ^ 63.
Definition incr (x : Z) : Z := wrap64 (x + 1).
Definition len {A : Type} (l : list A) : Z := wrap64 (Z.of_nat (List.length l)).

Definition Multihash : Type := list byte.

(** [Multihash.String]: the hex string. *)
Definition Multihash_String (mh : Multihash) : string := hex.EncodeToString mh.

(** The finder's model: per multihash, the provider records found for it;
    a provider is taken by the string of its peer ID. *)
Record ProviderResult : Type := { Provider_ID_String : string }.
Record MultihashResult : Type := {
  MultihashOf : Multihash;
  ProviderResults : list ProviderResult;
}.
Record FindResponse : Type := { MultihashResults : list MultihashResult }.

(** The finder client is its [FindBatch]. *)
Definition Client : Type := list Multihash -> error + FindResponse.

(** An iterable index: the records [ForEach] hands to its callback, in
    order, and the error it ends with when the index cannot be read to its
    end. *)
Record IterableIndex : Type := {
  records : list (Multihash * Z);
  failure : option error;
}.

(** [cli.Exit(message, code)]. *)
Record ExitCoder : Type := Exit { message : string; exitCode : Z }.

Section Verifier.

Context {R : Rand}.

(** [sampleSelector]: the two closures [beforeVerifyIngest] makes. *)
Inductive sampleSelector : Type :=
  | include_every                (* func() bool { return true } *)
  | include_sampled (r : rng).   (* func() bool { return rng.Float64() <= samplingProb } *)

(** The package-level variables. *)
Record globals : Type := Globals {
  carPath : string;
  carIndexPath : string;
  indexerAddr : string;
  provId : string;
  samplingProb : float;
  rngSeed : Z;
  include : sampleSelector;
}.

Definition set_include (g : globals) (i : sampleSelector) : globals :=
  Globals (carPath g) (carIndexPath g) (indexerAddr g) (provId g) (samplingProb g) (rngSeed g) i.

Definition set_rngSeed (g : globals) (seed : Z) : globals :=
  Globals (carPath g) (carIndexPath g) (indexerAddr g) (provId g) (samplingProb g) seed (include g).

(** [include()]: the closure reads [samplingProb] when it is called. *)
Definition call_include (g : globals) : bool * globals :=
  match include g with
  | include_every => (true, g)
  | include_sampled r =>
      let '(x, r') := Float64 r in
      (PrimFloat.leb x (samplingProb g), set_include g (include_sampled r'))
  end.

(** [beforeVerifyIngest]; [now] is what [time.Now().UnixNano()] reads. *)
Definition beforeVerifyIngest (now : Z) (g : globals) : option ExitCoder * globals :=
  if PrimFloat.leb (samplingProb g) 0 || PrimFloat.ltb 1 (samplingProb g) then
    (Some (Exit "Sampling probability must be larger than 0.0 and smaller or equal to 1.0." 1), g)
  else if PrimFloat.eqb (samplingProb g) 1 then
    (None, set_include g include_every)
  else
    let g := if rngSeed g =? 0 then set_rngSeed g now else g in
    let rng := rand_New (rngSeed g) in
    (None, set_include g (include_sampled rng)).

Record verifyIngestResult : Type := Result {
  total : Z;
  providerMissmatch : Z;
  present : Z;
  absent : Z;
  err : Z;
}.

Definition passedVerification (r : verifyIngestResult) : bool :=
  present r =? total r.

(** The callback of [idx.ForEach]: one call of [include] per record. *)
Fixpoint forEach_include (recs : list (Multihash * Z)) (mhs : list Multihash) (g : globals)
    : list Multihash * globals :=
  match recs with
  | [] => (mhs, g)
  | (mh, _) :: rest =>
      let '(yes, g') := call_include g in
      forEach_include rest (if yes then (mhs ++ [mh])%list else mhs) g'
  end.

(** The loop over the providers of one multihash result. *)
Fixpoint match_provider (ps : list ProviderResult) (g : globals) (result : verifyIngestResult)
    : verifyIngestResult * bool :=
  match ps with
  | [] => (result, false)
  | p :: rest =>
      let id := Provider_ID_String p in
      if String.eqb id (provId g) then
        (Result (total result) (providerMissmatch result) (incr (present result))
                (absent result) (err result), true)
      else match_provider rest g result
  end.

Definition add_absent (r : verifyIngestResult) : verifyIngestResult :=
  Result (total r) (providerMissmatch r) (present r) (incr (absent r)) (err r).

Definition add_providerMissmatch (r : verifyIngestResult) : verifyIngestResult :=
  Result (total r) (incr (providerMissmatch r)) (present r) (absent r) (err r).

(** The loop over the retained multihashes. *)
Fixpoint count_results (mhLookup : gmap string MultihashResult) (mhs : list Multihash)
    (g : globals) (result : verifyIngestResult) : verifyIngestResult :=
  match mhs with
  | [] => result
  | mh :: rest =>
      match mhLookup !! Multihash_String mh with
      | None => count_results mhLookup rest g (add_absent result)
      | Some mr =>
          match ProviderResults mr with
          | [] => count_results mhLookup rest g (add_absent result)
          | _ =>
              let '(result, matchedProvider) := match_provider (ProviderResults mr) g result in
              count_results mhLookup rest g
                (if matchedProvider then result else add_providerMissmatch result)
          end
      end
  end.

Definition make_mhLookup (rs : list MultihashResult) : gmap string MultihashResult :=
  List.fold_left (fun m mr => <[Multihash_String (MultihashOf mr) := mr]> m) rs ∅.

(** The multihashes the run retains: the [ForEach] of
    [verifyIngestFromCarIterableIndex]. *)
Definition retained (idx : IterableIndex) (g : globals) : list Multihash :=
  fst (forEach_include (records idx) [] g).

Definition verifyIngestFromCarIterableIndex (finder : Client) (idx : IterableIndex) (g : globals)
    : (error + verifyIngestResult) * globals :=
  let '(mhs, g) := forEach_include (records idx) [] g in
  match failure idx with
  | Some e => (inl e, g)
  | None =>
      let mhsCount := len mhs in
      let result := Result mhsCount 0 0 0 0 in
      match finder mhs with
      | inl _ =>
          (* Set number multihashes failed to verify instead of returning error since at this
             point the number of multihashes is known. *)
          (inr (Result mhsCount 0 0 0 mhsCount), g)
      | inr response =>
          match MultihashResults response with
          | [] => (inr (Result mhsCount 0 0 mhsCount 0), g)
          | rs => (inr (count_results (make_mhLookup rs) mhs g result), g)
          end
      end
  end.

(** What [printAndExit] writes: the calls of [fmt.Println] and
    [fmt.Printf], each with its one argument. *)
Inductive fmt_arg : Type := of_int (n : Z) | of_float64 (x : float).
Inductive printed : Type :=
  | Println (line : string)
  | Printf (format : string) (arg : fmt_arg).

Definition printAndExit (r : verifyIngestResult) (g : globals) : list printed * ExitCoder :=
  ([ Println "";
     Println "Verification result:";
     Printf "  # failed to verify:                   %d\n" (of_int (err r));
     Printf "  # unindexed:                          %d\n" (of_int (absent r));
     Printf "  # indexed with another provider ID:   %d\n" (of_int (providerMissmatch r));
     Printf "  # indexed with expected provider ID:  %d\n" (of_int (present r));
     Println "--------------------------------------------";
     Printf "total Multihashes checked:              %d\n" (of_int (total r));
     Println "";
     Printf "sampling probability:                   %.2f\n" (of_float64 (samplingProb g));
     Printf "RNG seed:                               %d\n" (of_int (rngSeed g));
     Println "" ],
   if passedVerification r then Exit "🎉 Passed verification check." 0
   else Exit "❌ Failed verification check." 1).

(** How a command ends: with an exit code and message, or with an error
    of another kind. *)
Inductive outcome : Type :=
  | exits (e : ExitCoder)
  | fails (e : error).

(** [doVerifyIngestFromCar]: [idx] is what [getOrGenerateCarIndex] gave
    for the CAR at [carPath], [httpfinderclient_New] is the making of a
    finder client for an address. *)
Definition doVerifyIngestFromCar (idx : error + IterableIndex)
    (httpfinderclient_New : string -> error + Client) (g : globals)
    : list printed * outcome * globals :=
  match idx with
  | inl e => ([], fails e, g)
  | inr idx =>
      match httpfinderclient_New (indexerAddr g) with
      | inl e => ([], fails e, g)
      | inr finder =>
          match verifyIngestFromCarIterableIndex finder idx g with
          | (inl e, g) => ([], fails e, g)
          | (inr result, g) =>
              let '(out, code) := printAndExit result g in (out, exits code, g)
          end
      end
  end.

(** [doVerifyIngestFromCarIndex], from the point where the index was read:
    [idx] is what [index.ReadFrom] and the cast to an iterable index gave
    for the file at [carIndexPath].  An index that is not iterable is among
    the errors here: the source returns [errInvalidCarIndexFormat] for it,
    an exit with code one. *)
Definition doVerifyIngestFromCarIndex (idx : error + IterableIndex)
    (httpfinderclient_New : string -> error + Client) (g : globals)
    : list printed * outcome * globals :=
  match idx with
  | inl e => ([], fails e, g)
  | inr iterIdx =>
      match httpfinderclient_New (indexerAddr g) with
      | inl e => ([], fails e, g)
      | inr finder =>
          match verifyIngestFromCarIterableIndex finder iterIdx g with
          | (inl e, g) => ([], fails e, g)
          | (inr result, g) =>
              let '(out, code) := printAndExit result g in (out, exits code, g)
          end
      end
  end.

End Verifier.

End verify_ingest.

(** ** Package [xproviders]: the advertisement builder

    The builder's own file ([engine/xproviders/xproviders.go]) and the
    advertisement schema are not among the sources; the package's test file
    is.  The data model and the builder follow the specification, the tests
    are embedded as they are written. *)
Module xproviders.

#[export] Instance byte_eq_decision : EqDecision byte := Byte.byte_eq_dec.

(** A peer identity, by its string form. *)
Definition peer_ID : Type := string.
Definition Multiaddr : Type := string.

(** A private key, known here by the identity its public key gives. *)
Record PrivKey : Type := { identity : peer_ID }.

(** Modelled from the spec: the advertisement schema ([schema.Advertisement],
    [schema.ExtendedProvider], [schema.Provider]) and the signatures are
    declared outside the sources.  The records have the fields of the
    specification's data model.  A signature is the signer next to what was
    signed: an extended provider's identity with the context and its
    metadata, or the fields of an advertisement. *)
Inductive Link : Type := NoEntries | LinkTo (c : string).

Inductive signed : Type :=
  | provider_fields (id : peer_ID) (contextID metadata : list byte)
  | advertisement_fields (previousID : option string) (provider : peer_ID)
      (addresses : list Multiaddr) (entries : Link) (contextID metadata : list byte)
      (isRm : bool) (override : bool)
      (providers : list (peer_ID * list Multiaddr * list byte)).

#[export] Instance Link_eq_decision : EqDecision Link.
Proof. solve_decision. Defined.

#[export] Instance signed_eq_decision : EqDecision signed.
Proof. solve_decision. Defined.

Record Signature : Type := { signer : peer_ID; over : signed }.

Definition sign (k : PrivKey) (what : signed) : Signature :=
  {| signer := identity k; over := what |}.

Record Provider : Type := {
  Provider_ID : peer_ID;
  Provider_Addresses : list Multiaddr;
  Provider_Metadata : list byte;
  Provider_Signature : Signature;
}.

Record ExtendedProvider : Type := {
  Providers : list Provider;
  Override : bool;
}.

Record Advertisement : Type := {
  PreviousID : option string;
  Provider_ : peer_ID;
  Addresses : list Multiaddr;
  Entries : Link;
  ContextID : list byte;
  Metadata : list byte;
  IsRm : bool;
  Signature_ : Signature;
  ExtendedProvider_ : ExtendedProvider;
}.

(** [ep.Info] and [ep.NewInfo(peerID, priv, metadata, addrs)]. *)
Record Info : Type := NewInfo {
  ID : peer_ID;
  Priv : PrivKey;
  Info_Metadata : list byte;
  Addrs : list Multiaddr;
}.

Record AdBuilder : Type := {
  providerID : peer_ID;
  privKey : PrivKey;
  addrs : list Multiaddr;
  providers : list Info;
  override : bool;
  contextID : list byte;
  metadata : list byte;
}.

Definition NewAdBuilder (providerID : peer_ID) (privKey : PrivKey) (addrs : list Multiaddr)
    : AdBuilder :=
  {| providerID := providerID; privKey := privKey; addrs := addrs;
     providers := []; override := false; contextID := []; metadata := [] |}.

Definition WithExtendedProviders (eps : list Info) (b : AdBuilder) : AdBuilder :=
  {| providerID := providerID b; privKey := privKey b; addrs := addrs b;
     providers := (providers b ++ eps)%list; override := override b;
     contextID := contextID b; metadata := metadata b |}.

Definition WithOverride (o : bool) (b : AdBuilder) : AdBuilder :=
  {| providerID := providerID b; privKey := privKey b; addrs := addrs b;
     providers := providers b; override := o;
     contextID := contextID b; metadata := metadata b |}.

Definition WithContextID (c : list byte) (b : AdBuilder) : AdBuilder :=
  {| providerID := providerID b; privKey := privKey b; addrs := addrs b;
     providers := providers b; override := override b;
     contextID := c; metadata := metadata b |}.

Definition WithMetadata (m : list byte) (b : AdBuilder) : AdBuilder :=
  {| providerID := providerID b; privKey := privKey b; addrs := addrs b;
     providers := providers b; override := override b;
     contextID := contextID b; metadata := m |}.

Definition has_ID (id : peer_ID) (l : list Info) : bool :=
  List.existsb (fun i => String.eqb (ID i) id) l.

(** The supplied list without the later entries of an identity already
    seen. *)
Fixpoint dedup_by_ID (seen : list peer_ID) (l : list Info) : list Info :=
  match l with
  | [] => []
  | i :: rest =>
      if List.existsb (String.eqb (ID i)) seen then dedup_by_ID seen rest
      else i :: dedup_by_ID (ID i :: seen) rest
  end.

Definition unsigned_fields (p : Provider) : peer_ID * list Multiaddr * list byte :=
  (Provider_ID p, Provider_Addresses p, Provider_Metadata p).

Definition fields_of (a : Advertisement) : signed :=
  advertisement_fields (PreviousID a) (Provider_ a) (Addresses a) (Entries a) (ContextID a)
    (Metadata a) (IsRm a) (Override (ExtendedProvider_ a))
    (List.map unsigned_fields (Providers (ExtendedProvider_ a))).

(** Modelled from the spec: [VerifySignature] gives the signer, when the
    signature is over the advertisement's own fields. *)
Definition VerifySignature (a : Advertisement) : error + peer_ID :=
  if bool_decide (over (Signature_ a) = fields_of a) then inr (signer (Signature_ a))
  else inl (errors_New "invalid signature").

Section Builder.

(** Whether a string parses as a peer identity ([peer.Decode]). *)
Variable peer_Decode : string -> bool.

(** Step 2: an entry without addresses, then an entry whose identity does
    not parse. *)
Fixpoint validate (l : list Info) : option error :=
  match l with
  | [] => None
  | i :: rest =>
      match Addrs i with
      | [] => Some (errors_New "addresses of an extended provider can not be empty")
      | _ =>
          if peer_Decode (ID i) then validate rest
          else Some (errors_New "invalid extended provider peer id")
      end
  end.

Definition entry (contextID : list byte) (i : Info) : Provider :=
  {| Provider_ID := ID i;
     Provider_Addresses := Addrs i;
     Provider_Metadata := Info_Metadata i;
     Provider_Signature := sign (Priv i) (provider_fields (ID i) contextID (Info_Metadata i)) |}.

(** Modelled from the spec: the body of [BuildAndSign], which is declared
    in [engine/xproviders/xproviders.go], not among the sources.  These are
    the steps of the specification's build algorithm, but for the condition
    under which the main provider gets an entry of its own (step 4), which
    is the parameter [adds_main]. *)
Definition build (adds_main : AdBuilder -> list Info -> bool) (b : AdBuilder)
    : error + Advertisement :=
  if override b && Nat.eqb (List.length (contextID b)) 0 then
    inl (errors_New "override is true for empty context")
  else
    match validate (providers b) with
    | Some e => inl e
    | None =>
        let eps := dedup_by_ID [] (providers b) in
        let eps :=
          if adds_main b eps
          then (eps ++ [NewInfo (providerID b) (privKey b) (metadata b) (addrs b)])%list
          else eps in
        let xp := {| Providers := List.map (entry (contextID b)) eps; Override := override b |} in
        let what :=
          advertisement_fields None (providerID b) (addrs b) NoEntries (contextID b)
            (metadata b) false (override b) (List.map unsigned_fields (Providers xp)) in
        inr {| PreviousID := None;
               Provider_ := providerID b;
               Addresses := addrs b;
               Entries := NoEntries;
               ContextID := contextID b;
               Metadata := metadata b;
               IsRm := false;
               Signature_ := sign (privKey b) what;
               ExtendedProvider_ := xp |}
    end.

(** Modelled from the spec: step 4 of the build algorithm, in the
    specification's words: without the override, the main provider gets an
    entry of its own unless one was supplied; with the override, never. *)
Definition adds_main (b : AdBuilder) (eps : list Info) : bool :=
  negb (override b) && negb (has_ID (providerID b) eps).

(** Modelled from the spec: [BuildAndSign] is declared in
    [engine/xproviders/xproviders.go], which is not among the sources.  The
    steps are those of the specification's build algorithm: (1) an override
    needs a context; (2) every supplied entry has addresses and an identity
    that parses; (3) the list is deduplicated by identity, first occurrence
    kept; (4) without the override, the main provider's own entry is
    appended last unless one was supplied; (5) every entry is signed over
    its identity, the context and its metadata with its own key, the main
    provider's entry with the main key; (6) the advertisement is assembled
    and signed. *)
Definition BuildAndSign : AdBuilder -> error + Advertisement :=
  build adds_main.

End Builder.

End xproviders.

(** ** [engine/xproviders/xproviders_test.go]

    Each test is the conjunction of its [require] lines, for a builder
    under test and for what the random helpers of the test gave.  The
    lines about the engine ([engine.New], [Start], [Publish]) are left out:
    the engine is not among the sources. *)
Module xproviders_test.

Import xproviders.

Section Tests.

(** The builder under test. *)
Variable BuildAndSign : AdBuilder -> error + Advertisement.

(** [test.RandomIdentity()], [test.RandomMultiaddrs(2)] and the two calls
    of [randomExtendedProvider()]. *)
Variable providerID : peer_ID.
Variable priv : PrivKey.
Variable addrs : list Multiaddr.
Variable ep1 ep2 : Info.

Definition test_context : list byte := bytes_of_string "test-context".
Definition thisismeta : list byte := bytes_of_string "thisismeta".

Definition checked_provider (p : Provider) : bool :=
  if String.eqb (Provider_ID p) (ID ep1) then
    bool_decide (Addrs ep1 = Provider_Addresses p)
    && bool_decide (Info_Metadata ep1 = Provider_Metadata p)
  else if String.eqb (Provider_ID p) (ID ep2) then
    bool_decide (Addrs ep2 = Provider_Addresses p)
    && bool_decide (Info_Metadata ep2 = Provider_Metadata p)
  else if String.eqb (Provider_ID p) providerID then
    bool_decide (addrs = Provider_Addresses p)
    && bool_decide (thisismeta = Provider_Metadata p)
  else false (* panic("unknown provider") *).

(** The lines the three publishing tests share, from [VerifySignature] to
    the check of the override. *)
Definition checked_advertisement (adv : Advertisement) (override : bool) : bool :=
  match VerifySignature adv with
  | inl _ => false
  | inr advPeerID =>
      String.eqb providerID advPeerID
      && bool_decide (addrs = Addresses adv)
      && bool_decide (test_context = ContextID adv)
      && bool_decide (NoEntries = Entries adv)
      && Bool.eqb false (IsRm adv)
      && bool_decide (thisismeta = Metadata adv)
      && String.eqb providerID (Provider_ adv)
      && Bool.eqb override (Override (ExtendedProvider_ adv))
  end.

Definition TestPublish : bool :=
  let eps := [ep1; ep2] in
  let override := true in
  match BuildAndSign
          (WithMetadata thisismeta (WithContextID test_context (WithOverride true
            (WithExtendedProviders eps (NewAdBuilder providerID priv addrs))))) with
  | inl _ => false
  | inr adv =>
      checked_advertisement adv override
      && Nat.eqb 3 (List.length (Providers (ExtendedProvider_ adv)))
      && List.forallb checked_provider (Providers (ExtendedProvider_ adv))
  end.

Definition TestMainProviderShouldNotBeAddedAsExtendedIfItsAlreadyOnTheList : bool :=
  let override := true in
  match BuildAndSign
          (WithMetadata thisismeta (WithContextID test_context (WithOverride true
            (WithExtendedProviders [NewInfo providerID priv thisismeta addrs]
              (NewAdBuilder providerID priv addrs))))) with
  | inl _ => false
  | inr adv =>
      checked_advertisement adv override
      && Nat.eqb 1 (List.length (Providers (ExtendedProvider_ adv)))
      && match Providers (ExtendedProvider_ adv) with
         | ep :: _ =>
             bool_decide (addrs = Provider_Addresses ep)
             && bool_decide (thisismeta = Provider_Metadata ep)
             && String.eqb providerID (Provider_ID ep)
         | [] => false
         end
  end.

Definition is_error {A : Type} (r : error + A) : bool :=
  match r with inl _ => true | inr _ => false end.

Definition TestExtendedProvidersShouldNotAllowEmptyAddresses : bool :=
  is_error (BuildAndSign
    (WithMetadata thisismeta (WithContextID test_context (WithOverride true
      (WithExtendedProviders [NewInfo providerID priv thisismeta []]
        (NewAdBuilder providerID priv addrs)))))).

Definition TestExtendedProvidersShouldAllowEmptyMetadata : bool :=
  negb (is_error (BuildAndSign
    (WithMetadata thisismeta (WithContextID test_context (WithOverride true
      (WithExtendedProviders [NewInfo providerID priv [] addrs]
        (NewAdBuilder providerID priv addrs))))))).

Definition TestExtendedProvidersShouldNotAllowInvalidPeerIDs : bool :=
  is_error (BuildAndSign
    (WithMetadata thisismeta (WithContextID test_context (WithOverride true
      (WithExtendedProviders [NewInfo "invalid" priv [] addrs]
        (NewAdBuilder providerID priv addrs)))))).

Definition TestZeroExtendedProvidersShouldStillCreateExtendedProvidersField : bool :=
  match BuildAndSign
          (WithMetadata thisismeta (WithContextID test_context (WithOverride true
            (NewAdBuilder providerID priv addrs)))) with
  | inl _ => false
  | inr ad => Nat.eqb (List.length (Providers (ExtendedProvider_ ad))) 0
  end.

Definition TestMainProviderShouldNotBeAddedAsExtendedIfThereAreNoOthers : bool :=
  let override := true in
  match BuildAndSign
          (WithMetadata thisismeta (WithContextID test_context (WithOverride true
            (NewAdBuilder providerID priv addrs)))) with
  | inl _ => false
  | inr adv =>
      checked_advertisement adv override
      && Nat.eqb 0 (List.length (Providers (ExtendedProvider_ adv)))
  end.

Definition TestPublishFailsIfOverrideIsTrueWithNoContextId : bool :=
  is_error (BuildAndSign
    (WithMetadata thisismeta (WithOverride true
      (WithExtendedProviders [ep1; ep2] (NewAdBuilder providerID priv addrs))))).

Definition all_tests : list bool :=
  [ TestPublish;
    TestMainProviderShouldNotBeAddedAsExtendedIfItsAlreadyOnTheList;
    TestExtendedProvidersShouldNotAllowEmptyAddresses;
    TestExtendedProvidersShouldAllowEmptyMetadata;
    TestExtendedProvidersShouldNotAllowInvalidPeerIDs;
    TestZeroExtendedProvidersShouldStillCreateExtendedProvidersField;
    TestMainProviderShouldNotBeAddedAsExtendedIfThereAreNoOthers;
    TestPublishFailsIfOverrideIsTrueWithNoContextId ].

End Tests.

(** One run of the tests' random helpers: three identities (an Ed25519
    peer ID is the base58 string of an identity multihash, which starts
    [12D3KooW]) and their addresses. *)
Definition sample_Decode (s : string) : bool := String.prefix "12D3KooW" s.

Definition sample_providerID : peer_ID := "12D3KooWMainProvider".
Definition sample_priv : PrivKey := {| identity := sample_providerID |}.
Definition sample_addrs : list Multiaddr := ["/ip4/10.0.0.1/tcp/4001"; "/ip4/10.0.0.2/tcp/4001"].

(** [randomExtendedProvider()]. *)
Definition randomExtendedProvider (id : peer_ID) (addrs : list Multiaddr) : Info :=
  NewInfo id {| identity := id |} (bytes_of_string "thisismeta") addrs.

Definition sample_ep1 : Info :=
  randomExtendedProvider "12D3KooWExtendedOne" ["/ip4/10.0.1.1/tcp/4001"; "/ip4/10.0.1.2/tcp/4001"].
Definition sample_ep2 : Info :=
  randomExtendedProvider "12D3KooWExtendedTwo" ["/ip4/10.0.2.1/tcp/4001"; "/ip4/10.0.2.2/tcp/4001"].

(** The builder of [TestPublish] for that run. *)
Definition TestPublish_builder : AdBuilder :=
  WithMetadata thisismeta (WithContextID test_context (WithOverride true
    (WithExtendedProviders [sample_ep1; sample_ep2]
      (NewAdBuilder sample_providerID sample_priv sample_addrs)))).

(** The builder of
    [TestMainProviderShouldNotBeAddedAsExtendedIfThereAreNoOthers]. *)
Definition NoOthers_builder : AdBuilder :=
  WithMetadata thisismeta (WithContextID test_context (WithOverride true
    (NewAdBuilder sample_providerID sample_priv sample_addrs))).

(** A builder with the override and one supplied provider, which is not
    the main provider: a case none of the tests has. *)
Definition OneOther_builder : AdBuilder :=
  WithMetadata thisismeta (WithContextID test_context (WithOverride true
    (WithExtendedProviders [sample_ep1]
      (NewAdBuilder sample_providerID sample_priv sample_addrs)))).

(** The identities of the list a build gave. *)
Definition built_IDs (r : error + Advertisement) : list peer_ID :=
  match r with
  | inr adv => List.map Provider_ID (Providers (ExtendedProvider_ adv))
  | inl _ => []
  end.

(** Two conditions for step 4 to run the tests with: with the override,
    the main provider gets its entry when a provider was supplied and it is
    not among the supplied ones; or only when two were. *)
Definition main_when_others (b : AdBuilder) (eps : list Info) : bool :=
  (negb (override b) || negb (Nat.eqb (List.length eps) 0))
  && negb (has_ID (providerID b) eps).

Definition main_when_two_others (b : AdBuilder) (eps : list Info) : bool :=
  (negb (override b) || Nat.leb 2 (List.length eps))
  && negb (has_ID (providerID b) eps).
End xproviders_test.

(** The builder of the specification fails [TestPublish]: the test
    requires three entries and finds the two that were supplied.  It passes
    the other tests. *)
Example BuildAndSign_fails_TestPublish :
  xproviders_test.all_tests (xproviders.BuildAndSign xproviders_test.sample_Decode)
    xproviders_test.sample_providerID xproviders_test.sample_priv xproviders_test.sample_addrs
    xproviders_test.sample_ep1 xproviders_test.sample_ep2
  = [false; true; true; true; true; true; true; true].
Proof. vm_compute. reflexivity. Qed.

(** The tests do not settle step 4.  With either of the two conditions
    the builder passes the eight tests; with one supplied provider, which no
    test has, the two builders give different lists. *)
Example tests_leave_step_4_open :
  xproviders_test.all_tests
    (xproviders.build xproviders_test.sample_Decode xproviders_test.main_when_others)
    xproviders_test.sample_providerID xproviders_test.sample_priv xproviders_test.sample_addrs
    xproviders_test.sample_ep1 xproviders_test.sample_ep2
  = [true; true; true; true; true; true; true; true]
  /\ xproviders_test.all_tests
       (xproviders.build xproviders_test.sample_Decode xproviders_test.main_when_two_others)
       xproviders_test.sample_providerID xproviders_test.sample_priv
       xproviders_test.sample_addrs xproviders_test.sample_ep1 xproviders_test.sample_ep2
     = [true; true; true; true; true; true; true; true]
  /\ xproviders_test.built_IDs
       (xproviders.build xproviders_test.sample_Decode xproviders_test.main_when_others
          xproviders_test.OneOther_builder)
     = ["12D3KooWExtendedOne"; "12D3KooWMainProvider"]
  /\ xproviders_test.built_IDs
       (xproviders.build xproviders_test.sample_Decode xproviders_test.main_when_two_others
          xproviders_test.OneOther_builder)
     = ["12D3KooWExtendedOne"].
Proof. repeat apply conj; vm_compute; reflexivity. Qed.

(** * The builder and the override

    What the tests of the package say of any builder that passes them,
    whatever its code is. *)
Module xproviders_facts.

Import xproviders xproviders_test.





Section AnyBuilder.

(** The builder under test, and what the random helpers gave. *)
Variable BuildAndSign : AdBuilder -> error + Advertisement.
Variable providerID : peer_ID.
Variable priv : PrivKey.
Variable addrs : list Multiaddr.
Variable ep1 ep2 : Info.





End AnyBuilder.





End xproviders_facts.




(** * The adapter *)
Module adapter_facts.

Import channel suppliers.

Section Facts.

Context {C : Cids}.

(** The goroutine in front of [ci.Next()], both channels open and empty. *)
Definition at_loop_top (ci : CidIterator) : stream :=
  Stream (Some (make Cid 1)) (Some (make error 1)) (Some (Goroutine ci AtNext)).

Lemma toChan_at_loop_top (ci : CidIterator) : toChan ci = at_loop_top ci.
Proof. reflexivity. Qed.

(** Room for one more value in an open channel. *)
Definition has_room {A : Type} (c : chan A) : Prop :=
  closed c = false /\ (List.length (buf c) < cap c)%nat.

Lemma send_has_room {A : Type} (c : chan A) (v : A) :
  has_room c -> send c v = Sent (Chan (cap c) (buf c ++ [v]) false).
Proof.
  intros [Hopen Hroom]. unfold send. rewrite Hopen.
  apply Nat.ltb_lt in Hroom. now rewrite Hroom.
Qed.

(** Wherever the loop stands in front of [ci.Next()] with room in both
    channels: after an error that is not the end of the sequence it sends
    the error, then sends the value [Next] returned with it, and is back in
    front of [ci.Next()].  Neither channel is closed. *)
Lemma loop_after_error_with_room (cc : chan Cid) (ec : chan error)
    (c : Cid) (e : error) (rest : CidIterator) :
  error_eqb e io_EOF = false ->
  has_room cc -> has_room ec ->
  run (Stream (Some cc) (Some ec) (Some (Goroutine ((c, Some e) :: rest) AtNext)))
      [Work; Work; Work] =
    (Stream (Some (Chan (cap cc) (buf cc ++ [c]) false))
            (Some (Chan (cap ec) (buf ec ++ [e]) false))
            (Some (Goroutine rest AtNext)),
     [CalledNext; SentErr e; SentCid c]).
Proof.
  intros He Hcc Hec.
  cbn [run act worker_step worker at_ ci Next errChan cidChan].
  rewrite He. cbn [worker_step worker at_ ci errChan cidChan].
  rewrite (send_has_room ec e Hec).
  cbn [worker_step worker at_ ci errChan cidChan].
  rewrite (send_has_room cc c Hcc). reflexivity.
Qed.

Lemma loop_after_error (c : Cid) (e : error) (rest : CidIterator) :
  error_eqb e io_EOF = false ->
  run (at_loop_top ((c, Some e) :: rest)) [Work; Work; Work] =
    (Stream (Some (Chan 1 [c] false)) (Some (Chan 1 [e] false)) (Some (Goroutine rest AtNext)),
     [CalledNext; SentErr e; SentCid c]).
Proof.
  intros He. unfold at_loop_top.
  rewrite loop_after_error_with_room; [reflexivity | exact He | |];
    split; [reflexivity | cbn; lia | reflexivity | cbn; lia].
Qed.

(** A run saw a value received from the value channel. *)
Definition received_cid (e : event) : bool :=
  match e with
  | GotCid _ | SawCidClosed => true
  | _ => false
  end.

(** No goroutine and a nil value channel: whatever is tried, nothing is
    ever received from the value channel, and it stays nil. *)
Lemma nil_cidChan_blocks (acts : list action) : forall s : stream,
  cidChan s = None -> worker s = None ->
  cidChan (fst (run s acts)) = None
  /\ worker (fst (run s acts)) = None
  /\ List.existsb received_cid (snd (run s acts)) = false.
Proof.
  induction acts as [|a acts IH]; intros s Hc Hw; simpl.
  - auto.
  - assert (Hact : cidChan (fst (act s a)) = None /\ worker (fst (act s a)) = None
                   /\ received_cid (snd (act s a)) = false).
    { destruct a; unfold act, worker_step; rewrite ?Hw, ?Hc; simpl; auto.
      destruct (recv (errChan s)); simpl; auto. }
    destruct (act s a) as [s' e]. simpl in Hact. destruct Hact as (Hc' & Hw' & He).
    specialize (IH s' Hc' Hw'). destruct (run s' acts) as [s'' es]. simpl in *.
    rewrite He. auto.
Qed.

End Facts.

(** A stand-in for [go-cid] in the examples: a CID is the bytes of its
    multihash, the empty one is [cid.Undef], and its string is the hex of
    its bytes. *)
#[export] Instance sample_Cids : Cids := {|
  Cid := list byte;
  cid_Undef := [];
  cid_NewCidV1 := fun _ mh => mh;
  cid_Hash := fun c => c;
  cid_Bytes := fun c => c;
  cid_String := fun c => hex.EncodeToString c;
  cid_CidFromBytes := fun b =>
    match b with
    | [] => inl (errors_New "invalid cid: cid too short")
    | _ => inr (List.length b, b)
    end;
|}.

(** An iterator whose first [Next] fails, whose second gives a CID, and
    which then ends. *)
Definition sample_cid : @Cid sample_Cids := cid_NewCidV1 multicodec.DagCbor
  (multihash.Encode (sha256.Sum256 []) multihash.SHA2_256).

Definition boom : error := errors_New "boom".

Definition failing_iterator : @CidIterator sample_Cids :=
  [(cid_Undef, Some boom); (sample_cid, None)].

(** No value is sent after an error was sent. *)
Fixpoint quiet_after_error (sent_error : bool) (es : list event) : bool :=
  match es with
  | [] => true
  | SentErr _ :: rest => quiet_after_error true rest
  | SentCid _ :: rest => negb sent_error && quiet_after_error sent_error rest
  | _ :: rest => quiet_after_error sent_error rest
  end.

End adapter_facts.

(** When [Next] returns an error that is not [io.EOF], the goroutine of
    [toChan] sends the error, then sends the value that came with the error
    on the value channel, and goes back to calling [Next]: it does not
    close the channels there. *)
Lemma toChan_goes_on_after_error `{Cids}
    (c : Cid) (e : error) (rest : suppliers.CidIterator) :
  error_eqb e io_EOF = false ->
  suppliers.run (suppliers.toChan ((c, Some e) :: rest))
    [suppliers.Work; suppliers.Work; suppliers.Work] =
    (suppliers.Stream (Some (channel.Chan 1 [c] false)) (Some (channel.Chan 1 [e] false))
       (Some (suppliers.Goroutine rest suppliers.AtNext)),
     [suppliers.CalledNext; suppliers.SentErr e; suppliers.SentCid c]).
Proof.
  intros He. rewrite adapter_facts.toChan_at_loop_top.
  now apply adapter_facts.loop_after_error.
Qed.

(** C2, at the failing input: a full run of [toChan] over
    [failing_iterator] with a reader that takes what is sent.  The error is
    followed by two values on the value channel, [cid.Undef] and the CID of
    the second [Next], and the channels are closed only at the end of the
    sequence, where the specification has them closed right after the
    error, with no value after it. *)
Theorem C2_toChan_failing_run :
  let acts := [suppliers.Work; suppliers.Work; suppliers.Work;
               suppliers.RecvErr; suppliers.RecvCid;
               suppliers.Work; suppliers.Work; suppliers.RecvCid;
               suppliers.Work; suppliers.Work;
               suppliers.RecvCid; suppliers.RecvErr] in
  let events := snd (suppliers.run (suppliers.toChan adapter_facts.failing_iterator) acts) in
  events =
    [suppliers.CalledNext; suppliers.SentErr adapter_facts.boom;
     suppliers.SentCid (cid_Undef (Cids := adapter_facts.sample_Cids));
     suppliers.GotErr adapter_facts.boom; suppliers.GotCid cid_Undef;
     suppliers.CalledNext; suppliers.SentCid adapter_facts.sample_cid;
     suppliers.GotCid adapter_facts.sample_cid;
     suppliers.CalledNext; suppliers.ClosedBoth;
     suppliers.SawCidClosed; suppliers.SawErrClosed]
  /\ adapter_facts.quiet_after_error false events = false.
Proof. split; reflexivity. Qed.

(** C10.  When [Supply] fails, [ToCidCallback] returns; the value channel
    it returns is nil, the error channel has capacity one, holds the error
    of [Supply] and nothing else, and is closed; no goroutine was started.
    Nothing is ever received from the value channel, and the error channel
    gives the error and then reports that it is closed. *)
Theorem C10_ToCidCallback_on_Supply_error `{Cids} (LookupKey : Type)
    (cidIterSup : LookupKey -> error + suppliers.CidIterator) (key : LookupKey) (err : error) :
  cidIterSup key = inl err ->
  exists s : suppliers.stream,
    suppliers.ToCidCallback cidIterSup key = Some s
    /\ suppliers.cidChan s = None
    /\ suppliers.errChan s = Some (channel.Chan 1 [err] true)
    /\ suppliers.worker s = None
    /\ channel.recv (suppliers.cidChan s) = channel.RecvBlocks
    /\ (forall acts : list suppliers.action,
          List.existsb adapter_facts.received_cid (snd (suppliers.run s acts)) = false)
    /\ snd (suppliers.run s [suppliers.RecvErr; suppliers.RecvErr])
       = [suppliers.GotErr err; suppliers.SawErrClosed].
Proof.
  intros Hsup. eexists. unfold suppliers.ToCidCallback. rewrite Hsup. simpl.
  split; [reflexivity |]. repeat split.
  intros acts.
  now apply (adapter_facts.nil_cidChan_blocks acts
               (suppliers.Stream None (Some (channel.Chan 1 [err] true)) None)).
Qed.

(** C10, witness: a supplier that knows no key. *)
Lemma C10_ToCidCallback_on_Supply_error_witness :
  exists s : suppliers.stream,
    suppliers.ToCidCallback (C := adapter_facts.sample_Cids)
      (fun _ : list byte => inl suppliers_ErrNotFound) adapter_facts.sample_cid = Some s
    /\ suppliers.cidChan s = None
    /\ suppliers.errChan s = Some (channel.Chan 1 [suppliers_ErrNotFound] true)
    /\ suppliers.worker s = None.
Proof.
  destruct (C10_ToCidCallback_on_Supply_error (H := adapter_facts.sample_Cids) (list byte)
              (fun _ => inl suppliers_ErrNotFound) adapter_facts.sample_cid
              suppliers_ErrNotFound eq_refl) as (s & Hs & Hc & He & Hw & _).
  exists s. auto.
Defined.

(** * [Clean] is idempotent

    [Put] cleans its path and hands it to [PutWithID], which cleans it
    again; [Remove] cleans once.  They meet on the same record because a
    cleaned path is left alone by [Clean]. *)
Module GoPath_facts.

Import GoPath.

Fixpoint has_slash (s : string) : bool :=
  match s with
  | EmptyString => false
  | String c s' => Ascii.eqb c "/" || has_slash s'
  end.

(** An element [Clean] keeps as it is: not empty, not a dot, not two dots,
    and without a slash. *)
Definition is_real (e : string) : bool :=
  negb (String.eqb e "") && negb (String.eqb e ".") && negb (String.eqb e "..")
  && negb (has_slash e).

(** The output of [Clean] while it is written, last element first: real
    elements, above two-dots elements only, and those only when the path is
    not rooted. *)
Fixpoint ok_stack (rooted : bool) (out : list string) : bool :=
  match out with
  | [] => true
  | top :: rest =>
      if String.eqb top ".." then negb rooted && List.forallb (String.eqb "..") rest
      else is_real top && ok_stack rooted rest
  end.

Lemma append_cons (c : ascii) (a b : string) : (String c a ++ b = String c (a ++ b))%string.
Proof. reflexivity. Qed.

Lemma append_nil_l (b : string) : ("" ++ b = b)%string.
Proof. reflexivity. Qed.

Lemma append_nil_r (a : string) : (a ++ "" = a)%string.
Proof. induction a as [|x a IH]; [reflexivity | now rewrite append_cons, IH]. Qed.

Lemma append_assoc (a b c : string) : ((a ++ b) ++ c = a ++ (b ++ c))%string.
Proof.
  induction a as [|x a IH]; [reflexivity |].
  now rewrite !append_cons, IH.
Qed.

Lemma has_slash_app (a b : string) :
  has_slash (a ++ b) = has_slash a || has_slash b.
Proof.
  induction a as [|x a IH]; [reflexivity |].
  rewrite append_cons. simpl. rewrite IH. now rewrite Bool.orb_assoc.
Qed.

Lemma elements_from_no_slash (s : string) : forall cur : string,
  has_slash cur = false ->
  Forall (fun e => has_slash e = false) (elements_from cur s).
Proof.
  induction s as [|c s IH]; intros cur Hcur; simpl.
  - constructor; [exact Hcur | constructor].
  - destruct (Ascii.eqb c "/") eqn:Hc.
    + constructor; [exact Hcur | now apply IH].
    + apply IH. rewrite has_slash_app, Hcur. simpl. now rewrite Hc.
Qed.

Lemma elements_from_app (e : string) : forall cur s : string,
  has_slash e = false ->
  elements_from cur (e ++ s) = elements_from (cur ++ e) s.
Proof.
  induction e as [|c e IH]; intros cur s He.
  - now rewrite append_nil_l, append_nil_r.
  - simpl in He. apply Bool.orb_false_iff in He. destruct He as [Hc He].
    rewrite append_cons. simpl. rewrite Hc, IH by exact He.
    now rewrite append_assoc, append_cons, append_nil_l.
Qed.

Lemma elements_from_join (l : list string) : forall (e cur : string),
  Forall (fun x => has_slash x = false) (e :: l) ->
  elements_from cur (join_slash (e :: l)) = (cur ++ e)%string :: l.
Proof.
  induction l as [|x l IH]; intros e cur Hall.
  - inversion Hall as [|? ? He _]; subst.
    change (join_slash [e]) with e.
    rewrite <- (append_nil_r e) at 1.
    rewrite elements_from_app by exact He. reflexivity.
  - inversion Hall as [|? ? He Hrest]; subst.
    change (join_slash (e :: x :: l)) with (e ++ String "/" (join_slash (x :: l)))%string.
    rewrite elements_from_app by exact He. simpl.
    f_equal. now rewrite IH.
Qed.

Lemma all_dotdot_ok (l : list string) :
  List.forallb (String.eqb "..") l = true -> ok_stack false l = true.
Proof.
  induction l as [|x l IH]; [reflexivity |].
  cbn [List.forallb ok_stack].
  intros H. apply Bool.andb_true_iff in H. destruct H as [Hx Hl].
  apply String.eqb_eq in Hx. subst x. rewrite String.eqb_refl. exact Hl.
Qed.

Lemma ok_stack_suffix (rooted : bool) (a b : list string) :
  ok_stack rooted (a ++ b) = true -> ok_stack rooted b = true.
Proof.
  induction a as [|x a IH]; [auto |].
  rewrite <- List.app_comm_cons. cbn [ok_stack].
  destruct (String.eqb x "..").
  - intros H. apply Bool.andb_true_iff in H. destruct H as [Hr Hall].
    destruct rooted; [discriminate |].
    rewrite List.forallb_app in Hall. apply Bool.andb_true_iff in Hall.
    now apply all_dotdot_ok.
  - intros H. apply Bool.andb_true_iff in H. now apply IH.
Qed.

Lemma is_real_spec (e : string) :
  is_real e = true ->
  String.eqb e "" = false /\ String.eqb e "." = false /\ String.eqb e ".." = false
  /\ has_slash e = false.
Proof.
  unfold is_real. rewrite !Bool.andb_true_iff, !Bool.negb_true_iff. tauto.
Qed.

(** [clean_element] keeps the stack well formed. *)
Lemma clean_element_ok (rooted : bool) (out : list string) (e : string) :
  has_slash e = false ->
  ok_stack rooted out = true ->
  ok_stack rooted (clean_element rooted out e) = true.
Proof.
  intros He Hok. unfold clean_element.
  destruct (String.eqb e "") eqn:E0; [exact Hok |].
  destruct (String.eqb e ".") eqn:E1; [exact Hok |].
  destruct (String.eqb e "..") eqn:E2.
  - apply String.eqb_eq in E2. subst e.
    destruct out as [|top rest].
    + destruct rooted; reflexivity.
    + cbn [ok_stack] in Hok.
      destruct (String.eqb top "..") eqn:Et.
      * cbn [ok_stack List.forallb]. rewrite String.eqb_refl.
        apply Bool.andb_true_iff in Hok. destruct Hok as [Hr Hall].
        rewrite Hr. apply String.eqb_eq in Et. subst top.
        rewrite String.eqb_refl. exact Hall.
      * apply Bool.andb_true_iff in Hok. tauto.
  - cbn [ok_stack]. rewrite E2. unfold is_real. rewrite E0, E1, E2, He, Hok. reflexivity.
Qed.

Lemma fold_clean_ok (rooted : bool) (l : list string) : forall out : list string,
  Forall (fun e => has_slash e = false) l ->
  ok_stack rooted out = true ->
  ok_stack rooted (List.fold_left (clean_element rooted) l out) = true.
Proof.
  induction l as [|e l IH]; intros out Hall Hok; cbn [List.fold_left]; [exact Hok |].
  inversion Hall; subst. apply IH; [assumption |]. now apply clean_element_ok.
Qed.

(** On a well-formed stack read from its bottom, [clean_element] only
    pushes. *)
Lemma fold_clean_pushes (rooted : bool) (l : list string) : forall acc : list string,
  ok_stack rooted (List.rev l ++ acc) = true ->
  List.fold_left (clean_element rooted) l acc = (List.rev l ++ acc)%list.
Proof.
  induction l as [|e l IH]; intros acc Hok; [reflexivity |].
  cbn [List.fold_left List.rev] in *.
  rewrite <- List.app_assoc in Hok. cbn [List.app] in Hok.
  assert (He : clean_element rooted acc e = e :: acc).
  { apply ok_stack_suffix in Hok. cbn [ok_stack] in Hok. unfold clean_element.
    destruct (String.eqb e "..") eqn:E2.
    - apply String.eqb_eq in E2. subst e.
      change (String.eqb ".." "") with false. change (String.eqb ".." ".") with false.
      cbv iota.
      apply Bool.andb_true_iff in Hok. destruct Hok as [Hr Hall].
      destruct acc as [|top rest].
      + destruct rooted; [discriminate | reflexivity].
      + cbn [List.forallb] in Hall. apply Bool.andb_true_iff in Hall. destruct Hall as [Ht _].
        rewrite String.eqb_sym in Ht. now rewrite Ht.
    - apply Bool.andb_true_iff in Hok. destruct Hok as [Hreal _].
      apply is_real_spec in Hreal. destruct Hreal as (E0 & E1 & _ & _).
      now rewrite E0, E1. }
  rewrite He, IH by exact Hok. rewrite <- List.app_assoc. reflexivity.
Qed.

Lemma ok_stack_elements (rooted : bool) (out : list string) :
  ok_stack rooted out = true ->
  Forall (fun e => has_slash e = false /\ String.eqb e "" = false) out.
Proof.
  induction out as [|top rest IH]; [constructor |].
  cbn [ok_stack].
  destruct (String.eqb top "..") eqn:Et.
  - intros H. apply Bool.andb_true_iff in H. destruct H as [Hr Hall].
    destruct rooted; [discriminate |].
    apply String.eqb_eq in Et. subst top.
    constructor; [split; reflexivity |]. apply IH. now apply all_dotdot_ok.
  - intros H. apply Bool.andb_true_iff in H. destruct H as [Hreal Hrest].
    apply is_real_spec in Hreal. constructor; [tauto | now apply IH].
Qed.

Lemma fold_clean_rev (rooted : bool) (l : list string) :
  ok_stack rooted (List.rev l) = true ->
  List.rev (List.fold_left (clean_element rooted) l []) = l.
Proof.
  intros Hok. rewrite fold_clean_pushes by now rewrite List.app_nil_r.
  now rewrite List.app_nil_r, List.rev_involutive.
Qed.

(** A rooted path as [Clean] writes it is left alone. *)
Lemma Clean_rooted_fixed (l : list string) :
  ok_stack true (List.rev l) = true ->
  Forall (fun e => has_slash e = false) l ->
  Clean (String "/" (join_slash l)) = String "/" (join_slash l).
Proof.
  intros Hok Hns. unfold Clean.
  change (String.eqb (String "/" (join_slash l)) "") with false.
  change (is_rooted (String "/" (join_slash l))) with true.
  change (elements (String "/" (join_slash l)))
    with ("" :: elements_from "" (join_slash l)).
  cbn [List.fold_left]. change (clean_element true [] "") with (@nil string).
  cbv iota. rewrite append_cons, append_nil_l. f_equal.
  destruct l as [|e l]; [reflexivity |].
  rewrite elements_from_join by exact Hns. rewrite append_nil_l.
  now rewrite fold_clean_rev.
Qed.

(** A path that is not rooted, as [Clean] writes it, is left alone. *)
Lemma Clean_unrooted_fixed (e : string) (l : list string) :
  ok_stack false (List.rev (e :: l)) = true ->
  Forall (fun x => has_slash x = false /\ String.eqb x "" = false) (e :: l) ->
  Clean (join_slash (e :: l)) = join_slash (e :: l).
Proof.
  intros Hok Hall.
  assert (Hns : Forall (fun x => has_slash x = false) (e :: l)).
  { eapply List.Forall_impl; [| exact Hall]. simpl. tauto. }
  inversion Hall as [|? ? [Hes Hee] _]; subst.
  assert (Hj : exists c s, join_slash (e :: l) = String c s /\ Ascii.eqb c "/" = false).
  { destruct e as [|c e']; [discriminate |].
    cbn [has_slash] in Hes. apply Bool.orb_false_iff in Hes. destruct Hes as [Hc _].
    destruct l as [|x l].
    - exists c, e'. split; [reflexivity | exact Hc].
    - exists c, (e' ++ String "/" (join_slash (x :: l)))%string.
      split; [reflexivity | exact Hc]. }
  destruct Hj as (c & s & Hj & Hc).
  unfold Clean. rewrite Hj.
  change (String.eqb (String c s) "") with false.
  change (is_rooted (String c s)) with (Ascii.eqb c "/").
  rewrite Hc. cbv iota. rewrite <- Hj.
  unfold elements. rewrite elements_from_join by exact Hns. rewrite append_nil_l.
  now rewrite fold_clean_rev.
Qed.

Theorem Clean_idempotent (path : string) : Clean (Clean path) = Clean path.
Proof.
  destruct (String.eqb path "") eqn:Hp.
  { apply String.eqb_eq in Hp. subst path. reflexivity. }
  unfold Clean at 2 3. rewrite Hp.
  set (rooted := is_rooted path).
  set (out := List.fold_left (clean_element rooted) (elements path) []).
  assert (Hok : ok_stack rooted out = true).
  { apply fold_clean_ok; [| reflexivity]. now apply elements_from_no_slash. }
  pose proof (ok_stack_elements _ _ Hok) as Hel.
  apply List.Forall_rev in Hel.
  rewrite <- (List.rev_involutive out) in Hok.
  destruct rooted.
  - rewrite append_cons, append_nil_l. apply Clean_rooted_fixed; [exact Hok |].
    eapply List.Forall_impl; [| exact Hel]. simpl. tauto.
  - destruct (List.rev out) as [|e l]; [reflexivity |].
    now apply Clean_unrooted_fixed.
Qed.

End GoPath_facts.

(** * The registration records of the CAR supplier *)
Module car_supplier_facts.

Import suppliers.

(** The reverse key in the words of the specification: the prefix, then
    the base64 of the digest of the path. *)
Definition toPathKey_as_specified (path : string) : datastore.Key :=
  datastore.NewKey
    (carPathKeyPrefix ++ base64.EncodeToString (sha256.Sum256 (bytes_of_string path))).

(** The string [toPathKey] makes its key of. *)
Definition pathKey_string (path : string) : string :=
  carPathKeyPrefix
  ++ base64.EncodeToString (sha256.Sum sha256.New (bytes_of_string path)).

Lemma toPathKey_NewKey (path : string) :
  toPathKey path = datastore.NewKey (pathKey_string path).
Proof. reflexivity. Qed.

Lemma length_append (a b : string) :
  String.length (a ++ b) = (String.length a + String.length b)%nat.
Proof.
  induction a as [|c a IH]; [reflexivity |].
  rewrite GoPath_facts.append_cons. cbn [String.length]. now rewrite IH.
Qed.

(** The base64 of [n] bytes has four characters for every three bytes,
    the last group filled up. *)
Lemma base64_encode_length (l : list Z) :
  String.length (base64.encode l) = (4 * ((List.length l + 2) / 3))%nat
  /\ (forall x, String.length (base64.encode (x :: l))
                = (4 * ((List.length (x :: l) + 2) / 3))%nat)
  /\ (forall x y, String.length (base64.encode (x :: y :: l))
                  = (4 * ((List.length (x :: y :: l) + 2) / 3))%nat).
Proof.
  induction l as [|a l (IH0 & IH1 & IH2)].
  - repeat apply conj; reflexivity.
  - refine (conj (IH1 a) (conj (fun x => IH2 x a) _)).
    intros x y. cbn [base64.encode String.length List.length]. rewrite IH0.
    replace (S (S (S (List.length l))) + 2)%nat with (List.length l + 2 + 1 * 3)%nat by lia.
    rewrite Nat.div_add by lia. lia.
Qed.

(** What [toPathKey] encodes: the bytes of the path, then the digest of
    the empty input. *)
Lemma pathHash_is_path_and_empty_digest (path : string) :
  sha256.Sum sha256.New (bytes_of_string path)
  = (bytes_of_string path ++ sha256.Sum256 [])%list.
Proof. reflexivity. Qed.

Lemma pathHash_length (path : string) :
  List.length (sha256.Sum sha256.New (bytes_of_string path))
  = (String.length path + 32)%nat.
Proof.
  rewrite pathHash_is_path_and_empty_digest, List.length_app, bytes_of_string_length.
  reflexivity.
Qed.

(** For every path, the string the key is made of grows with the path:
    six characters of prefix and the base64 of the path's length plus 32
    bytes. *)
Lemma pathKey_string_length (path : string) :
  String.length (pathKey_string path)
  = (6 + 4 * ((String.length path + 34) / 3))%nat.
Proof.
  unfold pathKey_string. rewrite length_append.
  unfold base64.EncodeToString.
  rewrite (proj1 (base64_encode_length _)), List.length_map, pathHash_length.
  change (String.length carPathKeyPrefix) with 6%nat.
  replace (String.length path + 32 + 2)%nat with (String.length path + 34)%nat by lia.
  reflexivity.
Qed.

Section Records.

Context {C : Cids} {D : datastore.Datastore} {L : datastore.DatastoreLaws D}.
Variable ReadOption : Type.
Variable newCarCidIterator : string -> list ReadOption -> error + CidIterator.

(** The bytes of the identifier decode to the identifier: what [go-cid]
    gives for a CID it made or parsed. *)
Definition decodes_back (id : Cid) : Prop :=
  forall (n : nat) (c : Cid), cid_CidFromBytes (cid_Bytes id) = inr (n, c) -> c = id.

Lemma PutWithID_inr (cs cs1 : CarSupplier ReadOption) (id id' : Cid) (path : string) :
  PutWithID ReadOption cs id path = (inr id', cs1) ->
  id' = id
  /\ datastore.Get (ds cs1) (toPathKey (GoPath.Clean path)) = inr (cid_Bytes id).
Proof.
  unfold PutWithID.
  destruct (datastore.Put (ds cs) (toCarIdKey id) (bytes_of_string (GoPath.Clean path)))
    as [[e|] s]; [discriminate |].
  destruct (datastore.Put s (toPathKey (GoPath.Clean path)) (cid_Bytes id))
    as [[e|] s'] eqn:Hput; [discriminate |].
  intros [= <- <-]. split; [reflexivity |]. simpl.
  now apply (datastore.Get_Put s).
Qed.

Lemma Put_inr (cs cs1 : CarSupplier ReadOption) (id : Cid) (path : string) :
  Put ReadOption newCarCidIterator cs path = (inr id, cs1) ->
  datastore.Get (ds cs1) (toPathKey (GoPath.Clean path)) = inr (cid_Bytes id).
Proof.
  unfold Put.
  destruct (generateID ReadOption newCarCidIterator (GoPath.Clean path) []) as [e|id0];
    [discriminate |].
  intros H. apply PutWithID_inr in H. destruct H as [-> H].
  now rewrite GoPath_facts.Clean_idempotent in H.
Qed.

Lemma Remove_inr (cs1 cs2 : CarSupplier ReadOption) (id rid : Cid) (path : string) :
  decodes_back id ->
  datastore.Get (ds cs1) (toPathKey (GoPath.Clean path)) = inr (cid_Bytes id) ->
  Remove ReadOption cs1 path = (inr rid, cs2) ->
  rid = id /\ datastore.Get (ds cs2) (toCarIdKey id) = inl datastore_ErrNotFound.
Proof.
  intros Hid Hget. unfold Remove, getCarIDFromPathKey. rewrite Hget.
  destruct (cid_CidFromBytes (cid_Bytes id)) as [e|[n c]] eqn:Hdec.
  { destruct (error_eqb e datastore_ErrNotFound); discriminate. }
  apply Hid in Hdec. subst c.
  destruct (datastore.Delete (ds cs1) (toCarIdKey id)) as [[e|] s] eqn:Hd1; [discriminate |].
  destruct (datastore.Delete s (toPathKey (GoPath.Clean path))) as [[e|] s'] eqn:Hd2;
    [discriminate |].
  intros [= <- <-]. split; [reflexivity |]. simpl.
  destruct (String.eqb (toCarIdKey id) (toPathKey (GoPath.Clean path))) eqn:Hk.
  - apply String.eqb_eq in Hk. rewrite Hk. now apply (datastore.Get_Delete s).
  - apply String.eqb_neq in Hk.
    rewrite (datastore.Get_Delete_ne s _ _ s' Hd2 Hk).
    now apply (datastore.Get_Delete (ds cs1)).
Qed.

Lemma Supply_not_found (cs : CarSupplier ReadOption) (key : Cid) :
  datastore.Get (ds cs) (toCarIdKey key) = inl datastore_ErrNotFound ->
  Supply ReadOption newCarCidIterator cs key = inl suppliers_ErrNotFound.
Proof. intros H. unfold Supply. now rewrite H. Qed.

(** The paths [Put], [PutWithID] and [Remove] are given are only looked at
    through [Clean]. *)
Lemma cleaned_alike (cs : CarSupplier ReadOption) (p1 p2 : string) :
  GoPath.Clean p1 = GoPath.Clean p2 ->
  Put ReadOption newCarCidIterator cs p1 = Put ReadOption newCarCidIterator cs p2
  /\ (forall id, PutWithID ReadOption cs id p1 = PutWithID ReadOption cs id p2)
  /\ Remove ReadOption cs p1 = Remove ReadOption cs p2.
Proof.
  intros H. unfold Put, PutWithID, Remove. rewrite H. auto.
Qed.

End Records.

End car_supplier_facts.

(** C3, at the failing input.  The key of a path is the prefix and the
    base64 of the path's own bytes followed by the digest of the EMPTY
    input: [sha256.New().Sum(b)] appends the digest of what was written, and
    nothing was.  The key of a one-byte path has 50 characters, that of a
    24-byte path has 82, and neither is the key the specification
    describes, which has 50 characters for every path. *)
Theorem C3_toPathKey_grows_with_the_path :
  suppliers.toPathKey "a" = "/car:/YeOwxEKY/BwUmvv0yJlvuSQnrkHkZJuTTKSVmRt4UrhV"
  /\ suppliers.toPathKey "testdata/sample-v1-2.car"
     = "/car:/dGVzdGRhdGEvc2FtcGxlLXYxLTIuY2Fy47DEQpj8HBSa+/TImW+5JCeuQeRkm5NMpJWZG3hSuFU="
  /\ String.length (suppliers.toPathKey "a") = 50%nat
  /\ String.length (suppliers.toPathKey "testdata/sample-v1-2.car") = 82%nat
  /\ car_supplier_facts.toPathKey_as_specified "a"
     = "/car:/ypeBEsobvcr6wjGzmiPcTaeG7/gUfE5yuYB3ha/uSLs="
  /\ String.length (car_supplier_facts.toPathKey_as_specified "testdata/sample-v1-2.car")
     = 50%nat.
Proof. repeat apply conj; vm_compute; reflexivity. Qed.

(** A supplier for the examples: a map datastore, the stand-in CIDs, and a
    file system with one CAR, of two blocks. *)
Module car_supplier_sample.

Import suppliers adapter_facts.

Definition block_1 : @Cid sample_Cids :=
  multihash.Encode (sha256.Sum256 (bytes_of_string "block 1")) multihash.SHA2_256.
Definition block_2 : @Cid sample_Cids :=
  multihash.Encode (sha256.Sum256 (bytes_of_string "block 2")) multihash.SHA2_256.

Definition sample_path : string := "testdata/sample-v1-2.car".

Definition open_car (path : string) (opts : list unit) : error + @CidIterator sample_Cids :=
  if String.eqb path sample_path then inr [(block_1, None); (block_2, None)]
  else inl (errors_New "open: no such file or directory").

Definition empty_supplier : @CarSupplier datastore.MapDatastore unit :=
  NewCarSupplier datastore.NewMapDatastore [].

(** The identifier of the CAR: the multihash of the hashes of its blocks. *)
Definition sample_id : @Cid sample_Cids :=
  cid_NewCidV1 multicodec.DagCbor
    (multihash.Encode (sha256.Sum256 (cid_Hash block_1 ++ cid_Hash block_2)%list)
       multihash.SHA2_256).

(** The supplier with the CAR registered: the two records. *)
Definition registered : @CarSupplier datastore.MapDatastore unit :=
  NewCarSupplier
    (<[toPathKey sample_path := cid_Bytes sample_id]>
       (<[toCarIdKey sample_id := bytes_of_string sample_path]>
          (datastore.NewMapDatastore : gmap string (list byte))) : @datastore.store datastore.MapDatastore)
    [].

Lemma sample_id_decodes_back :
  car_supplier_facts.decodes_back (C := sample_Cids) sample_id.
Proof.
  intros n c H. vm_compute in H. injection H as _ <-. vm_compute. reflexivity.
Qed.

Lemma Put_sample :
  Put unit open_car empty_supplier sample_path = (inr sample_id, registered).
Proof. reflexivity. Qed.

Lemma PutWithID_sample :
  PutWithID unit empty_supplier sample_id "./testdata//sample-v1-2.car"
  = (inr sample_id, registered).
Proof. reflexivity. Qed.

Lemma Remove_sample :
  Remove (C := sample_Cids) unit registered sample_path = (inr sample_id, empty_supplier).
Proof. reflexivity. Qed.

Lemma Supply_registered :
  Supply unit open_car registered sample_id = inr [(block_1, None); (block_2, None)].
Proof. reflexivity. Qed.

End car_supplier_sample.

(** C7.  After [Put] or [PutWithID] of a path has succeeded and [Remove] of
    the same path has succeeded, [Supply] of the identifier that [Put] or
    [PutWithID] returned fails with the supplier's [ErrNotFound].  The
    datastore is any datastore that reads back what was put and reports a
    deleted key as not found; the identifier is one whose bytes decode to
    itself. *)
Theorem C7_Supply_after_Remove_is_not_found
    {C : Cids} {D : datastore.Datastore} {L : datastore.DatastoreLaws D}
    (ReadOption : Type)
    (newCarCidIterator : string -> list ReadOption -> error + suppliers.CidIterator)
    (cs cs1 cs2 : suppliers.CarSupplier ReadOption) (path : string) (id0 id rid : Cid) :
  car_supplier_facts.decodes_back id ->
  suppliers.Put ReadOption newCarCidIterator cs path = (inr id, cs1)
  \/ suppliers.PutWithID ReadOption cs id0 path = (inr id, cs1) ->
  suppliers.Remove ReadOption cs1 path = (inr rid, cs2) ->
  suppliers.Supply ReadOption newCarCidIterator cs2 id = inl suppliers_ErrNotFound.
Proof.
  intros Hid Hput Hrm.
  assert (Hget : datastore.Get (suppliers.ds cs1) (suppliers.toPathKey (GoPath.Clean path))
                 = inr (cid_Bytes id)).
  { destruct Hput as [Hput | Hput].
    - now apply (car_supplier_facts.Put_inr _ newCarCidIterator cs).
    - apply car_supplier_facts.PutWithID_inr in Hput. destruct Hput as [-> Hput]. exact Hput. }
  destruct (car_supplier_facts.Remove_inr _ _ _ _ _ _ Hid Hget Hrm) as [_ Hgone].
  now apply car_supplier_facts.Supply_not_found.
Qed.

(** C7, witness: the sample CAR is put, removed, and no longer supplied. *)
Lemma C7_Supply_after_Remove_is_not_found_witness :
  suppliers.Put unit car_supplier_sample.open_car car_supplier_sample.empty_supplier
    car_supplier_sample.sample_path
  = (inr car_supplier_sample.sample_id, car_supplier_sample.registered)
  /\ suppliers.Remove (C := adapter_facts.sample_Cids) unit car_supplier_sample.registered
       car_supplier_sample.sample_path
     = (inr car_supplier_sample.sample_id, car_supplier_sample.empty_supplier)
  /\ suppliers.Supply unit car_supplier_sample.open_car car_supplier_sample.empty_supplier
       car_supplier_sample.sample_id
     = inl suppliers_ErrNotFound.
Proof.
  split; [exact car_supplier_sample.Put_sample |].
  split; [exact car_supplier_sample.Remove_sample |].
  exact (C7_Supply_after_Remove_is_not_found unit car_supplier_sample.open_car
           car_supplier_sample.empty_supplier car_supplier_sample.registered
           car_supplier_sample.empty_supplier car_supplier_sample.sample_path
           car_supplier_sample.sample_id car_supplier_sample.sample_id
           car_supplier_sample.sample_id
           car_supplier_sample.sample_id_decodes_back
           (or_introl car_supplier_sample.Put_sample)
           car_supplier_sample.Remove_sample).
Defined.

(** C9.  [Put], [PutWithID] and [Remove] clean the path they are given
    before anything else and use the cleaned path only: on two paths that
    clean to the same string each of them does the same to the same store.
    [a//b] and [a/b] are such paths, and after [Put] of a path has
    succeeded, a [Remove] of another spelling of it that succeeds returns
    the identifier [Put] returned and leaves nothing to [Supply]. *)
Theorem C9_paths_are_cleaned_first
    {C : Cids} {D : datastore.Datastore} {L : datastore.DatastoreLaws D}
    (ReadOption : Type)
    (newCarCidIterator : string -> list ReadOption -> error + suppliers.CidIterator)
    (cs : suppliers.CarSupplier ReadOption) (p1 p2 : string) :
  GoPath.Clean p1 = GoPath.Clean p2 ->
  suppliers.Put ReadOption newCarCidIterator cs p1
    = suppliers.Put ReadOption newCarCidIterator cs p2
  /\ (forall id : Cid,
        suppliers.PutWithID ReadOption cs id p1 = suppliers.PutWithID ReadOption cs id p2)
  /\ suppliers.Remove ReadOption cs p1 = suppliers.Remove ReadOption cs p2
  /\ GoPath.Clean "a//b" = GoPath.Clean "a/b"
  /\ (forall (cs1 cs2 : suppliers.CarSupplier ReadOption) (id rid : Cid),
        car_supplier_facts.decodes_back id ->
        suppliers.Put ReadOption newCarCidIterator cs p1 = (inr id, cs1) ->
        suppliers.Remove ReadOption cs1 p2 = (inr rid, cs2) ->
        rid = id
        /\ suppliers.Supply ReadOption newCarCidIterator cs2 id = inl suppliers_ErrNotFound).
Proof.
  intros Hclean.
  destruct (car_supplier_facts.cleaned_alike ReadOption newCarCidIterator cs p1 p2 Hclean)
    as (Hput & Hputid & Hrm).
  repeat apply conj; [exact Hput | exact Hputid | exact Hrm | reflexivity |].
  intros cs1 cs2 id rid Hid Hp Hr.
  apply (car_supplier_facts.Put_inr _ newCarCidIterator cs) in Hp.
  rewrite Hclean in Hp.
  destruct (car_supplier_facts.Remove_inr _ _ _ _ _ _ Hid Hp Hr) as [-> Hgone].
  split; [reflexivity |]. now apply car_supplier_facts.Supply_not_found.
Qed.

(** C9, witness: the sample CAR is put under one spelling of its path and
    removed under another. *)
Lemma C9_paths_are_cleaned_first_witness :
  suppliers.Remove (C := adapter_facts.sample_Cids) unit car_supplier_sample.registered
    "testdata//x/../sample-v1-2.car"
  = suppliers.Remove unit car_supplier_sample.registered car_supplier_sample.sample_path
  /\ suppliers.Remove (C := adapter_facts.sample_Cids) unit car_supplier_sample.registered
       car_supplier_sample.sample_path
     = (inr car_supplier_sample.sample_id, car_supplier_sample.empty_supplier).
Proof.
  split; [| exact car_supplier_sample.Remove_sample].
  refine (proj1 (proj2 (proj2 (C9_paths_are_cleaned_first (C := adapter_facts.sample_Cids)
            unit car_supplier_sample.open_car car_supplier_sample.registered
            "testdata//x/../sample-v1-2.car" car_supplier_sample.sample_path _)))).
  vm_compute. reflexivity.
Defined.

(** * The ingest verifier *)
Module verify_ingest_facts.

Import verify_ingest.

(** The four classes of the specification. *)
Inductive class : Type := QueryFailed | Absent | ProviderMismatch | Present.

Definition class_eqb (a b : class) : bool :=
  match a, b with
  | QueryFailed, QueryFailed | Absent, Absent
  | ProviderMismatch, ProviderMismatch | Present, Present => true
  | _, _ => false
  end.

Fixpoint count (c : class) (l : list class) : Z :=
  match l with
  | [] => 0
  | x :: rest => (if class_eqb c x then 1 else 0) + count c rest
  end.

Definition is_expected (provId : string) (p : ProviderResult) : bool :=
  String.eqb (Provider_ID_String p) provId.

(** The class of a multihash under the lookup table built from a
    response: unknown or without providers, known with the expected
    provider among its providers, known without it. *)
Definition class_in (mhLookup : gmap string MultihashResult) (provId : string)
    (mh : Multihash) : class :=
  match mhLookup !! Multihash_String mh with
  | None => Absent
  | Some mr =>
      match ProviderResults mr with
      | [] => Absent
      | ps => if List.existsb (is_expected provId) ps then Present else ProviderMismatch
      end
  end.

(** The class of a retained multihash, given what the batched lookup
    returned. *)
Definition classify (response : error + FindResponse) (provId : string)
    (mh : Multihash) : class :=
  match response with
  | inl _ => QueryFailed
  | inr r => class_in (make_mhLookup (MultihashResults r)) provId mh
  end.

Lemma wrap64_small (x : Z) : - 2 ^ 63 <= x < 2 ^ 63 -> wrap64 x = x.
Proof. intros H. unfold wrap64. rewrite Z.mod_small; lia. Qed.

Lemma incr_wrap64 (x : Z) : incr (wrap64 x) = wrap64 (x + 1).
Proof.
  unfold incr, wrap64. f_equal.
  replace ((x + 2 ^ 63) mod 2 ^ 64 - 2 ^ 63 + 1 + 2 ^ 63)
    with ((x + 2 ^ 63) mod 2 ^ 64 + 1) by lia.
  rewrite Z.add_mod_idemp_l by lia. f_equal. lia.
Qed.

Lemma count_bounds (c : class) (l : list class) :
  0 <= count c l <= Z.of_nat (List.length l).
Proof.
  induction l as [|x l IH]; simpl List.length; cbn [count]; [lia |].
  destruct (class_eqb c x); lia.
Qed.

Lemma count_sum (l : list class) :
  count QueryFailed l + count Absent l + count ProviderMismatch l + count Present l
  = Z.of_nat (List.length l).
Proof.
  induction l as [|x l IH]; simpl List.length; cbn [count]; [reflexivity |].
  destruct x; cbn [class_eqb]; lia.
Qed.

Lemma count_all (c : class) (l : list class) :
  Forall (fun x => x = c) l -> count c l = Z.of_nat (List.length l).
Proof.
  induction 1 as [|x l Hx _ IH]; simpl List.length; cbn [count]; [reflexivity |].
  subst x. rewrite IH. destruct c; cbn [class_eqb]; lia.
Qed.

Lemma count_none (c d : class) (l : list class) :
  class_eqb c d = false -> Forall (fun x => x = d) l -> count c l = 0.
Proof.
  intros Hcd. induction 1 as [|x l Hx _ IH]; cbn [count]; [reflexivity |].
  subst x. rewrite Hcd, IH. reflexivity.
Qed.

Section Facts.

Context {R : Rand}.

Lemma call_include_frame (g : globals) :
  provId (snd (call_include g)) = provId g
  /\ samplingProb (snd (call_include g)) = samplingProb g
  /\ rngSeed (snd (call_include g)) = rngSeed g
  /\ indexerAddr (snd (call_include g)) = indexerAddr g.
Proof.
  unfold call_include. destruct (include g) as [|r]; [auto |].
  destruct (Float64 r) as [x r']. auto.
Qed.

(** Sampling changes the generator only. *)
Lemma forEach_include_frame (recs : list (Multihash * Z)) :
  forall (mhs : list Multihash) (g : globals),
    provId (snd (forEach_include recs mhs g)) = provId g
    /\ samplingProb (snd (forEach_include recs mhs g)) = samplingProb g
    /\ rngSeed (snd (forEach_include recs mhs g)) = rngSeed g
    /\ indexerAddr (snd (forEach_include recs mhs g)) = indexerAddr g.
Proof.
  induction recs as [|[mh off] recs IH]; intros mhs g; cbn [forEach_include]; [auto |].
  pose proof (call_include_frame g) as (Hp & Hs & Hr & Hi).
  destruct (call_include g) as [yes g1]. cbn [snd] in *.
  destruct (IH (if yes then (mhs ++ [mh])%list else mhs) g1) as (Hp' & Hs' & Hr' & Hi').
  rewrite Hp', Hs', Hr', Hi'. auto.
Qed.

Lemma match_provider_spec (ps : list ProviderResult) (g : globals) (r : verifyIngestResult) :
  match_provider ps g r =
    if List.existsb (is_expected (provId g)) ps
    then (Result (total r) (providerMissmatch r) (incr (present r)) (absent r) (err r), true)
    else (r, false).
Proof.
  induction ps as [|p ps IH]; cbn [match_provider List.existsb]; [reflexivity |].
  unfold is_expected at 1. destruct (String.eqb (Provider_ID_String p) (provId g)); [reflexivity |].
  exact IH.
Qed.

(** The loop over the retained multihashes counts each of them once, in
    the counter of its class. *)
Lemma count_results_tally (mhLookup : gmap string MultihashResult) (g : globals)
    (mhs : list Multihash) : forall t m p a e : Z,
  count_results mhLookup mhs g (Result t (wrap64 m) (wrap64 p) (wrap64 a) e) =
  let classes := List.map (class_in mhLookup (provId g)) mhs in
  Result t (wrap64 (m + count ProviderMismatch classes))
           (wrap64 (p + count Present classes))
           (wrap64 (a + count Absent classes)) e.
Proof.
  induction mhs as [|mh mhs IH]; intros t m p a e; cbn [count_results List.map count].
  - cbv zeta. now rewrite !Z.add_0_r.
  - cbv zeta. unfold class_in at 1 3 5.
    destruct (mhLookup !! Multihash_String mh) as [mr|].
    + destruct (ProviderResults mr) as [|q qs] eqn:Hps.
      * unfold add_absent. cbn [total providerMissmatch present absent err].
        rewrite incr_wrap64, IH. cbv zeta. cbn [class_eqb].
        f_equal; f_equal; lia.
      * rewrite match_provider_spec.
        destruct (List.existsb (is_expected (provId g)) (q :: qs)).
        -- cbn [total providerMissmatch present absent err].
           rewrite incr_wrap64, IH. cbv zeta. cbn [class_eqb].
           f_equal; f_equal; lia.
        -- unfold add_providerMissmatch. cbn [total providerMissmatch present absent err].
           rewrite incr_wrap64, IH. cbv zeta. cbn [class_eqb].
           f_equal; f_equal; lia.
    + unfold add_absent. cbn [total providerMissmatch present absent err].
      rewrite incr_wrap64, IH. cbv zeta. cbn [class_eqb].
      f_equal; f_equal; lia.
Qed.

Lemma class_in_empty (provId : string) (mh : Multihash) :
  class_in ∅ provId mh = Absent.
Proof. unfold class_in. now rewrite lookup_empty. Qed.

Lemma class_in_not_failed (mhLookup : gmap string MultihashResult) (provId : string)
    (mhs : list Multihash) :
  count QueryFailed (List.map (class_in mhLookup provId) mhs) = 0.
Proof.
  induction mhs as [|mh mhs IH]; cbn [List.map count]; [reflexivity |].
  rewrite IH. unfold class_in.
  destruct (mhLookup !! Multihash_String mh) as [mr|]; [| reflexivity].
  destruct (ProviderResults mr) as [|q qs]; [reflexivity |].
  destruct (List.existsb (is_expected provId) (q :: qs)); reflexivity.
Qed.

(** The tally of a run that gives a result: every counter is the number
    of retained multihashes of its class. *)
Lemma verify_tally (finder : Client) (idx : IterableIndex) (g g' : globals)
    (r : verifyIngestResult) :
  Z.of_nat (List.length (retained idx g)) < 2 ^ 63 ->
  verifyIngestFromCarIterableIndex finder idx g = (inr r, g') ->
  let mhs := retained idx g in
  let classes := List.map (classify (finder mhs) (provId g)) mhs in
  total r = Z.of_nat (List.length mhs)
  /\ err r = count QueryFailed classes
  /\ absent r = count Absent classes
  /\ providerMissmatch r = count ProviderMismatch classes
  /\ present r = count Present classes.
Proof.
  intros Hlen. unfold verifyIngestFromCarIterableIndex, retained in *.
  pose proof (forEach_include_frame (records idx) [] g) as (Hprov & _).
  destruct (forEach_include (records idx) [] g) as [mhs g1]. cbn [fst snd] in *.
  destruct (failure idx); [discriminate |].
  assert (Hn : len mhs = Z.of_nat (List.length mhs)).
  { unfold len. apply wrap64_small. lia. }
  rewrite Hn. cbv zeta.
  destruct (finder mhs) as [e | response] eqn:Hfind.
  - intros [= <- <-]. cbn [total err absent providerMissmatch present].
    assert (Hall : Forall (fun x => x = QueryFailed)
                     (List.map (classify (inl e) (provId g)) mhs)).
    { apply List.Forall_forall. intros x Hx. apply List.in_map_iff in Hx.
      now destruct Hx as (? & <- & _). }
    rewrite (count_all _ _ Hall), (count_none Absent QueryFailed _ eq_refl Hall),
      (count_none ProviderMismatch QueryFailed _ eq_refl Hall),
      (count_none Present QueryFailed _ eq_refl Hall), List.length_map.
    auto.
  - destruct (MultihashResults response) as [|mr rs] eqn:Hrs.
    + intros [= <- <-]. cbn [total err absent providerMissmatch present].
      assert (Hall : Forall (fun x => x = Absent)
                       (List.map (classify (inr response) (provId g)) mhs)).
      { apply List.Forall_forall. intros x Hx. apply List.in_map_iff in Hx.
        destruct Hx as (mh & <- & _). unfold classify. rewrite Hrs. apply class_in_empty. }
      rewrite (count_all _ _ Hall), (count_none QueryFailed Absent _ eq_refl Hall),
        (count_none ProviderMismatch Absent _ eq_refl Hall),
        (count_none Present Absent _ eq_refl Hall), List.length_map.
      auto.
    + intros [= <- <-].
      pose proof (count_results_tally (make_mhLookup (mr :: rs)) g1 mhs
                    (Z.of_nat (List.length mhs)) 0 0 0 0) as Hcr.
      change (wrap64 0) with 0 in Hcr. cbv zeta in Hcr. rewrite Hcr. clear Hcr.
      cbn [total err absent providerMissmatch present].
      change (classify (inr response) (provId g))
        with (class_in (make_mhLookup (MultihashResults response)) (provId g)).
      rewrite Hprov, Hrs. rewrite !Z.add_0_l.
      set (classes := List.map (class_in (make_mhLookup (mr :: rs)) (provId g)) mhs).
      pose proof (count_bounds ProviderMismatch classes) as H1.
      pose proof (count_bounds Present classes) as H2.
      pose proof (count_bounds Absent classes) as H3.
      pose proof (count_sum classes) as Hsum.
      pose proof (class_in_not_failed (make_mhLookup (mr :: rs)) (provId g) mhs) as H4.
      fold classes in H4.
      assert (Hl : List.length classes = List.length mhs) by apply List.length_map.
      rewrite Hl in *.
      rewrite !wrap64_small by lia.
      repeat apply conj; try reflexivity. lia.
Qed.

End Facts.

End verify_ingest_facts.

(** A verifier for the examples: a generator that alternates between a
    quarter and three quarters, starting with a quarter on an even seed;
    an index of three multihashes; a finder that knows every multihash with
    the expected provider, one that knows none, and one that fails. *)
Module verify_ingest_sample.

Import verify_ingest.

#[export] Instance alternating : Rand := {|
  rng := Z;
  rand_New := fun seed => seed;
  Float64 := fun r => (if Z.even r then 0.25%float else 0.75%float, r + 1);
|}.

Definition expected_provider : string :=
  "12D3KooWE8yt84RVwW3sFcd6WMjbUdWrZer2YtT4dmtj3dHdahSZ".

Definition flags (p : float) (seed : Z) : globals :=
  Globals "" "my-idx.idx" "192.168.2.100:3000" expected_provider p seed include_every.

Definition sample_index : IterableIndex :=
  {| records := [(bytes_of_string "mh1", 0); (bytes_of_string "mh2", 64);
                 (bytes_of_string "mh3", 128)];
     failure := None |}.

Definition with_provider (id : string) (mh : Multihash) : MultihashResult :=
  {| MultihashOf := mh; ProviderResults := [ {| Provider_ID_String := id |} ] |}.

Definition finds_all : Client :=
  fun mhs => inr {| MultihashResults := List.map (with_provider expected_provider) mhs |}.

Definition finds_none : Client := fun _ => inr {| MultihashResults := [] |}.

Definition unreachable : Client := fun _ => inl (errors_New "connection refused").

(** The flags after [beforeVerifyIngest], for all multihashes and for half
    of them with seed 42. *)
Definition every : globals := flags 1 0.
Definition half (seed : Z) : globals :=
  Globals "" "my-idx.idx" "192.168.2.100:3000" expected_provider 0.5 seed (include_sampled seed).
Definition half_42 : globals := half 42.

Example before_every : beforeVerifyIngest 1700000000 (flags 1 0) = (None, every).
Proof. reflexivity. Qed.

Example before_half_42 : beforeVerifyIngest 1700000000 (flags 0.5 42) = (None, half_42).
Proof. reflexivity. Qed.

Example retained_half_42 :
  retained sample_index half_42 = [bytes_of_string "mh1"; bytes_of_string "mh3"].
Proof. reflexivity. Qed.

Example verify_all_present :
  fst (verifyIngestFromCarIterableIndex finds_all sample_index every) = inr (Result 3 0 3 0 0).
Proof. reflexivity. Qed.

Example verify_none_present :
  fst (verifyIngestFromCarIterableIndex finds_none sample_index half_42)
  = inr (Result 2 0 0 2 0).
Proof. reflexivity. Qed.

Example verify_unreachable :
  fst (verifyIngestFromCarIterableIndex unreachable sample_index every) = inr (Result 3 0 0 0 3).
Proof. reflexivity. Qed.

End verify_ingest_sample.

Module verify_ingest_statements.

Import verify_ingest.

(** Reproducibility as the specification states it: for any seed
    and any probability strictly between zero and one, two runs over the
    same index retain the same multihashes, whatever the clock reads. *)
Definition reproducible_for_any_seed : Prop :=
  forall (R : Rand) (g g1 g2 : globals) (idx : IterableIndex) (now1 now2 : Z),
    PrimFloat.ltb 0 (samplingProb g) = true ->
    PrimFloat.ltb (samplingProb g) 1 = true ->
    beforeVerifyIngest now1 g = (None, g1) ->
    beforeVerifyIngest now2 g = (None, g2) ->
    retained idx g1 = retained idx g2.

Lemma forEach_include_every `{Rand} (recs : list (Multihash * Z)) :
  forall (mhs : list Multihash) (g : globals),
    include g = include_every ->
    forEach_include recs mhs g = ((mhs ++ List.map fst recs)%list, g).
Proof.
  induction recs as [|[mh off] recs IH]; intros mhs g Hg; cbn [forEach_include List.map].
  - now rewrite List.app_nil_r.
  - unfold call_include. rewrite Hg. rewrite IH by exact Hg.
    cbn [fst]. now rewrite <- List.app_assoc.
Qed.

End verify_ingest_statements.

(** C4.  A run that gives a result passes exactly when the number of
    retained multihashes found with the expected provider is the number of
    retained multihashes; a run that retained none passes; and the exit
    code is zero exactly when the run passes. *)
Theorem C4_passes_iff_all_present `{verify_ingest.Rand}
    (finder : verify_ingest.Client) (idx : verify_ingest.IterableIndex)
    (g g' : verify_ingest.globals) (r : verify_ingest.verifyIngestResult) :
  Z.of_nat (List.length (verify_ingest.retained idx g)) < 2 ^ 63 ->
  verify_ingest.verifyIngestFromCarIterableIndex finder idx g = (inr r, g') ->
  let mhs := verify_ingest.retained idx g in
  let classes :=
    List.map (verify_ingest_facts.classify (finder mhs) (verify_ingest.provId g)) mhs in
  (verify_ingest.passedVerification r = true
   <-> verify_ingest_facts.count verify_ingest_facts.Present classes
       = Z.of_nat (List.length mhs))
  /\ (verify_ingest.passedVerification r = true
      <-> verify_ingest.present r = verify_ingest.total r)
  /\ (mhs = [] -> verify_ingest.passedVerification r = true)
  /\ (verify_ingest.exitCode (snd (verify_ingest.printAndExit r g')) = 0
      <-> verify_ingest.passedVerification r = true).
Proof.
  intros Hlen Hrun mhs classes.
  destruct (verify_ingest_facts.verify_tally finder idx g g' r Hlen Hrun)
    as (Htotal & _ & _ & _ & Hpresent).
  fold mhs in Htotal, Hpresent. fold classes in Hpresent.
  assert (Hpass : verify_ingest.passedVerification r = true
                  <-> verify_ingest.present r = verify_ingest.total r).
  { unfold verify_ingest.passedVerification. apply Z.eqb_eq. }
  refine (conj _ (conj Hpass (conj _ _))).
  - rewrite Hpass, Hpresent, Htotal. reflexivity.
  - intros Hnil. apply Hpass. rewrite Hpresent, Htotal. subst classes. rewrite Hnil. reflexivity.
  - unfold verify_ingest.printAndExit. cbn [snd].
    destruct (verify_ingest.passedVerification r); cbn [verify_ingest.exitCode]; split;
      intros; (reflexivity || discriminate).
Qed.

(** C4, witness: every multihash of the sample index is found with the
    expected provider, and the run passes. *)
Lemma C4_passes_iff_all_present_witness :
  verify_ingest.passedVerification (verify_ingest.Result 3 0 3 0 0) = true
  <-> verify_ingest.present (verify_ingest.Result 3 0 3 0 0)
      = verify_ingest.total (verify_ingest.Result 3 0 3 0 0).
Proof.
  exact (proj1 (proj2 (C4_passes_iff_all_present (H := verify_ingest_sample.alternating)
    verify_ingest_sample.finds_all verify_ingest_sample.sample_index
    verify_ingest_sample.every verify_ingest_sample.every
    (verify_ingest.Result 3 0 3 0 0) eq_refl eq_refl))).
Defined.

(** C5.  When the batched lookup fails, the verifier returns a result and
    no error: the number of multihashes it failed to verify is the number
    it retained, the other three counters are zero, and the command prints
    the whole tally of that result on its way out. *)
Theorem C5_lookup_error_is_tallied `{verify_ingest.Rand}
    (finder : verify_ingest.Client) (idx : verify_ingest.IterableIndex)
    (g : verify_ingest.globals) (e : error) :
  verify_ingest.failure idx = None ->
  finder (verify_ingest.retained idx g) = inl e ->
  let n := verify_ingest.len (verify_ingest.retained idx g) in
  let g' := snd (verify_ingest.forEach_include (verify_ingest.records idx) [] g) in
  let result := verify_ingest.Result n 0 0 0 n in
  verify_ingest.verifyIngestFromCarIterableIndex finder idx g = (inr result, g')
  /\ (Z.of_nat (List.length (verify_ingest.retained idx g)) < 2 ^ 63 ->
      verify_ingest.err result = Z.of_nat (List.length (verify_ingest.retained idx g)))
  /\ verify_ingest.doVerifyIngestFromCar (inr idx) (fun _ => inr finder) g
     = (fst (verify_ingest.printAndExit result g'),
        verify_ingest.exits (snd (verify_ingest.printAndExit result g')), g')
  /\ verify_ingest.doVerifyIngestFromCarIndex (inr idx) (fun _ => inr finder) g
     = (fst (verify_ingest.printAndExit result g'),
        verify_ingest.exits (snd (verify_ingest.printAndExit result g')), g')
  /\ In (verify_ingest.Printf "  # failed to verify:                   %d\n"
           (verify_ingest.of_int n))
        (fst (verify_ingest.printAndExit result g')).
Proof.
  intros Hfail Hfind n g' result.
  assert (Hrun : verify_ingest.verifyIngestFromCarIterableIndex finder idx g = (inr result, g')).
  { unfold verify_ingest.verifyIngestFromCarIterableIndex.
    unfold verify_ingest.retained in Hfind. subst n g' result.
    unfold verify_ingest.retained.
    destruct (verify_ingest.forEach_include (verify_ingest.records idx) [] g) as [mhs g1].
    cbn [fst snd] in *. rewrite Hfail, Hfind. reflexivity. }
  repeat apply conj.
  - exact Hrun.
  - intros Hlen. subst result n. cbn [verify_ingest.err]. unfold verify_ingest.len.
    apply verify_ingest_facts.wrap64_small. lia.
  - unfold verify_ingest.doVerifyIngestFromCar. rewrite Hrun.
    destruct (verify_ingest.printAndExit result g') as [out code]. reflexivity.
  - unfold verify_ingest.doVerifyIngestFromCarIndex. rewrite Hrun.
    destruct (verify_ingest.printAndExit result g') as [out code]. reflexivity.
  - unfold verify_ingest.printAndExit. cbn [fst]. simpl. auto.
Qed.

(** C5, witness: the finder of the sample cannot be reached. *)
Lemma C5_lookup_error_is_tallied_witness :
  verify_ingest.verifyIngestFromCarIterableIndex verify_ingest_sample.unreachable
    verify_ingest_sample.sample_index verify_ingest_sample.every
  = (inr (verify_ingest.Result 3 0 0 0 3), verify_ingest_sample.every).
Proof.
  exact (proj1 (C5_lookup_error_is_tallied (H := verify_ingest_sample.alternating)
    verify_ingest_sample.unreachable verify_ingest_sample.sample_index
    verify_ingest_sample.every (errors_New "connection refused") eq_refl eq_refl)).
Defined.

(** C6.  In the result of a run every retained multihash is counted once,
    in the counter of its class: failed when the batched lookup failed,
    absent when the response does not know it or knows no provider for it,
    mismatch when the expected provider is not among its providers, present
    when it is.  The four counters add up to the total, the number of
    retained multihashes. *)
Theorem C6_counters_partition_the_retained `{verify_ingest.Rand}
    (finder : verify_ingest.Client) (idx : verify_ingest.IterableIndex)
    (g g' : verify_ingest.globals) (r : verify_ingest.verifyIngestResult) :
  Z.of_nat (List.length (verify_ingest.retained idx g)) < 2 ^ 63 ->
  verify_ingest.verifyIngestFromCarIterableIndex finder idx g = (inr r, g') ->
  let mhs := verify_ingest.retained idx g in
  let classes :=
    List.map (verify_ingest_facts.classify (finder mhs) (verify_ingest.provId g)) mhs in
  verify_ingest.total r = Z.of_nat (List.length mhs)
  /\ verify_ingest.err r = verify_ingest_facts.count verify_ingest_facts.QueryFailed classes
  /\ verify_ingest.absent r = verify_ingest_facts.count verify_ingest_facts.Absent classes
  /\ verify_ingest.providerMissmatch r
     = verify_ingest_facts.count verify_ingest_facts.ProviderMismatch classes
  /\ verify_ingest.present r = verify_ingest_facts.count verify_ingest_facts.Present classes
  /\ verify_ingest.err r + verify_ingest.absent r + verify_ingest.providerMissmatch r
     + verify_ingest.present r = verify_ingest.total r.
Proof.
  intros Hlen Hrun mhs classes.
  destruct (verify_ingest_facts.verify_tally finder idx g g' r Hlen Hrun)
    as (Htotal & Herr & Habs & Hmis & Hpres).
  fold mhs in Htotal, Herr, Habs, Hmis, Hpres.
  fold classes in Herr, Habs, Hmis, Hpres.
  repeat apply conj; try assumption.
  rewrite Htotal, Herr, Habs, Hmis, Hpres.
  rewrite verify_ingest_facts.count_sum. subst classes. now rewrite List.length_map.
Qed.

(** C6, witness: half of the sample index, seed 42, nothing found. *)
Lemma C6_counters_partition_the_retained_witness :
  verify_ingest.err (verify_ingest.Result 2 0 0 2 0)
  + verify_ingest.absent (verify_ingest.Result 2 0 0 2 0)
  + verify_ingest.providerMissmatch (verify_ingest.Result 2 0 0 2 0)
  + verify_ingest.present (verify_ingest.Result 2 0 0 2 0)
  = verify_ingest.total (verify_ingest.Result 2 0 0 2 0).
Proof.
  refine (proj2 (proj2 (proj2 (proj2 (proj2 (C6_counters_partition_the_retained
    (H := verify_ingest_sample.alternating)
    verify_ingest_sample.finds_none verify_ingest_sample.sample_index
    verify_ingest_sample.half_42 _ (verify_ingest.Result 2 0 0 2 0) eq_refl eq_refl)))))).
Defined.

(** C8, counterexample.  Seed zero stands for no seed: [beforeVerifyIngest]
    replaces it by the clock.  With the alternating generator and a
    probability of one half, a run at an odd clock retains nothing of a
    one-record index and a run at an even clock retains the record. *)
Lemma C8_seed_zero_is_not_reproducible :
  ~ verify_ingest_statements.reproducible_for_any_seed.
Proof.
  intros Hall.
  specialize (Hall verify_ingest_sample.alternating
    (verify_ingest_sample.flags 0.5 0)
    (verify_ingest_sample.half 1) (verify_ingest_sample.half 2)
    {| verify_ingest.records := [(bytes_of_string "mh1", 0)];
       verify_ingest.failure := None |}
    1 2 eq_refl eq_refl eq_refl eq_refl).
  discriminate Hall.
Qed.

(** C8, as amended.  With a probability of one every multihash of the
    index is retained, in the order of the index.  With a seed other than
    zero, [beforeVerifyIngest] does not look at the clock: two runs from the
    same flags start from the same generator, and so retain the same
    multihashes of the same index and give the same result. *)
Theorem C8_sampling_is_reproducible_for_a_nonzero_seed `{verify_ingest.Rand}
    (g : verify_ingest.globals) (idx : verify_ingest.IterableIndex) :
  (verify_ingest.samplingProb g = 1%float ->
   forall now : Z,
     exists g1 : verify_ingest.globals,
       verify_ingest.beforeVerifyIngest now g = (None, g1)
       /\ verify_ingest.retained idx g1 = List.map fst (verify_ingest.records idx))
  /\ (verify_ingest.rngSeed g <> 0 ->
      forall now1 now2 : Z,
        verify_ingest.beforeVerifyIngest now1 g = verify_ingest.beforeVerifyIngest now2 g
        /\ forall (g1 g2 : verify_ingest.globals) (finder : verify_ingest.Client),
             verify_ingest.beforeVerifyIngest now1 g = (None, g1) ->
             verify_ingest.beforeVerifyIngest now2 g = (None, g2) ->
             verify_ingest.retained idx g1 = verify_ingest.retained idx g2
             /\ verify_ingest.verifyIngestFromCarIterableIndex finder idx g1
                = verify_ingest.verifyIngestFromCarIterableIndex finder idx g2).
Proof.
  split.
  - intros Hp now. eexists. unfold verify_ingest.beforeVerifyIngest. rewrite Hp.
    split; [reflexivity |].
    unfold verify_ingest.retained.
    now rewrite verify_ingest_statements.forEach_include_every.
  - intros Hseed now1 now2.
    assert (Heq : verify_ingest.beforeVerifyIngest now1 g
                  = verify_ingest.beforeVerifyIngest now2 g).
    { unfold verify_ingest.beforeVerifyIngest.
      destruct (verify_ingest.rngSeed g =? 0) eqn:Hz; [| reflexivity].
      apply Z.eqb_eq in Hz. contradiction. }
    split; [exact Heq |].
    intros g1 g2 finder H1 H2. rewrite Heq, H2 in H1. injection H1 as ->. auto.
Qed.

(** C8, witness: seed 42 and a probability of one half, at two clocks. *)
Lemma C8_sampling_is_reproducible_for_a_nonzero_seed_witness :
  verify_ingest.beforeVerifyIngest 1 (verify_ingest_sample.flags 0.5 42)
  = verify_ingest.beforeVerifyIngest 2 (verify_ingest_sample.flags 0.5 42).
Proof.
  refine (proj1 (proj2 (C8_sampling_is_reproducible_for_a_nonzero_seed
    (H := verify_ingest_sample.alternating) (verify_ingest_sample.flags 0.5 42)
    verify_ingest_sample.sample_index) _ 1 2)).
  discriminate.
Defined.

(** * More on the adapter: every schedule *)
Module adapter_runs.

Import channel suppliers.

Section Runs.

Context {C : Cids}.

(** The values received from the value channel, in the order of their
    reception. *)
Fixpoint got_cids (es : list event) : list Cid :=
  match es with
  | [] => []
  | GotCid c :: rest => c :: got_cids rest
  | _ :: rest => got_cids rest
  end.

Definition is_GotErr (e : event) : bool :=
  match e with GotErr _ => true | _ => false end.

Definition is_Panics (e : event) : bool :=
  match e with Panics => true | _ => false end.

Definition is_closing (e : event) : bool :=
  match e with ClosedBoth | SawCidClosed | SawErrClosed => true | _ => false end.

(** An iterator that gives the CIDs of a list and then ends. *)
Definition iterator_of (cids : list Cid) : CidIterator :=
  List.map (fun c => (c, None)) cids.

(** The reader of a schedule that takes every value as soon as it was
    sent, and looks at both channels once the goroutine is over. *)
Definition eager_reader (n : nat) : list action :=
  (List.concat (List.repeat [Work; Work; RecvCid] n) ++ [Work; Work; RecvCid; RecvErr])%list.

(** The states a run of [toChan] goes through: two channels of capacity
    one, at most one value in each, closed together and only by the
    goroutine as it ends. *)
Definition well_formed (s : stream) : Prop :=
  exists (cc : chan Cid) (ec : chan error) (g : goroutine),
    s = Stream (Some cc) (Some ec) (Some g)
    /\ cap cc = 1%nat /\ cap ec = 1%nat
    /\ (List.length (buf cc) <= 1)%nat /\ (List.length (buf ec) <= 1)%nat
    /\ closed cc = closed ec
    /\ (closed cc = true <-> at_ g = Exited)
    /\ at_ g <> Panicked.

(** The CIDs a state still owes its reader: the one in the channel, the
    one the goroutine is about to send, and those of the iterator. *)
Definition owed_cids (s : stream) : list Cid :=
  match s with
  | Stream (Some cc) _ (Some g) =>
      (buf cc ++ match at_ g with AtSendCid c => [c] | _ => [] end
         ++ List.map fst (ci g))%list
  | _ => []
  end.

(** The states of a run over an iterator that never fails. *)
Definition error_free (s : stream) : Prop :=
  well_formed s
  /\ match s with
     | Stream _ (Some ec) (Some g) =>
         buf ec = []
         /\ Forall (fun r => snd r = None) (ci g)
         /\ match at_ g with
            | AtDefer | Exited => ci g = []
            | AtSendErr _ _ => False
            | _ => True
            end
     | _ => False
     end.

(** The number of errors an iterator gives before it ends. *)
Fixpoint errors_before_end (ci : CidIterator) : nat :=
  match ci with
  | [] => O
  | (_, None) :: rest => errors_before_end rest
  | (_, Some e) :: rest => if error_eqb e io_EOF then O else S (errors_before_end rest)
  end.

(** The errors a state has still to send, and those it sent and nobody
    took. *)
Definition owed_errors (s : stream) : nat :=
  match s with
  | Stream _ (Some ec) (Some g) =>
      (List.length (buf ec)
       + match at_ g with AtSendErr _ _ => 1 | _ => 0 end
       + errors_before_end (ci g))%nat
  | _ => O
  end.

Definition running (s : stream) : Prop :=
  match s with
  | Stream _ _ (Some g) =>
      match at_ g with
      | AtDefer | Exited | Panicked => False
      | _ => True
      end
  | _ => False
  end.

End Runs.

End adapter_runs.

Module adapter_runs_facts.

Import channel suppliers adapter_runs.

Section Facts.

Context {C : Cids}.

Lemma run_app (acts1 acts2 : list action) : forall s : stream,
  run s (acts1 ++ acts2) =
    (fst (run (fst (run s acts1)) acts2),
     (snd (run s acts1) ++ snd (run (fst (run s acts1)) acts2))%list).
Proof.
  induction acts1 as [|a acts1 IH]; intros s; cbn [run List.app].
  - cbn [fst snd]. now destruct (run s acts2).
  - destruct (act s a) as [s1 e]. rewrite IH.
    destruct (run s1 acts1) as [s2 es]. cbn [fst snd].
    now destruct (run s2 acts2).
Qed.

Ltac solve_well_formed :=
  unfold well_formed; eexists _, _, _; split; [reflexivity |];
  cbn [buf cap closed at_ List.length List.app];
  intuition (try congruence; try lia; try discriminate).

Lemma toChan_well_formed (ci : CidIterator) : well_formed (toChan ci).
Proof. unfold toChan, make. solve_well_formed. Qed.

Ltac short_buffers :=
  repeat match goal with
  | H : (List.length (buf ?c) <= 1)%nat |- _ =>
      let b := fresh "b" in
      destruct c as [? b ?]; cbn [buf cap closed] in *;
      destruct b as [|? [|? ?]]; cbn [List.length] in H; [| | lia]; clear H
  end.

(** A step keeps the state well formed and does not panic. *)
Lemma act_well_formed (s : stream) (a : action) :
  well_formed s ->
  well_formed (fst (act s a)) /\ is_Panics (snd (act s a)) = false.
Proof.
  intros (cc & ec & g & -> & Hcc & Hec & Hbc & Hbe & Hcl & Hex & Hnp).
  destruct g as [script p]. cbn [at_] in *.
  short_buffers; subst;
  match goal with H : ?c = true <-> _ |- _ => destruct c end;
  destruct a; destruct p;
  try (exfalso; intuition congruence);
  cbn [act worker_step worker at_ ci cidChan errChan recv send close buf closed cap
       List.length Nat.ltb Nat.leb fst snd];
  try (split; [solve_well_formed | reflexivity]).
  all: destruct script as [|[next_c [next_e|]] rest]; cbn [Next error_eqb];
    [ | destruct (error_eqb next_e io_EOF) | ];
    cbn [fst snd]; (split; [solve_well_formed | reflexivity]).
Qed.

Lemma run_well_formed (acts : list action) : forall s : stream,
  well_formed s ->
  well_formed (fst (run s acts))
  /\ List.existsb is_Panics (snd (run s acts)) = false.
Proof.
  induction acts as [|a acts IH]; intros s Hs; cbn [run].
  - auto.
  - destruct (act_well_formed s a Hs) as [Hs1 Hp].
    destruct (act s a) as [s1 e]. cbn [fst snd] in *.
    destruct (IH s1 Hs1) as [Hs2 Hps].
    destruct (run s1 acts) as [s2 es]. cbn [fst snd List.existsb] in *.
    now rewrite Hp, Hps.
Qed.

(** What a step does to the CIDs owed, over an iterator that never
    fails: a reception takes the first of them, nothing else changes them,
    no error is received, and the value channel is seen closed only when
    nothing is owed. *)
Lemma act_error_free (s : stream) (a : action) :
  error_free s ->
  error_free (fst (act s a))
  /\ match snd (act s a) with
     | GotCid c => owed_cids s = c :: owed_cids (fst (act s a))
     | GotErr _ => False
     | SawCidClosed => owed_cids s = [] /\ owed_cids (fst (act s a)) = []
     | _ => owed_cids (fst (act s a)) = owed_cids s
     end.
Proof.
  intros [(cc & ec & g & -> & Hcc & Hec & Hbc & Hbe & Hcl & Hex & Hnp) (Hbuf & Hgood & Hp)].
  destruct g as [script p]. cbn [at_ ci] in *.
  short_buffers; subst; try discriminate;
  match goal with H : ?c = true <-> _ |- _ => destruct c end;
  destruct a; destruct p;
  try (exfalso; intuition congruence);
  try subst script;
  cbn [act worker_step worker at_ ci cidChan errChan recv send close buf closed cap
       List.length Nat.ltb Nat.leb fst snd owed_cids List.app List.map];
  try (split; [split; [solve_well_formed | cbn [buf ci at_]; auto] | auto]).
  all: destruct script as [|[next_c [next_e|]] rest]; cbn [Next error_eqb];
    try (exfalso; inversion Hgood; discriminate);
    cbn [fst snd owed_cids at_ ci buf List.app List.map];
    (split; [split; [solve_well_formed | cbn [buf ci at_]; auto] | auto]);
    repeat apply conj; auto; now inversion Hgood.
Qed.

Lemma run_error_free (acts : list action) : forall s : stream,
  error_free s ->
  error_free (fst (run s acts))
  /\ (got_cids (snd (run s acts)) ++ owed_cids (fst (run s acts)))%list = owed_cids s
  /\ List.existsb is_GotErr (snd (run s acts)) = false
  /\ (In SawCidClosed (snd (run s acts)) -> owed_cids (fst (run s acts)) = []).
Proof.
  induction acts as [|a acts IH]; intros s Hs; cbn [run].
  - cbn [fst snd got_cids List.app List.existsb In].
    split; [exact Hs |]. split; [reflexivity |]. split; [reflexivity |]. intros [].
  - destruct (act_error_free s a Hs) as [Hs1 He].
    destruct (act s a) as [s1 e]. cbn [fst snd] in *.
    destruct (IH s1 Hs1) as (Hs2 & Hgot & Herr & Hclosed).
    destruct (run s1 acts) as [s2 es]. cbn [fst snd] in *.
    split; [exact Hs2 |].
    destruct e; cbn [got_cids List.existsb is_GotErr orb In];
      try (repeat apply conj;
           [ congruence | exact Herr
           | intros [Hx | Hx]; [discriminate Hx | now apply Hclosed] ]).
    + (* GotCid *)
      repeat apply conj.
      * cbn [List.app]. rewrite Hgot. now symmetry.
      * exact Herr.
      * intros [Hx | Hx]; [discriminate Hx | now apply Hclosed].
    + contradiction.
    + (* SawCidClosed *)
      destruct He as [He0 He1].
      assert (Hnil : owed_cids s2 = []).
      { rewrite He1 in Hgot. now destruct (got_cids es), (owed_cids s2). }
      repeat apply conj; [congruence | exact Herr | auto].
Qed.

Lemma iterator_of_error_free (cids : list Cid) :
  error_free (toChan (iterator_of cids)) /\ owed_cids (toChan (iterator_of cids)) = cids.
Proof.
  split; [split; [apply toChan_well_formed |] |].
  - cbn. repeat apply conj; auto.
    unfold iterator_of. apply List.Forall_forall. intros r Hr.
    apply List.in_map_iff in Hr. now destruct Hr as (c & <- & _).
  - cbn. unfold iterator_of. rewrite List.map_map. cbn [fst]. apply List.map_id.
Qed.

(** One round of the eager reader takes the next CID and leaves the
    goroutine in front of [ci.Next()] with both channels empty. *)
Lemma eager_round (c : Cid) (rest : CidIterator) :
  run (toChan ((c, None) :: rest)) [Work; Work; RecvCid]
  = (toChan rest, [CalledNext; SentCid c; GotCid c]).
Proof. reflexivity. Qed.

Lemma eager_end :
  run (toChan []) [Work; Work; RecvCid; RecvErr]
  = (Stream (Some (Chan 1 [] true)) (Some (Chan 1 [] true)) (Some (Goroutine [] Exited)),
     [CalledNext; ClosedBoth; SawCidClosed; SawErrClosed]).
Proof. reflexivity. Qed.

Lemma eager_reader_events (cids : list Cid) :
  snd (run (toChan (iterator_of cids)) (eager_reader (List.length cids)))
  = (List.concat (List.map (fun c => [CalledNext; SentCid c; GotCid c]) cids)
     ++ [CalledNext; ClosedBoth; SawCidClosed; SawErrClosed])%list.
Proof.
  unfold eager_reader.
  induction cids as [|c cids IH].
  - reflexivity.
  - cbn [List.length List.repeat List.concat List.map iterator_of].
    rewrite <- !List.app_assoc. rewrite run_app, eager_round. cbn [fst snd].
    fold (iterator_of cids). rewrite IH. reflexivity.
Qed.

(** A state whose goroutine is still in its loop and which has two errors
    to get rid of, counting the one that sits in the error channel. *)
Definition two_errors_owed (s : stream) : Prop :=
  well_formed s /\ running s /\ (2 <= owed_errors s)%nat.

Lemma act_two_errors_owed (s : stream) (a : action) :
  a <> RecvErr ->
  two_errors_owed s ->
  two_errors_owed (fst (act s a)) /\ is_closing (snd (act s a)) = false.
Proof.
  intros Ha [(cc & ec & g & -> & Hcc & Hec & Hbc & Hbe & Hcl & Hex & Hnp) [Hrun Howed]].
  destruct g as [script p]. cbn [at_ ci running owed_errors] in *.
  short_buffers; subst;
  match goal with H : ?c = true <-> _ |- _ => destruct c end;
  destruct a; try congruence; destruct p;
  try contradiction; try (exfalso; intuition congruence);
  cbn [List.length] in *; try lia;
  cbn [act worker_step worker at_ ci cidChan errChan recv send close buf closed cap
       List.length Nat.ltb Nat.leb fst snd];
  try (split;
       [ split; [solve_well_formed
                | split; [exact I | cbn [owed_errors at_ ci buf List.length List.app]; lia]]
       | reflexivity ]).
  all: destruct script as [|[next_c [next_e|]] rest];
    cbn [Next error_eqb errors_before_end] in *;
    try (destruct (error_eqb next_e io_EOF));
    cbn [List.length] in *; try lia;
    cbn [fst snd];
    (split;
     [ split; [solve_well_formed
              | split; [exact I | cbn [owed_errors at_ ci buf List.length List.app]; lia]]
     | reflexivity ]).
Qed.

Lemma run_two_errors_owed (acts : list action) : forall s : stream,
  Forall (fun a => a <> RecvErr) acts ->
  two_errors_owed s ->
  two_errors_owed (fst (run s acts))
  /\ List.existsb is_closing (snd (run s acts)) = false.
Proof.
  induction acts as [|a acts IH]; intros s Hacts Hs; cbn [run].
  - auto.
  - inversion Hacts as [|? ? Ha Hrest]; subst.
    destruct (act_two_errors_owed s a Ha Hs) as [Hs1 He].
    destruct (act s a) as [s1 e]. cbn [fst snd] in *.
    destruct (IH s1 Hrest Hs1) as [Hs2 Hes].
    destruct (run s1 acts) as [s2 es]. cbn [fst snd List.existsb] in *.
    now rewrite He, Hes.
Qed.

End Facts.
End adapter_runs_facts.

(** X1.  Whatever the iterator gives and whatever the schedule, a run of
    [toChan] never panics (no send on a closed channel, no double close),
    and neither channel ever holds more than one value. *)
Theorem toChan_never_panics_and_holds_one_value `{Cids}
    (ci : suppliers.CidIterator) (acts : list suppliers.action) :
  exists (cc : channel.chan Cid) (ec : channel.chan error) (g : suppliers.goroutine),
    fst (suppliers.run (suppliers.toChan ci) acts)
    = suppliers.Stream (Some cc) (Some ec) (Some g)
    /\ (List.length (channel.buf cc) <= 1)%nat
    /\ (List.length (channel.buf ec) <= 1)%nat
    /\ List.existsb adapter_runs.is_Panics
         (snd (suppliers.run (suppliers.toChan ci) acts)) = false.
Proof.
  destruct (adapter_runs_facts.run_well_formed acts _
              (adapter_runs_facts.toChan_well_formed ci))
    as [(cc & ec & g & Hs & _ & _ & Hbc & Hbe & _) Hp].
  exists cc, ec, g. auto 10.
Qed.

(** X2.  Over an iterator that gives the CIDs of a list and then ends,
    under every schedule: the values received from the value channel are a
    prefix of the list, in its order; no error is ever received; and once
    the value channel was seen closed, the whole list was received. *)
Theorem toChan_delivers_in_order_under_every_schedule `{Cids}
    (cids : list Cid) (acts : list suppliers.action) :
  let events :=
    snd (suppliers.run (suppliers.toChan (adapter_runs.iterator_of cids)) acts) in
  (exists rest : list Cid, cids = (adapter_runs.got_cids events ++ rest)%list)
  /\ List.existsb adapter_runs.is_GotErr events = false
  /\ (In suppliers.SawCidClosed events -> adapter_runs.got_cids events = cids).
Proof.
  intros events.
  destruct (adapter_runs_facts.iterator_of_error_free cids) as [Hfree Howed].
  destruct (adapter_runs_facts.run_error_free acts _ Hfree) as (_ & Hgot & Herr & Hclosed).
  fold events in Hgot, Herr, Hclosed. rewrite Howed in Hgot.
  repeat apply conj.
  - eexists. symmetry. exact Hgot.
  - exact Herr.
  - intros Hsaw. rewrite (Hclosed Hsaw), List.app_nil_r in Hgot. exact Hgot.
Qed.

(** X3.  Over an iterator that gives the CIDs of a list and then ends, a
    reader that takes every value as soon as it was sent receives all of
    them, in order, and then finds both channels closed, the error channel
    empty. *)
Theorem toChan_eager_reader_receives_all `{Cids} (cids : list Cid) :
  snd (suppliers.run (suppliers.toChan (adapter_runs.iterator_of cids))
         (adapter_runs.eager_reader (List.length cids)))
  = (List.concat
       (List.map (fun c => [suppliers.CalledNext; suppliers.SentCid c; suppliers.GotCid c])
          cids)
     ++ [suppliers.CalledNext; suppliers.ClosedBoth;
         suppliers.SawCidClosed; suppliers.SawErrClosed])%list.
Proof. apply adapter_runs_facts.eager_reader_events. Qed.

(** X4.  When the iterator gives two errors before it ends and nobody
    receives from the error channel, the goroutine of [toChan] never gets
    to its end: under every such schedule the channels are never closed, so
    a reader that waits for the value channel to close waits forever. *)
Theorem toChan_two_unread_errors_never_close `{Cids}
    (ci : suppliers.CidIterator) (acts : list suppliers.action) :
  (2 <= adapter_runs.errors_before_end ci)%nat ->
  Forall (fun a => a <> suppliers.RecvErr) acts ->
  List.existsb adapter_runs.is_closing (snd (suppliers.run (suppliers.toChan ci) acts)) = false
  /\ adapter_runs.running (fst (suppliers.run (suppliers.toChan ci) acts)).
Proof.
  intros Htwo Hacts.
  assert (Hstart : adapter_runs_facts.two_errors_owed (suppliers.toChan ci)).
  { split; [apply adapter_runs_facts.toChan_well_formed |]. split; [exact I |].
    cbn. exact Htwo. }
  destruct (adapter_runs_facts.run_two_errors_owed acts _ Hacts Hstart)
    as [(_ & Hrun & _) Hes].
  split; [exact Hes | exact Hrun].
Qed.

(** X4, witness: two failures in a row, and a reader of the value channel
    only. *)
Lemma toChan_two_unread_errors_never_close_witness :
  List.existsb adapter_runs.is_closing
    (snd (suppliers.run
            (suppliers.toChan (C := adapter_facts.sample_Cids)
               [(cid_Undef, Some adapter_facts.boom); (cid_Undef, Some adapter_facts.boom)])
            [suppliers.Work; suppliers.Work; suppliers.Work; suppliers.RecvCid;
             suppliers.Work; suppliers.Work; suppliers.Work; suppliers.RecvCid;
             suppliers.Work])) = false.
Proof.
  refine (proj1 (toChan_two_unread_errors_never_close (H := adapter_facts.sample_Cids)
                   _ _ _ _)).
  - cbn. lia.
  - repeat constructor; discriminate.
Defined.

(** * More on the registration records *)
Module datastore_frame.

(** A [Put] leaves the other keys alone. *)
Class DatastoreFrame (D : datastore.Datastore) : Prop := {
  Get_Put_ne : forall s k v s' k',
    datastore.Put s k v = (None, s') -> k' <> k -> datastore.Get s' k' = datastore.Get s k';
}.

End datastore_frame.

#[export] Instance MapDatastore_frame : datastore_frame.DatastoreFrame datastore.MapDatastore.
Proof.
  split; simpl. intros s k v s' k' [= <-] Hne.
  rewrite lookup_insert_ne; [reflexivity | congruence].
Qed.

Module car_supplier_more.

Import suppliers.

Section Records.

Context {C : Cids} {D : datastore.Datastore}.
Context {L : datastore.DatastoreLaws D} {F : datastore_frame.DatastoreFrame D}.
Variable ReadOption : Type.
Variable newCarCidIterator : string -> list ReadOption -> error + CidIterator.

(** After [PutWithID], the forward record holds the cleaned path, unless
    the two keys are one. *)
Lemma PutWithID_forward (cs cs1 : CarSupplier ReadOption) (id id' : Cid) (path : string) :
  PutWithID ReadOption cs id path = (inr id', cs1) ->
  opts cs1 = opts cs
  /\ datastore.Get (ds cs1) (toPathKey (GoPath.Clean path)) = inr (cid_Bytes id)
  /\ (toCarIdKey id <> toPathKey (GoPath.Clean path) ->
      datastore.Get (ds cs1) (toCarIdKey id) = inr (bytes_of_string (GoPath.Clean path)))
  /\ (forall k, k <> toCarIdKey id -> k <> toPathKey (GoPath.Clean path) ->
      datastore.Get (ds cs1) k = datastore.Get (ds cs) k).
Proof.
  unfold PutWithID.
  destruct (datastore.Put (ds cs) (toCarIdKey id) (bytes_of_string (GoPath.Clean path)))
    as [[e|] s] eqn:Hput1; [discriminate |].
  destruct (datastore.Put s (toPathKey (GoPath.Clean path)) (cid_Bytes id))
    as [[e|] s'] eqn:Hput2; [discriminate |].
  intros [= <- <-]. cbn [ds opts with_ds]. repeat apply conj.
  - reflexivity.
  - now apply (datastore.Get_Put s).
  - intros Hne. rewrite (datastore_frame.Get_Put_ne s _ _ s' _ Hput2 Hne).
    now apply (datastore.Get_Put (ds cs)).
  - intros k Hk1 Hk2.
    rewrite (datastore_frame.Get_Put_ne s _ _ s' _ Hput2 Hk2).
    exact (datastore_frame.Get_Put_ne (ds cs) _ _ s _ Hput1 Hk1).
Qed.

Lemma Put_is_PutWithID (cs cs1 : CarSupplier ReadOption) (id : Cid) (path : string) :
  Put ReadOption newCarCidIterator cs path = (inr id, cs1) ->
  PutWithID ReadOption cs id path = (inr id, cs1).
Proof.
  unfold Put.
  destruct (generateID ReadOption newCarCidIterator (GoPath.Clean path) []) as [e|id0];
    [discriminate |].
  intros H. pose proof H as H'. apply car_supplier_facts.PutWithID_inr in H'.
  destruct H' as [-> _].
  unfold PutWithID in *. now rewrite GoPath_facts.Clean_idempotent in H.
Qed.

(** What a successful [Remove] leaves: neither record, and the other keys
    as they were. *)
Lemma Remove_leaves (cs cs1 : CarSupplier ReadOption) (rid : Cid) (path : string) :
  Remove ReadOption cs path = (inr rid, cs1) ->
  opts cs1 = opts cs
  /\ datastore.Get (ds cs1) (toPathKey (GoPath.Clean path)) = inl datastore_ErrNotFound
  /\ datastore.Get (ds cs1) (toCarIdKey rid) = inl datastore_ErrNotFound
  /\ (forall k, k <> toCarIdKey rid -> k <> toPathKey (GoPath.Clean path) ->
      datastore.Get (ds cs1) k = datastore.Get (ds cs) k).
Proof.
  unfold Remove, getCarIDFromPathKey.
  destruct (datastore.Get (ds cs) (toPathKey (GoPath.Clean path))) as [e|b].
  { destruct (error_eqb e datastore_ErrNotFound); discriminate. }
  destruct (cid_CidFromBytes b) as [e|[n c]] eqn:Hdec.
  { destruct (error_eqb e datastore_ErrNotFound); discriminate. }
  destruct (datastore.Delete (ds cs) (toCarIdKey c)) as [[e|] s] eqn:Hd1; [discriminate |].
  destruct (datastore.Delete s (toPathKey (GoPath.Clean path))) as [[e|] s'] eqn:Hd2;
    [discriminate |].
  intros [= <- <-]. cbn [ds opts with_ds]. repeat apply conj.
  - reflexivity.
  - now apply (datastore.Get_Delete s).
  - destruct (String.eqb (toCarIdKey c) (toPathKey (GoPath.Clean path))) eqn:Hk.
    + apply String.eqb_eq in Hk. rewrite Hk. now apply (datastore.Get_Delete s).
    + apply String.eqb_neq in Hk.
      rewrite (datastore.Get_Delete_ne s _ _ s' Hd2 Hk).
      now apply (datastore.Get_Delete (ds cs)).
  - intros k Hk1 Hk2.
    rewrite (datastore.Get_Delete_ne s _ _ s' Hd2 Hk2).
    exact (datastore.Get_Delete_ne (ds cs) _ _ s Hd1 Hk1).
Qed.

Lemma Supply_found (cs : CarSupplier ReadOption) (key : Cid) (path : string) :
  datastore.Get (ds cs) (toCarIdKey key) = inr (bytes_of_string path) ->
  Supply ReadOption newCarCidIterator cs key = newCarCidIterator path (opts cs).
Proof.
  intros H. unfold Supply. rewrite H. now rewrite string_of_bytes_of_string.
Qed.

Lemma Remove_not_found (cs : CarSupplier ReadOption) (path : string) :
  datastore.Get (ds cs) (toPathKey (GoPath.Clean path)) = inl datastore_ErrNotFound ->
  Remove ReadOption cs path = (inl suppliers_ErrNotFound, cs).
Proof. intros H. unfold Remove, getCarIDFromPathKey. now rewrite H. Qed.

(** The reader over an iterator that never fails gives the hashes of its
    CIDs, one after the other. *)
Lemma read_hashes (cids : list Cid) : forall fuel : nat,
  (List.length cids < fuel)%nat ->
  NewCidIteratorReadCloser fuel (adapter_runs.iterator_of cids) (fun c => inr (cid_Hash c))
  = inr (List.concat (List.map cid_Hash cids)).
Proof.
  induction cids as [|c cids IH]; intros fuel Hfuel;
    (destruct fuel as [|fuel]; [cbn [List.length] in Hfuel; lia |]).
  - reflexivity.
  - cbn [adapter_runs.iterator_of List.map NewCidIteratorReadCloser Next List.concat].
    fold (adapter_runs.iterator_of cids).
    rewrite IH by (cbn [List.length] in Hfuel; lia). reflexivity.
Qed.

(** The reader over an iterator that fails after some CIDs gives the
    iterator's error. *)
Lemma read_fails (cids : list Cid) (c : Cid) (e : error) (rest : CidIterator) :
  error_eqb e io_EOF = false ->
  forall fuel : nat,
    (List.length cids < fuel)%nat ->
    NewCidIteratorReadCloser fuel
      (adapter_runs.iterator_of cids ++ (c, Some e) :: rest)%list (fun c => inr (cid_Hash c))
    = inl e.
Proof.
  intros He.
  induction cids as [|c0 cids IH]; intros fuel Hfuel;
    (destruct fuel as [|fuel]; [cbn [List.length] in Hfuel; lia |]).
  - cbn [adapter_runs.iterator_of List.map List.app NewCidIteratorReadCloser Next].
    now rewrite He.
  - cbn [adapter_runs.iterator_of List.map List.app NewCidIteratorReadCloser Next].
    fold (adapter_runs.iterator_of cids).
    rewrite IH by (cbn [List.length] in Hfuel; lia). reflexivity.
Qed.

(** [Supply] after [Put] or [PutWithID]. *)
Lemma Supply_after_Put (cs cs1 : CarSupplier ReadOption) (path : string) (id0 id : Cid) :
  Put ReadOption newCarCidIterator cs path = (inr id, cs1)
  \/ PutWithID ReadOption cs id0 path = (inr id, cs1) ->
  toCarIdKey id <> toPathKey (GoPath.Clean path) ->
  Supply ReadOption newCarCidIterator cs1 id
  = newCarCidIterator (GoPath.Clean path) (opts cs).
Proof.
  intros Hput Hkeys.
  assert (H : PutWithID ReadOption cs id path = (inr id, cs1)).
  { destruct Hput as [Hput | Hput].
    - now apply Put_is_PutWithID.
    - pose proof Hput as H'. apply car_supplier_facts.PutWithID_inr in H'.
      destruct H' as [-> _]. exact Hput. }
  apply PutWithID_forward in H. destruct H as (Hopts & _ & Hfwd & _).
  rewrite <- Hopts. apply Supply_found. now apply Hfwd.
Qed.

(** [generateID] of a CAR that is read to its end. *)
Lemma generateID_reads (path : string) (opts : list ReadOption) (cids : list Cid) :
  newCarCidIterator path opts = inr (adapter_runs.iterator_of cids) ->
  generateID ReadOption newCarCidIterator path opts
  = inr (cid_NewCidV1 multicodec.DagCbor
           (multihash.Encode (sha256.Sum256 (List.concat (List.map cid_Hash cids)))
              multihash.SHA2_256)).
Proof.
  intros Hopen. unfold generateID. rewrite Hopen.
  rewrite read_hashes
    by (unfold adapter_runs.iterator_of; rewrite List.length_map; lia).
  reflexivity.
Qed.

(** [generateID] of a CAR whose iterator fails. *)
Lemma generateID_fails (path : string) (opts : list ReadOption) (cids : list Cid)
    (c : Cid) (e : error) (rest : CidIterator) :
  error_eqb e io_EOF = false ->
  newCarCidIterator path opts
  = inr (adapter_runs.iterator_of cids ++ (c, Some e) :: rest)%list ->
  generateID ReadOption newCarCidIterator path opts = inl e.
Proof.
  intros He Hopen. unfold generateID. rewrite Hopen.
  rewrite read_fails; [reflexivity | exact He |].
  rewrite List.length_app. unfold adapter_runs.iterator_of.
  rewrite List.length_map. cbn [List.length]. lia.
Qed.

End Records.

End car_supplier_more.

(** More of the sample supplier: the CAR registered first under the
    identifier of its first block, then under its own identifier. *)
Module car_supplier_sample_more.

Import suppliers adapter_facts car_supplier_sample.

Definition registered_as_block_1 : @CarSupplier datastore.MapDatastore unit :=
  NewCarSupplier
    (<[toPathKey sample_path := cid_Bytes block_1]>
       (<[toCarIdKey block_1 := bytes_of_string sample_path]>
          (datastore.NewMapDatastore : gmap string (list byte)))
     : @datastore.store datastore.MapDatastore)
    [].

Definition registered_again : @CarSupplier datastore.MapDatastore unit :=
  NewCarSupplier
    (<[toPathKey sample_path := cid_Bytes sample_id]>
       (<[toCarIdKey sample_id := bytes_of_string sample_path]>
          (ds registered_as_block_1 : gmap string (list byte)))
     : @datastore.store datastore.MapDatastore)
    [].

Definition removed_again : @CarSupplier datastore.MapDatastore unit :=
  NewCarSupplier
    (delete (toPathKey sample_path)
       (delete (toCarIdKey sample_id) (ds registered_again : gmap string (list byte)))
     : @datastore.store datastore.MapDatastore)
    [].

Lemma PutWithID_block_1 :
  PutWithID unit empty_supplier block_1 sample_path = (inr block_1, registered_as_block_1).
Proof. reflexivity. Qed.

Lemma PutWithID_again :
  PutWithID unit registered_as_block_1 sample_id sample_path
  = (inr sample_id, registered_again).
Proof. reflexivity. Qed.

Lemma Remove_again :
  Remove (C := sample_Cids) unit registered_again sample_path = (inr sample_id, removed_again).
Proof. reflexivity. Qed.

Lemma keys_differ :
  toCarIdKey block_1 <> toCarIdKey sample_id
  /\ toCarIdKey block_1 <> toPathKey (GoPath.Clean sample_path)
  /\ toCarIdKey sample_id <> toPathKey (GoPath.Clean sample_path).
Proof. repeat apply conj; intros H; vm_compute in H; discriminate H. Qed.

Definition broken_car (path : string) (opts : list unit)
    : error + @CidIterator sample_Cids :=
  inr [(block_1, None); (cid_Undef, Some boom)].

Lemma open_sample :
  open_car sample_path [] = inr (adapter_runs.iterator_of [block_1; block_2]).
Proof. reflexivity. Qed.

End car_supplier_sample_more.

(** X5.  After [Put] or [PutWithID] of a path has succeeded, [Supply] of
    the identifier it returned opens the CAR at the cleaned path, with the
    supplier's options, provided the identifier's key is not the path's
    key. *)
Theorem Supply_after_Put_opens_the_cleaned_path
    {C : Cids} {D : datastore.Datastore}
    {L : datastore.DatastoreLaws D} {F : datastore_frame.DatastoreFrame D}
    (ReadOption : Type)
    (newCarCidIterator : string -> list ReadOption -> error + suppliers.CidIterator)
    (cs cs1 : suppliers.CarSupplier ReadOption) (path : string) (id0 id : Cid) :
  suppliers.Put ReadOption newCarCidIterator cs path = (inr id, cs1)
  \/ suppliers.PutWithID ReadOption cs id0 path = (inr id, cs1) ->
  suppliers.toCarIdKey id <> suppliers.toPathKey (GoPath.Clean path) ->
  suppliers.Supply ReadOption newCarCidIterator cs1 id
  = newCarCidIterator (GoPath.Clean path) (suppliers.opts cs).
Proof. apply car_supplier_more.Supply_after_Put. Qed.

(** X5, witness: the sample CAR, put and supplied. *)
Lemma Supply_after_Put_opens_the_cleaned_path_witness :
  suppliers.Supply unit car_supplier_sample.open_car car_supplier_sample.registered
    car_supplier_sample.sample_id
  = car_supplier_sample.open_car (GoPath.Clean car_supplier_sample.sample_path) [].
Proof.
  exact (Supply_after_Put_opens_the_cleaned_path unit car_supplier_sample.open_car
           car_supplier_sample.empty_supplier car_supplier_sample.registered
           car_supplier_sample.sample_path car_supplier_sample.sample_id
           car_supplier_sample.sample_id
           (or_introl car_supplier_sample.Put_sample)
           (proj2 (proj2 car_supplier_sample_more.keys_differ))).
Defined.

(** X6.  A [Remove] that succeeded left neither record: a second [Remove]
    of the path fails with the supplier's [ErrNotFound] and changes nothing,
    and [Supply] of the identifier that [Remove] returned fails with
    [ErrNotFound] as well. *)
Theorem Remove_twice_is_not_found
    {C : Cids} {D : datastore.Datastore} {L : datastore.DatastoreLaws D}
    (ReadOption : Type)
    (newCarCidIterator : string -> list ReadOption -> error + suppliers.CidIterator)
    (cs cs1 : suppliers.CarSupplier ReadOption) (path : string) (rid : Cid) :
  suppliers.Remove ReadOption cs path = (inr rid, cs1) ->
  suppliers.Remove ReadOption cs1 path = (inl suppliers_ErrNotFound, cs1)
  /\ suppliers.Supply ReadOption newCarCidIterator cs1 rid = inl suppliers_ErrNotFound.
Proof.
  intros Hrm. apply car_supplier_more.Remove_leaves in Hrm.
  destruct Hrm as (_ & Hpath & Hid & _). split.
  - now apply car_supplier_more.Remove_not_found.
  - now apply car_supplier_facts.Supply_not_found.
Qed.

(** X6, witness: the sample CAR removed, and removed again. *)
Lemma Remove_twice_is_not_found_witness :
  suppliers.Remove (C := adapter_facts.sample_Cids) unit car_supplier_sample.empty_supplier
    car_supplier_sample.sample_path
  = (inl suppliers_ErrNotFound, car_supplier_sample.empty_supplier).
Proof.
  exact (proj1 (Remove_twice_is_not_found unit car_supplier_sample.open_car
                  car_supplier_sample.registered car_supplier_sample.empty_supplier
                  car_supplier_sample.sample_path car_supplier_sample.sample_id
                  car_supplier_sample.Remove_sample)).
Defined.

(** X7.  A path put again under another identifier keeps its first forward
    record: [PutWithID] overwrites the reverse record only, and [Remove]
    deletes the records of the identifier it finds there.  So after the
    [Remove], the first identifier is still supplied, from the removed path,
    and the second is not. *)
Theorem Remove_after_second_Put_leaves_the_first_record
    {C : Cids} {D : datastore.Datastore}
    {L : datastore.DatastoreLaws D} {F : datastore_frame.DatastoreFrame D}
    (ReadOption : Type)
    (newCarCidIterator : string -> list ReadOption -> error + suppliers.CidIterator)
    (cs cs1 cs2 cs3 : suppliers.CarSupplier ReadOption) (path : string)
    (id1 id2 rid : Cid) :
  suppliers.PutWithID ReadOption cs id1 path = (inr id1, cs1) ->
  suppliers.PutWithID ReadOption cs1 id2 path = (inr id2, cs2) ->
  suppliers.Remove ReadOption cs2 path = (inr rid, cs3) ->
  car_supplier_facts.decodes_back id2 ->
  suppliers.toCarIdKey id1 <> suppliers.toCarIdKey id2 ->
  suppliers.toCarIdKey id1 <> suppliers.toPathKey (GoPath.Clean path) ->
  rid = id2
  /\ suppliers.Supply ReadOption newCarCidIterator cs3 id1
     = newCarCidIterator (GoPath.Clean path) (suppliers.opts cs)
  /\ suppliers.Supply ReadOption newCarCidIterator cs3 id2 = inl suppliers_ErrNotFound.
Proof.
  intros Hput1 Hput2 Hrm Hid2 Hids Hkey.
  apply car_supplier_more.PutWithID_forward in Hput1.
  destruct Hput1 as (Hopts1 & _ & Hfwd1 & _). specialize (Hfwd1 Hkey).
  apply car_supplier_more.PutWithID_forward in Hput2.
  destruct Hput2 as (Hopts2 & Hrev2 & _ & Hframe2).
  destruct (car_supplier_facts.Remove_inr _ _ _ _ _ _ Hid2 Hrev2 Hrm) as [-> Hgone].
  apply car_supplier_more.Remove_leaves in Hrm.
  destruct Hrm as (Hopts3 & _ & _ & Hframe3).
  repeat apply conj.
  - reflexivity.
  - rewrite <- Hopts1, <- Hopts2, <- Hopts3. apply car_supplier_more.Supply_found.
    rewrite (Hframe3 _ Hids Hkey), (Hframe2 _ Hids Hkey). exact Hfwd1.
  - now apply car_supplier_facts.Supply_not_found.
Qed.

(** X7, witness: the sample CAR put under the identifier of its first
    block, put again under its own, and removed. *)
Lemma Remove_after_second_Put_leaves_the_first_record_witness :
  suppliers.Supply unit car_supplier_sample.open_car car_supplier_sample_more.removed_again
    car_supplier_sample.block_1
  = car_supplier_sample.open_car (GoPath.Clean car_supplier_sample.sample_path) [].
Proof.
  exact (proj1 (proj2 (Remove_after_second_Put_leaves_the_first_record unit
    car_supplier_sample.open_car
    car_supplier_sample.empty_supplier car_supplier_sample_more.registered_as_block_1
    car_supplier_sample_more.registered_again car_supplier_sample_more.removed_again
    car_supplier_sample.sample_path car_supplier_sample.block_1
    car_supplier_sample.sample_id car_supplier_sample.sample_id
    car_supplier_sample_more.PutWithID_block_1 car_supplier_sample_more.PutWithID_again
    car_supplier_sample_more.Remove_again car_supplier_sample.sample_id_decodes_back
    (proj1 car_supplier_sample_more.keys_differ)
    (proj1 (proj2 car_supplier_sample_more.keys_differ))))).
Defined.

(** X8.  The identifier [generateID] gives a CAR is made of the hashes of
    its CIDs only: it is the CID, version one and DAG-CBOR, of the SHA-256
    multihash of those hashes one after the other.  So a second CAR whose
    CIDs have the same hashes in the same order gets the same identifier,
    whatever its path, its options and the rest of its CIDs. *)
Theorem generateID_is_made_of_the_hashes
    `{Cids} (ReadOption : Type)
    (newCarCidIterator : string -> list ReadOption -> error + suppliers.CidIterator)
    (path : string) (opts : list ReadOption) (cids : list Cid) :
  newCarCidIterator path opts = inr (adapter_runs.iterator_of cids) ->
  suppliers.generateID ReadOption newCarCidIterator path opts
  = inr (cid_NewCidV1 multicodec.DagCbor
           (multihash.Encode (sha256.Sum256 (List.concat (List.map cid_Hash cids)))
              multihash.SHA2_256))
  /\ forall (path' : string) (opts' : list ReadOption) (cids' : list Cid),
       newCarCidIterator path' opts' = inr (adapter_runs.iterator_of cids') ->
       List.map cid_Hash cids' = List.map cid_Hash cids ->
       suppliers.generateID ReadOption newCarCidIterator path' opts'
       = suppliers.generateID ReadOption newCarCidIterator path opts.
Proof.
  intros Hopen.
  rewrite (car_supplier_more.generateID_reads _ _ _ _ _ Hopen).
  split; [reflexivity |].
  intros path' opts' cids' Hopen' Hsame.
  rewrite (car_supplier_more.generateID_reads _ _ _ _ _ Hopen'). now rewrite Hsame.
Qed.

(** X8, witness: the identifier of the sample CAR. *)
Lemma generateID_is_made_of_the_hashes_witness :
  suppliers.generateID unit car_supplier_sample.open_car car_supplier_sample.sample_path []
  = inr (cid_NewCidV1 multicodec.DagCbor
           (multihash.Encode
              (sha256.Sum256
                 (List.concat
                    (List.map cid_Hash
                       [car_supplier_sample.block_1; car_supplier_sample.block_2])))
              multihash.SHA2_256)).
Proof.
  exact (proj1 (generateID_is_made_of_the_hashes unit car_supplier_sample.open_car
                  car_supplier_sample.sample_path []
                  [car_supplier_sample.block_1; car_supplier_sample.block_2]
                  car_supplier_sample_more.open_sample)).
Defined.

(** X9.  [Put] of a CAR that cannot be read to its end registers nothing:
    when the CAR cannot be opened, or its iterator fails with an error other
    than [io.EOF] after any number of CIDs, [Put] returns that error and
    leaves the supplier as it was. *)
Theorem Put_of_an_unreadable_CAR_registers_nothing
    {C : Cids} {D : datastore.Datastore} (ReadOption : Type)
    (newCarCidIterator : string -> list ReadOption -> error + suppliers.CidIterator)
    (cs : suppliers.CarSupplier ReadOption) (path : string) (e : error) :
  newCarCidIterator (GoPath.Clean path) [] = inl e
  \/ (error_eqb e io_EOF = false
      /\ exists (cids : list Cid) (c : Cid) (rest : suppliers.CidIterator),
           newCarCidIterator (GoPath.Clean path) []
           = inr (adapter_runs.iterator_of cids ++ (c, Some e) :: rest)%list) ->
  suppliers.Put ReadOption newCarCidIterator cs path = (inl e, cs).
Proof.
  intros [Hopen | (He & cids & c & rest & Hopen)]; unfold suppliers.Put.
  - unfold suppliers.generateID. now rewrite Hopen.
  - now rewrite (car_supplier_more.generateID_fails _ _ _ _ _ _ _ _ He Hopen).
Qed.

(** X9, witness: a CAR that breaks after its first block. *)
Lemma Put_of_an_unreadable_CAR_registers_nothing_witness :
  suppliers.Put unit car_supplier_sample_more.broken_car car_supplier_sample.registered
    "broken.car"
  = (inl adapter_facts.boom, car_supplier_sample.registered).
Proof.
  apply (Put_of_an_unreadable_CAR_registers_nothing unit
           car_supplier_sample_more.broken_car car_supplier_sample.registered
           "broken.car" adapter_facts.boom).
  right. split; [reflexivity |].
  exists [car_supplier_sample.block_1], cid_Undef, []. reflexivity.
Defined.

(** * More of the ingest verifier *)

From Stdlib Require Floats.

(** Go's [float64] comparisons with a value that is not a number: all of
    them are false. *)
Module float64_facts.

Lemma is_nan_Prim2SF (x : float) :
  PrimFloat.is_nan x = true -> FloatOps.Prim2SF x = SpecFloat.S754_nan.
Proof.
  unfold PrimFloat.is_nan. rewrite FloatAxioms.eqb_spec.
  destruct (FloatOps.Prim2SF x) as [s | s | | s m e]; [| | reflexivity |];
    unfold SpecFloat.SFeqb, SpecFloat.SFcompare.
  - discriminate.
  - destruct s; discriminate.
  - rewrite Z.compare_refl.
    change (PosDef.Pos.compare_cont Eq m m) with (Pos.compare_cont Eq m m).
    rewrite Pos.compare_cont_refl. destruct s; discriminate.
Qed.

Lemma nan_compares_false (x : float) :
  PrimFloat.is_nan x = true ->
  forall y : float,
    PrimFloat.leb x y = false /\ PrimFloat.leb y x = false
    /\ PrimFloat.ltb x y = false /\ PrimFloat.ltb y x = false
    /\ PrimFloat.eqb x y = false.
Proof.
  intros Hx y. apply is_nan_Prim2SF in Hx.
  rewrite !FloatAxioms.leb_spec, !FloatAxioms.ltb_spec, FloatAxioms.eqb_spec, Hx.
  unfold SpecFloat.SFleb, SpecFloat.SFltb, SpecFloat.SFeqb, SpecFloat.SFcompare.
  destruct (FloatOps.Prim2SF y); auto.
Qed.

End float64_facts.

(** [hex.EncodeToString] tells byte strings apart. *)
Module hex_facts.

Definition undigit (a : ascii) : Z :=
  let n := Z.of_N (N_of_ascii a) in
  if n <? 58 then n - 48 else n - 87.

Lemma undigit_digit (n : Z) : 0 <= n < 16 -> undigit (hex.digit n) = n.
Proof.
  intros Hn. unfold undigit, hex.digit.
  rewrite N_ascii_embedding by (destruct (n <? 10) eqn:E; lia).
  rewrite Z2N.id by (destruct (n <? 10); lia).
  destruct (n <? 10) eqn:E; [apply Z.ltb_lt in E | apply Z.ltb_ge in E].
  - destruct (48 + n <? 58) eqn:E'; [lia | apply Z.ltb_ge in E'; lia].
  - destruct (87 + n <? 58) eqn:E'; [apply Z.ltb_lt in E'; lia | lia].
Qed.

Lemma byte_to_Z_bounded (x : byte) : 0 <= byte_to_Z x < 256.
Proof. unfold byte_to_Z. pose proof (Byte.to_N_bounded x). lia. Qed.

Lemma byte_to_Z_inj (x y : byte) : byte_to_Z x = byte_to_Z y -> x = y.
Proof.
  unfold byte_to_Z. intros H. apply N2Z.inj in H.
  pose proof (Byte.of_to_N x) as Hx. rewrite H, Byte.of_to_N in Hx. congruence.
Qed.

Lemma EncodeToString_inj (a : list byte) :
  forall b : list byte, hex.EncodeToString a = hex.EncodeToString b -> a = b.
Proof.
  induction a as [|x a IH]; intros [|y b] H; cbn [hex.EncodeToString List.fold_right] in H;
    try discriminate; [reflexivity |].
  injection H as Hhi Hlo Hrest.
  pose proof (byte_to_Z_bounded x) as Bx. pose proof (byte_to_Z_bounded y) as By.
  apply (f_equal undigit) in Hhi, Hlo.
  rewrite !undigit_digit in Hhi by (split; [apply Z.div_pos | apply Z.div_lt_upper_bound]; lia).
  rewrite !undigit_digit in Hlo by (apply Z.mod_pos_bound; lia).
  f_equal.
  - apply byte_to_Z_inj.
    rewrite (Z.div_mod (byte_to_Z x) 16), (Z.div_mod (byte_to_Z y) 16) by lia. lia.
  - apply IH. exact Hrest.
Qed.

End hex_facts.

(** ** The command's action: [doVerifyIngest] *)
Module verify_ingest_command.

Import verify_ingest.

Section Command.

Context {R : Rand}.

Definition set_carPath (g : globals) (p : string) : globals :=
  Globals p (carIndexPath g) (indexerAddr g) (provId g) (samplingProb g) (rngSeed g) (include g).

Definition set_carIndexPath (g : globals) (p : string) : globals :=
  Globals (carPath g) p (indexerAddr g) (provId g) (samplingProb g) (rngSeed g) (include g).

(** What the command writes: the help of a command, or what [printAndExit]
    prints. *)
Inductive shown : Type :=
  | ShowCommandHelp (command : string)   (* cli.ShowCommandHelp(cctx, command) *)
  | Output (p : printed).

Definition showVerifyIngestHelp : list shown :=
  (* Ignore error since it only occues if usage is not found for command. *)
  [ShowCommandHelp "verify-ingest"].

Definition errVerifyIngestMultipleSources : list shown * ExitCoder :=
  (showVerifyIngestHelp,
   Exit "Multiple multihash sources are specified. Only a single source at a time is supported." 1).

(** [doVerifyIngest].  [getOrGenerateCarIndex] is the index that function
    gives for the CAR at a path, and [readCarIndex] what
    [doVerifyIngestFromCarIndex] reads from the index file at a path, up to
    its cast to an iterable index. *)
Definition doVerifyIngest
    (getOrGenerateCarIndex readCarIndex : string -> error + IterableIndex)
    (httpfinderclient_New : string -> error + Client) (g : globals)
    : list shown * outcome * globals :=
  if negb (String.eqb (carPath g) "") then
    if negb (String.eqb (carIndexPath g) "") then
      let '(out, e) := errVerifyIngestMultipleSources in (out, exits e, g)
    else
      let g := set_carPath g (GoPath.Clean (carPath g)) in
      let '(out, o, g) :=
        doVerifyIngestFromCar (getOrGenerateCarIndex (carPath g)) httpfinderclient_New g in
      (List.map Output out, o, g)
  else if String.eqb (carIndexPath g) "" then
    (showVerifyIngestHelp, exits (Exit "Exactly one multihash source must be specified." 1), g)
  else
    let g := set_carIndexPath g (GoPath.Clean (carIndexPath g)) in
    let '(out, o, g) :=
      doVerifyIngestFromCarIndex (readCarIndex (carIndexPath g)) httpfinderclient_New g in
    (List.map Output out, o, g).

End Command.

End verify_ingest_command.

Module verify_ingest_more.

Import verify_ingest verify_ingest_facts.

Section Facts.

Context {R : Rand}.

(** The callback of [ForEach] appends to what was retained before, a
    selection of the records' multihashes, in their order. *)
Lemma forEach_include_sublist (recs : list (Multihash * Z)) :
  forall (mhs : list Multihash) (g : globals),
    exists l : list Multihash,
      fst (forEach_include recs mhs g) = (mhs ++ l)%list
      /\ l `sublist_of` List.map fst recs.
Proof.
  induction recs as [|[mh off] recs IH]; intros mhs g; cbn [forEach_include List.map fst].
  - exists []. split; [now rewrite List.app_nil_r | constructor].
  - destruct (call_include g) as [yes g1].
    destruct (IH (if yes then (mhs ++ [mh])%list else mhs) g1) as (l & Hl & Hsub).
    rewrite Hl. destruct yes.
    + exists (mh :: l). split; [now rewrite <- List.app_assoc | now apply sublist_skip].
    + exists l. split; [reflexivity | now apply sublist_cons].
Qed.

Lemma retained_sublist (idx : IterableIndex) (g : globals) :
  retained idx g `sublist_of` List.map fst (records idx).
Proof.
  unfold retained.
  destruct (forEach_include_sublist (records idx) [] g) as (l & Hl & Hsub).
  now rewrite Hl.
Qed.

(** A selector that never says yes retains nothing. *)
Lemma forEach_include_never (recs : list (Multihash * Z)) :
  forall (mhs : list Multihash) (g : globals),
    (forall y : float, PrimFloat.leb y (samplingProb g) = false) ->
    include g <> include_every ->
    fst (forEach_include recs mhs g) = mhs.
Proof.
  induction recs as [|[mh off] recs IH]; intros mhs g Hnever Hinc;
    cbn [forEach_include]; [reflexivity |].
  unfold call_include. destruct (include g) as [|r] eqn:Hg; [contradiction |].
  destruct (Float64 r) as [x r']. rewrite Hnever.
  apply IH; cbn [samplingProb include set_include]; auto; discriminate.
Qed.

(** The lookup table made of a response, by induction on the response
    from its end. *)
Lemma make_mhLookup_snoc (rs : list MultihashResult) (mr : MultihashResult) :
  make_mhLookup (rs ++ [mr])
  = <[Multihash_String (MultihashOf mr) := mr]> (make_mhLookup rs).
Proof. unfold make_mhLookup. now rewrite List.fold_left_app. Qed.

Lemma Multihash_String_inj (a b : Multihash) :
  Multihash_String a = Multihash_String b -> a = b.
Proof. apply hex_facts.EncodeToString_inj. Qed.

Lemma make_mhLookup_Some (rs : list MultihashResult) (mh : Multihash) (mr : MultihashResult) :
  make_mhLookup rs !! Multihash_String mh = Some mr ->
  In mr rs /\ MultihashOf mr = mh.
Proof.
  induction rs as [|x rs IH] using List.rev_ind.
  - unfold make_mhLookup. cbn [List.fold_left]. now rewrite lookup_empty.
  - rewrite make_mhLookup_snoc, lookup_insert.
    destruct (decide (Multihash_String (MultihashOf x) = Multihash_String mh)) as [Hk | Hk].
    + intros [= ->]. split; [apply List.in_or_app; right; now left |].
      now apply Multihash_String_inj.
    + intros H. destruct (IH H) as [Hin Hmh]. split; [| exact Hmh].
      apply List.in_or_app. now left.
Qed.

Lemma make_mhLookup_last (rs1 rs2 : list MultihashResult) (mr : MultihashResult) :
  Forall (fun mr' => MultihashOf mr' <> MultihashOf mr) rs2 ->
  make_mhLookup (rs1 ++ mr :: rs2) !! Multihash_String (MultihashOf mr) = Some mr.
Proof.
  induction rs2 as [|x rs2 IH] using List.rev_ind; intros Hno.
  - now rewrite make_mhLookup_snoc, lookup_insert_eq.
  - apply List.Forall_app in Hno. destruct Hno as [Hno Hx].
    apply List.Forall_inv in Hx.
    change (rs1 ++ mr :: rs2 ++ [x])%list with (rs1 ++ (mr :: rs2) ++ [x])%list.
    rewrite List.app_assoc, make_mhLookup_snoc, lookup_insert_ne.
    + now apply IH.
    + intros Hk. apply Hx. now apply Multihash_String_inj.
Qed.

Lemma make_mhLookup_None (rs : list MultihashResult) (mh : Multihash) :
  make_mhLookup rs !! Multihash_String mh = None
  <-> Forall (fun mr => MultihashOf mr <> mh) rs.
Proof.
  induction rs as [|x rs IH] using List.rev_ind.
  - unfold make_mhLookup. cbn [List.fold_left]. rewrite lookup_empty. split; auto.
  - rewrite make_mhLookup_snoc, lookup_insert, List.Forall_app.
    destruct (decide (Multihash_String (MultihashOf x) = Multihash_String mh)) as [Hk | Hk].
    + apply Multihash_String_inj in Hk. split; [discriminate |].
      intros [_ Hx]. apply List.Forall_inv in Hx. contradiction.
    + rewrite IH. split.
      * intros H. split; [exact H |]. constructor; [| constructor].
        intros Heq. apply Hk. now rewrite Heq.
      * now intros [H _].
Qed.

(** The state a run of the verifier leaves keeps the flags. *)
Lemma verify_frame (finder : Client) (idx : IterableIndex) (g g' : globals)
    (r : error + verifyIngestResult) :
  verifyIngestFromCarIterableIndex finder idx g = (r, g') ->
  g' = snd (forEach_include (records idx) [] g).
Proof.
  unfold verifyIngestFromCarIterableIndex.
  destruct (forEach_include (records idx) [] g) as [mhs g1]. cbn [snd].
  destruct (failure idx); [now intros [= _ <-] |].
  destruct (finder mhs) as [e | response]; [now intros [= _ <-] |].
  destruct (MultihashResults response); now intros [= _ <-].
Qed.

(** The verdict of a tally whose counters count the classes. *)
Lemma passes_iff_nothing_else (finder : Client) (idx : IterableIndex) (g g' : globals)
    (r : verifyIngestResult) :
  Z.of_nat (List.length (retained idx g)) < 2 ^ 63 ->
  verifyIngestFromCarIterableIndex finder idx g = (inr r, g') ->
  passedVerification r = true <-> err r = 0 /\ absent r = 0 /\ providerMissmatch r = 0.
Proof.
  intros Hlen Hrun.
  destruct (verify_tally finder idx g g' r Hlen Hrun) as (Ht & He & Ha & Hm & Hp).
  cbv zeta in *.
  set (classes := List.map (classify (finder (retained idx g)) (provId g)) (retained idx g)) in *.
  pose proof (count_sum classes) as Hsum.
  pose proof (count_bounds QueryFailed classes) as B1.
  pose proof (count_bounds Absent classes) as B2.
  pose proof (count_bounds ProviderMismatch classes) as B3.
  assert (Hl : List.length classes = List.length (retained idx g))
    by apply List.length_map.
  unfold passedVerification. rewrite Z.eqb_eq. lia.
Qed.

(** The verdict when the batched lookup fails. *)
Lemma failed_lookup_passes_iff_empty (finder : Client) (idx : IterableIndex) (g g' : globals)
    (r : verifyIngestResult) (e : error) :
  Z.of_nat (List.length (retained idx g)) < 2 ^ 63 ->
  verifyIngestFromCarIterableIndex finder idx g = (inr r, g') ->
  finder (retained idx g) = inl e ->
  passedVerification r = true <-> retained idx g = [].
Proof.
  intros Hlen Hrun Hfind.
  rewrite (passes_iff_nothing_else finder idx g g' r Hlen Hrun).
  unfold verifyIngestFromCarIterableIndex, retained in *.
  destruct (forEach_include (records idx) [] g) as [mhs g1]. cbn [fst] in *.
  destruct (failure idx); [discriminate |]. rewrite Hfind in Hrun.
  injection Hrun as <- _. cbn [err absent providerMissmatch].
  unfold len. rewrite wrap64_small by lia.
  destruct mhs; cbn [List.length]; split; intros H; try (repeat split; reflexivity).
  - destruct H as [H _]. lia.
  - discriminate.
Qed.

(** What [doVerifyIngest] does when exactly one source is given. *)
Lemma one_source_or_help
    (getOrGenerateCarIndex readCarIndex : string -> error + IterableIndex)
    (httpfinderclient_New : string -> error + Client) (g : globals) :
  let run := verify_ingest_command.doVerifyIngest getOrGenerateCarIndex readCarIndex
               httpfinderclient_New g in
  (carPath g = "" <-> carIndexPath g = "") ->
  exists msg : string,
    run = ([verify_ingest_command.ShowCommandHelp "verify-ingest"], exits (Exit msg 1), g).
Proof.
  cbv zeta. unfold verify_ingest_command.doVerifyIngest. intros Hboth.
  destruct (String.eqb (carPath g) "") eqn:Hc; cbn [negb].
  - apply String.eqb_eq in Hc. apply Hboth in Hc. rewrite Hc. cbn. eauto.
  - destruct (String.eqb (carIndexPath g) "") eqn:Hi; cbn [negb].
    + apply String.eqb_eq in Hi. apply Hboth in Hi. rewrite Hi in Hc. discriminate.
    + cbn. eauto.
Qed.

(** The two ways to a result are the same from the index on. *)
Lemma verify_and_print (idx : error + IterableIndex)
    (httpfinderclient_New : string -> error + Client) (g g' : globals)
    (out : list printed) (e : ExitCoder) :
  doVerifyIngestFromCar idx httpfinderclient_New g = (out, exits e, g')
  \/ doVerifyIngestFromCarIndex idx httpfinderclient_New g = (out, exits e, g') ->
  exists (i : IterableIndex) (finder : Client) (r : verifyIngestResult),
    idx = inr i
    /\ httpfinderclient_New (indexerAddr g) = inr finder
    /\ verifyIngestFromCarIterableIndex finder i g = (inr r, g')
    /\ (out, e) = printAndExit r g'.
Proof.
  assert (Hsame : doVerifyIngestFromCarIndex idx httpfinderclient_New g
                  = doVerifyIngestFromCar idx httpfinderclient_New g) by reflexivity.
  rewrite Hsame. intros [H | H]; unfold doVerifyIngestFromCar in H;
    (destruct idx as [? | i]; [discriminate |]);
    (destruct (httpfinderclient_New (indexerAddr g)) as [? | finder]; [discriminate |]);
    (destruct (verifyIngestFromCarIterableIndex finder i g) as [[? | r] g1] eqn:Hrun;
       [discriminate |]);
    (destruct (printAndExit r g1) as [out1 code] eqn:Hprint);
    injection H as <- <- <-; exists i, finder, r; rewrite Hprint; auto.
Qed.

End Facts.

End verify_ingest_more.

(** More of the sample verifier: a response that lists a multihash twice,
    and the sources of the command. *)
Module verify_ingest_sample_more.

Import verify_ingest verify_ingest_sample.

Definition other_provider : string :=
  "12D3KooWHf7cahZvAVB36SGaVXc7fiVDoJdRJq42zDRcN2s2512h".

Definition listed_twice : list MultihashResult :=
  [ with_provider other_provider (bytes_of_string "mh1");
    with_provider expected_provider (bytes_of_string "mh2");
    with_provider expected_provider (bytes_of_string "mh1") ].

Definition not_a_number : globals := flags PrimFloat.nan 0.

Definition car_flags : globals :=
  Globals "./my-dag.car" "" "192.168.2.100:3000" expected_provider 1 0 include_every.

Definition car_index_of (path : string) : error + IterableIndex :=
  if String.eqb path "my-dag.car" then inr sample_index
  else inl (errors_New "open: no such file or directory").

Definition no_index_file (path : string) : error + IterableIndex :=
  inl (errors_New "open: no such file or directory").

End verify_ingest_sample_more.

(** X10.  The multihashes a run retains are a selection of the index's, in
    the order of the index: none is made up, repeated or moved, so the run
    never checks more multihashes than the index has records. *)
Theorem retained_is_a_selection_of_the_index `{verify_ingest.Rand}
    (idx : verify_ingest.IterableIndex) (g : verify_ingest.globals) :
  verify_ingest.retained idx g `sublist_of` List.map fst (verify_ingest.records idx)
  /\ (List.length (verify_ingest.retained idx g)
      <= List.length (verify_ingest.records idx))%nat.
Proof.
  pose proof (verify_ingest_more.retained_sublist idx g) as Hsub.
  split; [exact Hsub |].
  apply sublist_length in Hsub. now rewrite List.length_map in Hsub.
Qed.

(** X11.  A run that gives a result passes exactly when it counted nothing
    as failed, absent or with another provider.  So when the batched lookup
    fails, the run passes only if it retained no multihash at all. *)
Theorem passes_iff_no_other_counter `{verify_ingest.Rand}
    (finder : verify_ingest.Client) (idx : verify_ingest.IterableIndex)
    (g g' : verify_ingest.globals) (r : verify_ingest.verifyIngestResult) :
  Z.of_nat (List.length (verify_ingest.retained idx g)) < 2 ^ 63 ->
  verify_ingest.verifyIngestFromCarIterableIndex finder idx g = (inr r, g') ->
  (verify_ingest.passedVerification r = true
   <-> verify_ingest.err r = 0 /\ verify_ingest.absent r = 0
       /\ verify_ingest.providerMissmatch r = 0)
  /\ (forall e : error,
        finder (verify_ingest.retained idx g) = inl e ->
        (verify_ingest.passedVerification r = true <-> verify_ingest.retained idx g = [])).
Proof.
  intros Hlen Hrun. split.
  - now apply (verify_ingest_more.passes_iff_nothing_else finder idx g g').
  - intros e Hfind.
    now apply (verify_ingest_more.failed_lookup_passes_iff_empty finder idx g g' r e).
Qed.

(** X11, witness: the finder of the sample cannot be reached, and the run
    does not pass. *)
Lemma passes_iff_no_other_counter_witness :
  verify_ingest.passedVerification (verify_ingest.Result 3 0 0 0 3) = true
  <-> verify_ingest.retained verify_ingest_sample.sample_index verify_ingest_sample.every = [].
Proof.
  exact (proj2 (passes_iff_no_other_counter (H := verify_ingest_sample.alternating)
                  verify_ingest_sample.unreachable verify_ingest_sample.sample_index
                  verify_ingest_sample.every verify_ingest_sample.every
                  (verify_ingest.Result 3 0 0 0 3) eq_refl eq_refl)
               (errors_New "connection refused") eq_refl).
Defined.

(** X12.  A sampling probability that is not a number gets through
    [beforeVerifyIngest]: both comparisons of the range check are false, and
    so is the comparison with one.  Every draw of the selector is then
    compared with it and fails, so the run retains nothing of any index,
    counts nothing, and exits with code zero whatever the indexer answers. *)
Theorem not_a_number_probability_passes `{verify_ingest.Rand}
    (g : verify_ingest.globals) (now : Z) :
  PrimFloat.is_nan (verify_ingest.samplingProb g) = true ->
  exists g1 : verify_ingest.globals,
    verify_ingest.beforeVerifyIngest now g = (None, g1)
    /\ forall (idx : verify_ingest.IterableIndex) (finder : verify_ingest.Client),
         verify_ingest.retained idx g1 = []
         /\ (verify_ingest.failure idx = None ->
             exists g' : verify_ingest.globals,
               verify_ingest.verifyIngestFromCarIterableIndex finder idx g1
               = (inr (verify_ingest.Result 0 0 0 0 0), g')
               /\ verify_ingest.exitCode
                    (snd (verify_ingest.printAndExit (verify_ingest.Result 0 0 0 0 0) g'))
                  = 0).
Proof.
  intros Hnan.
  pose proof (float64_facts.nan_compares_false _ Hnan) as Hcmp.
  unfold verify_ingest.beforeVerifyIngest.
  destruct (Hcmp 0%float) as (Hle0 & _ & _ & _ & _).
  destruct (Hcmp 1%float) as (_ & _ & _ & Hgt1 & Heq1).
  rewrite Hle0, Hgt1, Heq1. cbn [orb].
  eexists. split; [reflexivity |].
  set (g0 := if verify_ingest.rngSeed g =? 0 then verify_ingest.set_rngSeed g now else g).
  set (g1 := verify_ingest.set_include g0 _).
  assert (Hp : verify_ingest.samplingProb g1 = verify_ingest.samplingProb g).
  { subst g1 g0. destruct (verify_ingest.rngSeed g =? 0); reflexivity. }
  intros idx finder.
  assert (Hnone : fst (verify_ingest.forEach_include (verify_ingest.records idx) [] g1) = []).
  { apply verify_ingest_more.forEach_include_never.
    - intros y. rewrite Hp. now destruct (Hcmp y) as (_ & Hy & _).
    - subst g1. cbn [verify_ingest.include verify_ingest.set_include]. discriminate. }
  split; [exact Hnone |].
  intros Hfail. unfold verify_ingest.verifyIngestFromCarIterableIndex.
  destruct (verify_ingest.forEach_include (verify_ingest.records idx) [] g1) as [mhs g2].
  cbn [fst] in Hnone. subst mhs. rewrite Hfail.
  exists g2. split; [| reflexivity].
  destruct (finder []) as [e | response]; [reflexivity |].
  destruct (verify_ingest.MultihashResults response); reflexivity.
Qed.

(** X12, witness: the sample index, sampled with a probability that is not
    a number, and an indexer that knows nothing. *)
Lemma not_a_number_probability_passes_witness :
  exists g1 : verify_ingest.globals,
    verify_ingest.beforeVerifyIngest 1700000000 verify_ingest_sample_more.not_a_number
    = (None, g1)
    /\ verify_ingest.retained verify_ingest_sample.sample_index g1 = [].
Proof.
  destruct (not_a_number_probability_passes (H := verify_ingest_sample.alternating)
              verify_ingest_sample_more.not_a_number 1700000000 eq_refl)
    as (g1 & Hbefore & Hall).
  exists g1. split; [exact Hbefore |].
  exact (proj1 (Hall verify_ingest_sample.sample_index verify_ingest_sample.finds_none)).
Defined.

(** X13.  The seed a run prints gives the run again.  After
    [beforeVerifyIngest] the seed flag holds the seed the generator was made
    from, also when it was taken from the clock; the run does not change
    it, and [printAndExit] prints it.  Given as the seed flag of another
    run with the same flags otherwise, it leads to the same state whatever
    the clock reads then, unless the seed taken from the clock was zero. *)
Theorem printed_seed_gives_the_run_again `{verify_ingest.Rand}
    (g g1 : verify_ingest.globals) (now : Z) :
  verify_ingest.beforeVerifyIngest now g = (None, g1) ->
  verify_ingest.rngSeed g1 <> 0 ->
  (forall now' : Z,
     verify_ingest.beforeVerifyIngest now'
       (verify_ingest.set_rngSeed g (verify_ingest.rngSeed g1))
     = (None, g1))
  /\ (forall (finder : verify_ingest.Client) (idx : verify_ingest.IterableIndex)
        (r : verify_ingest.verifyIngestResult) (g' : verify_ingest.globals),
        verify_ingest.verifyIngestFromCarIterableIndex finder idx g1 = (inr r, g') ->
        In (verify_ingest.Printf "RNG seed:                               %d\n"
              (verify_ingest.of_int (verify_ingest.rngSeed g1)))
           (fst (verify_ingest.printAndExit r g'))).
Proof.
  intros Hbefore Hseed. split.
  - intros now'. revert Hbefore Hseed. unfold verify_ingest.beforeVerifyIngest.
    destruct g as [cp cip addr pid p seed inc].
    cbn [verify_ingest.samplingProb verify_ingest.rngSeed verify_ingest.set_rngSeed
         verify_ingest.carPath verify_ingest.carIndexPath verify_ingest.indexerAddr
         verify_ingest.provId verify_ingest.include].
    destruct (PrimFloat.leb p 0 || PrimFloat.ltb 1 p); [discriminate |].
    destruct (PrimFloat.eqb p 1).
    + intros [= <-]. reflexivity.
    + destruct (seed =? 0) eqn:Hz; intros [= <-];
        cbn [verify_ingest.rngSeed verify_ingest.set_include verify_ingest.set_rngSeed
             verify_ingest.carPath verify_ingest.carIndexPath verify_ingest.indexerAddr
             verify_ingest.provId verify_ingest.include verify_ingest.samplingProb];
        intros Hne.
      * apply Z.eqb_neq in Hne. rewrite Hne. reflexivity.
      * rewrite Hz. reflexivity.
  - intros finder idx r g' Hrun.
    apply verify_ingest_more.verify_frame in Hrun.
    pose proof (verify_ingest_facts.forEach_include_frame (verify_ingest.records idx) [] g1)
      as (_ & _ & Hr & _).
    rewrite <- Hrun in Hr. unfold verify_ingest.printAndExit. cbn [fst]. rewrite Hr.
    do 10 right. left. reflexivity.
Qed.

(** X13, witness: no seed given, the clock reads 7; seed 7 given, the
    clock reads 9. *)
Lemma printed_seed_gives_the_run_again_witness :
  verify_ingest.beforeVerifyIngest 9
    (verify_ingest.set_rngSeed (verify_ingest_sample.flags 0.5 0) 7)
  = (None, verify_ingest_sample.half 7).
Proof.
  refine (proj1 (printed_seed_gives_the_run_again (H := verify_ingest_sample.alternating)
                   (verify_ingest_sample.flags 0.5 0) (verify_ingest_sample.half 7) 7
                   eq_refl _) 9).
  discriminate.
Defined.

(** X14.  The lookup table made of a response holds, for a multihash, the
    last result the response lists for it: what the table gives for a
    multihash is a result of the response for that very multihash; a result
    is what the table gives for its multihash when no later result is for
    the same one; and the table has nothing for a multihash exactly when the
    response lists no result for it. *)
Theorem mhLookup_holds_the_last_result_of_a_multihash
    (rs : list verify_ingest.MultihashResult) (mh : verify_ingest.Multihash) :
  (forall mr : verify_ingest.MultihashResult,
     verify_ingest.make_mhLookup rs !! verify_ingest.Multihash_String mh = Some mr ->
     In mr rs /\ verify_ingest.MultihashOf mr = mh)
  /\ (forall (rs1 rs2 : list verify_ingest.MultihashResult)
        (mr : verify_ingest.MultihashResult),
        rs = (rs1 ++ mr :: rs2)%list ->
        verify_ingest.MultihashOf mr = mh ->
        Forall (fun mr' => verify_ingest.MultihashOf mr' <> mh) rs2 ->
        verify_ingest.make_mhLookup rs !! verify_ingest.Multihash_String mh = Some mr)
  /\ (verify_ingest.make_mhLookup rs !! verify_ingest.Multihash_String mh = None
      <-> Forall (fun mr => verify_ingest.MultihashOf mr <> mh) rs).
Proof.
  refine (conj _ (conj _ _)).
  - intros mr. apply verify_ingest_more.make_mhLookup_Some.
  - intros rs1 rs2 mr -> <- Hlater. now apply verify_ingest_more.make_mhLookup_last.
  - apply verify_ingest_more.make_mhLookup_None.
Qed.

(** X14, witness: a response that lists a multihash first with another
    provider and last with the expected one. *)
Lemma mhLookup_holds_the_last_result_of_a_multihash_witness :
  verify_ingest.make_mhLookup verify_ingest_sample_more.listed_twice
    !! verify_ingest.Multihash_String (bytes_of_string "mh1")
  = Some (verify_ingest_sample.with_provider verify_ingest_sample.expected_provider
            (bytes_of_string "mh1")).
Proof.
  refine (proj1 (proj2 (mhLookup_holds_the_last_result_of_a_multihash
                          verify_ingest_sample_more.listed_twice (bytes_of_string "mh1")))
            [ verify_ingest_sample.with_provider verify_ingest_sample_more.other_provider
                (bytes_of_string "mh1");
              verify_ingest_sample.with_provider verify_ingest_sample.expected_provider
                (bytes_of_string "mh2") ]
            [] _ eq_refl eq_refl (List.Forall_nil _)).
Defined.

(** X15.  [doVerifyIngest] exits with code zero only after a verification
    that passed: exactly one of the two sources was given, the index was
    read from the cleaned path of that source, a finder was made for the
    indexer's address, the run over that index gave a result whose present
    count is its total, and the result was printed.  With both sources or
    none the command shows its help and exits with code one, whatever is at
    the paths. *)
Theorem doVerifyIngest_exits_zero_only_when_verified `{verify_ingest.Rand}
    (getOrGenerateCarIndex readCarIndex : string -> error + verify_ingest.IterableIndex)
    (httpfinderclient_New : string -> error + verify_ingest.Client)
    (g : verify_ingest.globals) :
  let run := verify_ingest_command.doVerifyIngest getOrGenerateCarIndex readCarIndex
               httpfinderclient_New g in
  (forall (out : list verify_ingest_command.shown) (e : verify_ingest.ExitCoder)
      (g' : verify_ingest.globals),
      run = (out, verify_ingest.exits e, g') ->
      verify_ingest.exitCode e = 0 ->
      exists (source : error + verify_ingest.IterableIndex) (g0 : verify_ingest.globals)
             (idx : verify_ingest.IterableIndex) (finder : verify_ingest.Client)
             (r : verify_ingest.verifyIngestResult),
        ((verify_ingest.carPath g <> "" /\ verify_ingest.carIndexPath g = ""
          /\ g0 = verify_ingest_command.set_carPath g
                    (GoPath.Clean (verify_ingest.carPath g))
          /\ source = getOrGenerateCarIndex (GoPath.Clean (verify_ingest.carPath g)))
         \/ (verify_ingest.carPath g = "" /\ verify_ingest.carIndexPath g <> ""
             /\ g0 = verify_ingest_command.set_carIndexPath g
                       (GoPath.Clean (verify_ingest.carIndexPath g))
             /\ source = readCarIndex (GoPath.Clean (verify_ingest.carIndexPath g))))
        /\ source = inr idx
        /\ httpfinderclient_New (verify_ingest.indexerAddr g) = inr finder
        /\ verify_ingest.verifyIngestFromCarIterableIndex finder idx g0 = (inr r, g')
        /\ verify_ingest.present r = verify_ingest.total r
        /\ out = List.map verify_ingest_command.Output
                   (fst (verify_ingest.printAndExit r g')))
  /\ ((verify_ingest.carPath g = "" <-> verify_ingest.carIndexPath g = "") ->
      exists msg : string,
        run = ([verify_ingest_command.ShowCommandHelp "verify-ingest"],
               verify_ingest.exits (verify_ingest.Exit msg 1), g)).
Proof.
  cbv zeta. split; [| apply verify_ingest_more.one_source_or_help].
  intros out e g' Hrun Hcode.
  assert (Hverified :
    forall (source : error + verify_ingest.IterableIndex) (g0 : verify_ingest.globals)
           (out0 : list verify_ingest.printed),
      verify_ingest.indexerAddr g0 = verify_ingest.indexerAddr g ->
      verify_ingest.doVerifyIngestFromCar source httpfinderclient_New g0
      = (out0, verify_ingest.exits e, g') ->
      exists (idx : verify_ingest.IterableIndex) (finder : verify_ingest.Client)
             (r : verify_ingest.verifyIngestResult),
        source = inr idx
        /\ httpfinderclient_New (verify_ingest.indexerAddr g) = inr finder
        /\ verify_ingest.verifyIngestFromCarIterableIndex finder idx g0 = (inr r, g')
        /\ verify_ingest.present r = verify_ingest.total r
        /\ out0 = fst (verify_ingest.printAndExit r g')).
  { intros source g0 out0 Haddr Hdo.
    destruct (verify_ingest_more.verify_and_print source httpfinderclient_New g0 g' out0 e
                (or_introl Hdo)) as (idx & finder & r & Hsrc & Hfinder & Hver & Hprint).
    exists idx, finder, r. rewrite <- Haddr, <- Hprint.
    repeat apply conj; auto.
    unfold verify_ingest.printAndExit in Hprint. injection Hprint as _ He.
    unfold verify_ingest.passedVerification in He.
    destruct (verify_ingest.present r =? verify_ingest.total r) eqn:Hpass;
      [now apply Z.eqb_eq in Hpass | subst e; discriminate Hcode]. }
  unfold verify_ingest_command.doVerifyIngest in Hrun.
  destruct (String.eqb (verify_ingest.carPath g) "") eqn:Hc; cbn [negb] in Hrun.
  - apply String.eqb_eq in Hc.
    destruct (String.eqb (verify_ingest.carIndexPath g) "") eqn:Hi.
    + injection Hrun as _ <- _. discriminate Hcode.
    + apply String.eqb_neq in Hi.
      change (verify_ingest.doVerifyIngestFromCarIndex ?s ?f ?g0)
        with (verify_ingest.doVerifyIngestFromCar s f g0) in Hrun.
      match type of Hrun with
      | context [verify_ingest.doVerifyIngestFromCar ?s _ ?g0] =>
          destruct (verify_ingest.doVerifyIngestFromCar s httpfinderclient_New g0)
            as [[out0 o] g1] eqn:Hdo;
          injection Hrun as <- -> ->;
          destruct (Hverified s g0 out0 eq_refl Hdo)
            as (idx & finder & r & Hs & Hf & Hv & Hp & Ho);
          exists s, g0, idx, finder, r
      end.
      split; [right; auto | repeat apply conj; auto; now rewrite Ho].
  - apply String.eqb_neq in Hc.
    destruct (String.eqb (verify_ingest.carIndexPath g) "") eqn:Hi; cbn [negb] in Hrun.
    + apply String.eqb_eq in Hi.
      match type of Hrun with
      | context [verify_ingest.doVerifyIngestFromCar ?s _ ?g0] =>
          destruct (verify_ingest.doVerifyIngestFromCar s httpfinderclient_New g0)
            as [[out0 o] g1] eqn:Hdo;
          injection Hrun as <- -> ->;
          destruct (Hverified s g0 out0 eq_refl Hdo)
            as (idx & finder & r & Hs & Hf & Hv & Hp & Ho);
          exists s, g0, idx, finder, r
      end.
      split; [left; auto | repeat apply conj; auto; now rewrite Ho].
    + cbn in Hrun. injection Hrun as _ <- _. discriminate Hcode.
Qed.

(** X15, witness: the sample CAR given as [./my-dag.car], every multihash
    found with the expected provider. *)
Lemma doVerifyIngest_exits_zero_only_when_verified_witness :
  exists (source : error + verify_ingest.IterableIndex) (g0 : verify_ingest.globals)
         (idx : verify_ingest.IterableIndex) (finder : verify_ingest.Client)
         (r : verify_ingest.verifyIngestResult),
    source = inr idx
    /\ verify_ingest.verifyIngestFromCarIterableIndex finder idx g0
       = (inr r, verify_ingest_command.set_carPath verify_ingest_sample_more.car_flags
                   "my-dag.car")
    /\ verify_ingest.present r = verify_ingest.total r.
Proof.
  destruct (proj1 (doVerifyIngest_exits_zero_only_when_verified
                     (H := verify_ingest_sample.alternating)
                     verify_ingest_sample_more.car_index_of
                     verify_ingest_sample_more.no_index_file
                     (fun _ => inr verify_ingest_sample.finds_all)
                     verify_ingest_sample_more.car_flags)
             _ _ _ eq_refl eq_refl)
    as (source & g0 & idx & finder & r & _ & Hs & _ & Hv & Hp & _).
  exists source, g0, idx, finder, r. auto.
Defined.

(** X16.  The CAR supplier behind [ToCidCallback]: after [Put] or
    [PutWithID] of a CAR, the callback made of the supplier's [Supply],
    called with the identifier that was returned, starts [toChan] over the
    CAR at the cleaned path.  When that CAR gives the CIDs of a list and
    then ends, a reader that takes every value as soon as it was sent
    receives them all, in order, and finds both channels closed; and under
    every schedule what was received is a prefix of the list and no error
    is received. *)
Theorem ToCidCallback_streams_a_registered_CAR
    {C : Cids} {D : datastore.Datastore}
    {L : datastore.DatastoreLaws D} {F : datastore_frame.DatastoreFrame D}
    (ReadOption : Type)
    (newCarCidIterator : string -> list ReadOption -> error + suppliers.CidIterator)
    (cs cs1 : suppliers.CarSupplier ReadOption) (path : string) (id0 id : Cid)
    (cids : list Cid) :
  suppliers.Put ReadOption newCarCidIterator cs path = (inr id, cs1)
  \/ suppliers.PutWithID ReadOption cs id0 path = (inr id, cs1) ->
  suppliers.toCarIdKey id <> suppliers.toPathKey (GoPath.Clean path) ->
  newCarCidIterator (GoPath.Clean path) (suppliers.opts cs)
  = inr (adapter_runs.iterator_of cids) ->
  exists s : suppliers.stream,
    suppliers.ToCidCallback (suppliers.Supply ReadOption newCarCidIterator cs1) id = Some s
    /\ snd (suppliers.run s (adapter_runs.eager_reader (List.length cids)))
       = (List.concat
            (List.map
               (fun c => [suppliers.CalledNext; suppliers.SentCid c; suppliers.GotCid c])
               cids)
          ++ [suppliers.CalledNext; suppliers.ClosedBoth;
              suppliers.SawCidClosed; suppliers.SawErrClosed])%list
    /\ forall acts : list suppliers.action,
         (exists rest : list Cid,
            cids = (adapter_runs.got_cids (snd (suppliers.run s acts)) ++ rest)%list)
         /\ List.existsb adapter_runs.is_GotErr (snd (suppliers.run s acts)) = false.
Proof.
  intros Hput Hkeys Hopen.
  exists (suppliers.toChan (adapter_runs.iterator_of cids)).
  unfold suppliers.ToCidCallback.
  rewrite (car_supplier_more.Supply_after_Put _ newCarCidIterator cs cs1 path id0 id
             Hput Hkeys), Hopen.
  split; [reflexivity |]. split; [apply adapter_runs_facts.eager_reader_events |].
  intros acts.
  destruct (adapter_runs_facts.iterator_of_error_free cids) as [Hfree Howed].
  destruct (adapter_runs_facts.run_error_free acts _ Hfree) as (_ & Hgot & Herr & _).
  rewrite Howed in Hgot. split; [| exact Herr].
  eexists. symmetry. exact Hgot.
Qed.

(** X16, witness: the sample CAR behind the callback. *)
Lemma ToCidCallback_streams_a_registered_CAR_witness :
  exists s : suppliers.stream,
    suppliers.ToCidCallback
      (suppliers.Supply unit car_supplier_sample.open_car car_supplier_sample.registered)
      car_supplier_sample.sample_id = Some s
    /\ snd (suppliers.run s (adapter_runs.eager_reader 2))
       = [suppliers.CalledNext; suppliers.SentCid car_supplier_sample.block_1;
          suppliers.GotCid car_supplier_sample.block_1;
          suppliers.CalledNext; suppliers.SentCid car_supplier_sample.block_2;
          suppliers.GotCid car_supplier_sample.block_2;
          suppliers.CalledNext; suppliers.ClosedBoth;
          suppliers.SawCidClosed; suppliers.SawErrClosed].
Proof.
  destruct (ToCidCallback_streams_a_registered_CAR unit car_supplier_sample.open_car
              car_supplier_sample.empty_supplier car_supplier_sample.registered
              car_supplier_sample.sample_path car_supplier_sample.sample_id
              car_supplier_sample.sample_id
              [car_supplier_sample.block_1; car_supplier_sample.block_2]
              (or_introl car_supplier_sample.Put_sample)
              (proj2 (proj2 car_supplier_sample_more.keys_differ))
              car_supplier_sample_more.open_sample)
    as (s & Hs & Hevents & _).
  exists s. split; [exact Hs | exact Hevents].
Defined.
